(** * RDAP client core: caches, expiry derivation, fetch engine, decoder
      dispatch and IP bootstrap resolution.

    A shallow embedding of the Go package [rdapclient] together with the
    properties its specification states about it.  Go values are modelled
    as follows.

    - [string] is a sequence of bytes (Rocq [string], one [ascii] per byte).
    - [int] and [time.Duration] are 64-bit two's-complement integers, held
      in [Z] with the wrap-around written out ([wrap64]).
    - [time.Time] is an instant on the nanosecond line, counted from Go's
      zero [Time]; [time.Time{}] is instant [0].  Instants are unbounded
      (Go keeps seconds and nanoseconds apart and covers billions of
      years), and monotonic readings are left out.
    - [http.Header] is a finite map from canonical keys to value lists.
    - [map[string]any] is a finite map to a JSON value tree; the nil map is
      [None].
    - A panic (nil dereference) is the result [None] of an operation that
      returns [option].

    Functions of Go's standard library whose behaviour is fixed by large
    external tables or grammars (Unicode case mapping, date layouts, the
    JSON codec, IP literal syntax) are fields of the class [Runtime]; every
    definition and theorem is parametric in it. *)

From Stdlib Require Import ZArith Ascii String.
From stdpp Require Import gmap strings list fin_maps.

Local Open Scope Z_scope.

Set Warnings "-register-all".

(** ** Machine integers *)

Definition int64_min : Z := - 2 ^ 63.
Definition int64_max : Z := 2 ^ 63 - 1.

(** Two's-complement reduction of a mathematical integer to 64 bits. *)
Definition wrap64 (z : Z) : Z := (z + 2 ^ 63) mod 2 ^ 64 - 2 ^ 63.

Definition int_add (a b : Z) : Z := wrap64 (a + b).
Definition int_mul (a b : Z) : Z := wrap64 (a * b).

(** ** time *)

Definition Time := Z.
Definition Duration := Z.

Definition Nanosecond : Duration := 1.
Definition Second : Duration := 1000000000.
Definition Minute : Duration := 60 * Second.

Definition zeroTime : Time := 0.
Definition Time_IsZero (t : Time) : bool := bool_decide (t = zeroTime).
Definition Time_Before (t u : Time) : bool := bool_decide (t < u).
Definition Time_Add (t : Time) (d : Duration) : Time := t + d.

(** [t.Sub(u)] saturates at the largest and smallest [Duration]. *)
Definition Time_Sub (t u : Time) : Duration :=
  if bool_decide (t - u > int64_max) then int64_max
  else if bool_decide (t - u < int64_min) then int64_min
  else t - u.

(** ** strings *)

Definition byte_val (c : ascii) : Z := Z.of_N (N_of_ascii c).

Definition byte_of (z : Z) : ascii := ascii_of_N (Z.to_N z).

Definition isUpper (c : ascii) : bool :=
  bool_decide (65 <= byte_val c <= 90).

Definition isLower (c : ascii) : bool :=
  bool_decide (97 <= byte_val c <= 122).

Definition isDigit (c : ascii) : bool :=
  bool_decide (48 <= byte_val c <= 57).

Definition lowerByte (c : ascii) : ascii :=
  if isUpper c then byte_of (byte_val c + 32) else c.

Definition upperByte (c : ascii) : ascii :=
  if isLower c then byte_of (byte_val c - 32) else c.

Fixpoint isASCII (s : string) : bool :=
  match s with
  | EmptyString => true
  | String c r => bool_decide (byte_val c < 128) && isASCII r
  end.

Fixpoint mapBytes (f : ascii -> ascii) (s : string) : string :=
  match s with
  | EmptyString => EmptyString
  | String c r => String (f c) (mapBytes f r)
  end.

Fixpoint strings_HasPrefix (s p : string) : bool :=
  match p, s with
  | EmptyString, _ => true
  | String _ _, EmptyString => false
  | String a p', String b s' => bool_decide (a = b) && strings_HasPrefix s' p'
  end.

Fixpoint dropBytes (n : nat) (s : string) : string :=
  match n, s with
  | O, _ => s
  | S _, EmptyString => EmptyString
  | S n', String _ r => dropBytes n' r
  end.

Definition strings_TrimPrefix (s p : string) : string :=
  if strings_HasPrefix s p then dropBytes (String.length p) s else s.

Fixpoint strings_Contains (s sub : string) : bool :=
  strings_HasPrefix s sub ||
  match s with
  | EmptyString => false
  | String _ r => strings_Contains r sub
  end.

(** [strings.Split(s, sep)] for a one-byte separator, the only way the
    package calls it. *)
Fixpoint strings_Split (s : string) (sep : ascii) : list string :=
  match s with
  | EmptyString => [EmptyString]
  | String c r =>
      if bool_decide (c = sep) then EmptyString :: strings_Split r sep
      else match strings_Split r sep with
           | [] => [String c EmptyString]
           | p :: ps => String c p :: ps
           end
  end.

Definition string_rev (s : string) : string :=
  string_of_list_ascii (rev (list_ascii_of_string s)).

(** [strings.TrimRight(s, cutset)] for a cutset of one ASCII byte. *)
Fixpoint dropWhileByte (c : ascii) (s : string) : string :=
  match s with
  | EmptyString => EmptyString
  | String a r => if bool_decide (a = c) then dropWhileByte c r else s
  end.

Definition strings_TrimRight (s : string) (cut : ascii) : string :=
  string_rev (dropWhileByte cut (string_rev s)).

(** The table [asciiSpace]: tab, line feed, vertical tab, form feed,
    carriage return and space. *)
Definition asciiSpace (c : ascii) : bool :=
  bool_decide (9 <= byte_val c <= 13) || bool_decide (byte_val c = 32).

(** Outcome of one of the two scanning loops of [strings.TrimSpace]. *)
Inductive scan :=
| ScanStop (rest : string)      (* an ASCII non-space byte, or the end *)
| ScanUnicode (rest : string).  (* a byte >= utf8.RuneSelf heads [rest] *)

Fixpoint scanSpace (s : string) : scan :=
  match s with
  | EmptyString => ScanStop EmptyString
  | String c r =>
      if bool_decide (128 <= byte_val c) then ScanUnicode s
      else if asciiSpace c then scanSpace r
      else ScanStop s
  end.

(** ** strconv *)

Fixpoint allDigits (s : string) : bool :=
  match s with
  | EmptyString => true
  | String c r => isDigit c && allDigits r
  end.

Fixpoint digitsValue (acc : Z) (s : string) : Z :=
  match s with
  | EmptyString => acc
  | String c r => digitsValue (acc * 10 + (byte_val c - 48)) r
  end.

(** [strconv.Atoi]: an optional sign, then one or more decimal digits;
    a value outside the 64-bit [int] range is an error. *)
Definition signAndDigits (s : string) : bool * string :=
  match s with
  | String c r =>
      if bool_decide (c = "-"%char) then (true, r)
      else if bool_decide (c = "+"%char) then (false, r)
      else (false, s)
  | EmptyString => (false, s)
  end.

Definition strconv_Atoi (s : string) : option Z :=
  let '(neg, digits) := signAndDigits s in
  if bool_decide (digits = EmptyString) then None
  else if allDigits digits then
    let v := if neg then - digitsValue 0 digits else digitsValue 0 digits in
    if bool_decide (int64_min <= v <= int64_max) then Some v else None
  else None.

(** ** errors *)

(** What the package observes of a Go [error]: its message, and, when
    [errors.As] finds a [net.Error] in its chain, that error's [Timeout()]
    together with the chain of wrapped errors below it, each with the
    result of its [Temporary()] method when it has one. *)
Record netError := {
  ne_Timeout : bool;
  ne_chain : list (option bool)
}.

Record goerror := {
  err_msg : string;
  err_net : option netError
}.

Definition errors_New (msg : string) : goerror :=
  {| err_msg := msg; err_net := None |}.

(** ** encoding/json values *)

Inductive any :=
| JNull
| JBool (b : bool)
| JNumber (float64bits : Z)
| JString (s : string)
| JArray (xs : list any)
| JObject (m : gmap string any).

(** [map[string]any]; [None] is the nil map. *)
Definition jsonMap := option (gmap string any).

Record bootstrapServices := { Services : list (list any) }.

(** ** RDAP object classes

    The decoder looks at [ObjectClassName] only; the other members of each
    struct are carried as decoded. *)
Record CommonObject := {
  ObjectClassName : string;
  commonMembers : gmap string any
}.

Record Entity := { Entity_Common : CommonObject; Entity_members : gmap string any }.
Record Domain := { Domain_Common : CommonObject; Domain_members : gmap string any }.
Record Nameserver := { Nameserver_Common : CommonObject; Nameserver_members : gmap string any }.
Record IPNetwork := { IPNetwork_Common : CommonObject; IPNetwork_members : gmap string any }.
Record Autnum := { Autnum_Common : CommonObject; Autnum_members : gmap string any }.

(** The interface [Object]: a pointer to one of the five structs. *)
Inductive Object :=
| ObjEntity (v : Entity)
| ObjDomain (v : Domain)
| ObjNameserver (v : Nameserver)
| ObjIPNetwork (v : IPNetwork)
| ObjAutnum (v : Autnum).

(** ** net/netip values *)

(** An address: its family, its 32-bit or 128-bit value, and its IPv6 zone
    (empty when there is none). *)
Record Addr := {
  addr_is6 : bool;
  addr_val : Z;
  addr_zone : string
}.

(** A valid prefix, as [netip.ParsePrefix] returns it: the address as
    written (host bits are not cleared) and the prefix length. *)
Record Prefix := {
  pfx_addr : Addr;
  pfx_bits : nat
}.

Definition Addr_Is6 (a : Addr) : bool := addr_is6 a.
Definition Addr_BitLen (a : Addr) : Z := if addr_is6 a then 128 else 32.
Definition Prefix_Addr (p : Prefix) : Addr := pfx_addr p.
Definition Prefix_Bits (p : Prefix) : Z := Z.of_nat (pfx_bits p).

(** [Prefix.Contains]: never for a zoned address or across families;
    otherwise the leading [Bits()] bits agree. *)
Definition Prefix_Contains (p : Prefix) (ip : Addr) : bool :=
  if negb (bool_decide (addr_zone ip = EmptyString)) then false
  else if negb (bool_decide (Addr_BitLen (pfx_addr p) = Addr_BitLen ip)) then false
  else bool_decide
         (Z.shiftr (Z.lxor (addr_val ip) (addr_val (pfx_addr p)))
                   (Addr_BitLen ip - Prefix_Bits p) = 0).

(** [Prefix.Masked]: the prefix with the host bits of its address cleared;
    its address is the network address of the prefix. *)
Definition Prefix_Masked (p : Prefix) : Prefix :=
  let host := Addr_BitLen (pfx_addr p) - Prefix_Bits p in
  {| pfx_addr := {| addr_is6 := addr_is6 (pfx_addr p);
                    addr_val := Z.shiftl (Z.shiftr (addr_val (pfx_addr p)) host) host;
                    addr_zone := EmptyString |};
     pfx_bits := pfx_bits p |}.

(** ** The standard-library interface *)

Inductive layout := TimeFormat | RFC1123.

Class Runtime := {
  (** [strings.Map(unicode.ToLower, s)], the path [strings.ToLower] takes
      for a string with a non-ASCII byte. *)
  unicode_ToLower : string -> string;
  (** [strings.TrimFunc(s, unicode.IsSpace)] and
      [strings.TrimRightFunc(s, unicode.IsSpace)], the paths
      [strings.TrimSpace] takes at a non-ASCII byte. *)
  unicode_TrimFunc_IsSpace : string -> string;
  unicode_TrimRightFunc_IsSpace : string -> string;
  (** [time.Parse(layout, s)]; [None] is a non-nil error. *)
  time_Parse : layout -> string -> option Time;
  time_Format : layout -> Time -> string;
  (** [time.ParseDuration(s)]. *)
  time_ParseDuration : string -> option Duration;
  (** [json.Unmarshal(b, &m)] for [m map[string]any]. *)
  json_Unmarshal : string -> goerror + jsonMap;
  json_Unmarshal_bootstrap : string -> goerror + bootstrapServices;
  json_Marshal : jsonMap -> goerror + string;
  json_Unmarshal_Entity : string -> goerror + Entity;
  json_Unmarshal_Domain : string -> goerror + Domain;
  json_Unmarshal_Nameserver : string -> goerror + Nameserver;
  json_Unmarshal_IPNetwork : string -> goerror + IPNetwork;
  json_Unmarshal_Autnum : string -> goerror + Autnum;
  (** [netip.ParsePrefix], [netip.ParseAddr] and [Addr.String]. *)
  netip_ParsePrefix : string -> goerror + Prefix;
  netip_ParseAddr : string -> goerror + Addr;
  Addr_String : Addr -> string
}.

Section Strings.
Context {rt : Runtime}.

(** [strings.ToLower]: ASCII strings are mapped byte by byte. *)
Definition strings_ToLower (s : string) : string :=
  if isASCII s then mapBytes lowerByte s else unicode_ToLower s.

(** [strings.TrimSpace]: trims ASCII space from both ends, and hands
    over to the Unicode-aware functions when it meets a non-ASCII
    byte. *)
Definition strings_TrimSpace (s : string) : string :=
  match scanSpace s with
  | ScanUnicode rest => unicode_TrimFunc_IsSpace rest
  | ScanStop rest =>
      match scanSpace (string_rev rest) with
      | ScanUnicode rrest => unicode_TrimRightFunc_IsSpace (string_rev rrest)
      | ScanStop rrest => string_rev rrest
      end
  end.

(** helpers of the package *)
Definition lower (s : string) : string := strings_ToLower s.

Definition trimDotLower (s : string) : string :=
  strings_ToLower (strings_TrimPrefix s ".").

Fixpoint containsAny (s : string) (subs : list string) : bool :=
  match subs with
  | [] => false
  | sub :: rest => if strings_Contains s sub then true else containsAny s rest
  end.
End Strings.

(** [toStringSlice]: the strings of a [[]any]; nil for anything else. *)
Definition toStringSlice (v : any) : list string :=
  match v with
  | JArray arr =>
      omap (fun x => match x with JString s => Some s | _ => None end) arr
  | _ => []
  end.

(** ** net/http headers *)

Abbreviation Header := (gmap string (list string)).

Definition validHeaderFieldByte (c : ascii) : bool :=
  isUpper c || isLower c || isDigit c ||
  bool_decide (c ∈ list_ascii_of_string "!#$%&'*+-.^_`|~").

Fixpoint allBytes (f : ascii -> bool) (s : string) : bool :=
  match s with
  | EmptyString => true
  | String c r => f c && allBytes f r
  end.

Fixpoint canonicalBytes (upper : bool) (s : string) : string :=
  match s with
  | EmptyString => EmptyString
  | String c r =>
      String (if upper then upperByte c else lowerByte c)
             (canonicalBytes (bool_decide (c = "-"%char)) r)
  end.

(** [textproto.CanonicalMIMEHeaderKey]. *)
Definition CanonicalMIMEHeaderKey (s : string) : string :=
  if allBytes validHeaderFieldByte s then canonicalBytes true s else s.

Definition Header_Get (h : Header) (key : string) : string :=
  match h !! CanonicalMIMEHeaderKey key with
  | Some (v :: _) => v
  | _ => EmptyString
  end.

Definition Header_Set (h : Header) (key value : string) : Header :=
  <[CanonicalMIMEHeaderKey key := [value]]> h.

Definition Header_Add (h : Header) (key value : string) : Header :=
  <[CanonicalMIMEHeaderKey key :=
      default [] (h !! CanonicalMIMEHeaderKey key) ++ [value]]> h.

(** [copyHeaders]: every value of [src] is added to [dst]. The order in
    which Go ranges over the keys does not show in the result, keys being
    distinct. *)
Definition copyHeaders (dst src : Header) : Header :=
  map_fold (fun k vs acc => foldl (fun a v => Header_Add a k v) acc vs) dst src.

(** ** The eviction loop of both caches

    [for c.ll.Len() > c.cap { back := c.ll.Back(); delete(c.tab, key of
    back.Value); c.ll.Remove(back) }].  On an empty list [Back()] is nil and
    reading its value panics.  The counter bounds the iterations by the
    length of the list. *)
Fixpoint evict {A : Type} (n : nat) (capacity : Z) (l : list A) : option (list A) :=
  if bool_decide (Z.of_nat (length l) > capacity) then
    match l, n with
    | [], _ => None
    | _ :: _, O => None
    | _ :: _, S n' => evict n' capacity (removelast l)
    end
  else Some l.

Definition evictLoop {A : Type} (capacity : Z) (l : list A) : option (list A) :=
  evict (length l) capacity l.

(** ** The response cache (cache_response.go) *)

Record cachedMeta := {
  ETag : string;
  LastModified : Time;
  expiresAt : Time;
  negUntil : Time
}.

Record cachedResponse := {
  url : string;
  body : string;
  meta : cachedMeta
}.

Definition set_meta (it : cachedResponse) (m : cachedMeta) : cachedResponse :=
  {| url := url it; body := body it; meta := m |}.

Definition set_negUntil (m : cachedMeta) (t : Time) : cachedMeta :=
  {| ETag := ETag m; LastModified := LastModified m;
     expiresAt := expiresAt m; negUntil := t |}.

Section Expiry.
Context {rt : Runtime}.

(** The body of the loop of [expiryFromHeaders] over the comma-separated
    parts of [Cache-Control]: the [n] for which the part makes the loop
    return, if it does. *)
Definition maxAgePart (p0 : string) : option Z :=
  let p := strings_TrimSpace p0 in
  if strings_HasPrefix (strings_ToLower p) "max-age=" then
    match strconv_Atoi (strings_TrimPrefix p "max-age=") with
    | Some n => if bool_decide (0 <= n) then Some n else None
    | None => None
    end
  else None.

(** The loop: the first part that yields a value ends it with
    [time.Duration(n) * time.Second]. *)
Fixpoint maxAgeLoop (parts : list string) : option Duration :=
  match parts with
  | [] => None
  | p0 :: rest =>
      match maxAgePart p0 with
      | Some n => Some (int_mul n Second)
      | None => maxAgeLoop rest
      end
  end.

(** The [Cache-Control] block of [expiryFromHeaders]; [None] when control
    falls through to [Expires]. *)
Definition expiryFromCacheControl (cc : string) : option Duration :=
  if bool_decide (cc ≠ EmptyString) then
    let lcc := strings_ToLower cc in
    if strings_Contains lcc "no-store" || strings_Contains lcc "no-cache"
    then Some 0
    else maxAgeLoop (strings_Split cc ","%char)
  else None.

Definition expiryFromExpires (exp : string) (defTTL : Duration) (now : Time)
  : Duration :=
  if bool_decide (exp ≠ EmptyString) then
    match time_Parse TimeFormat exp with
    | Some t =>
        let d := Time_Sub t now in
        if bool_decide (0 < d) then d else defTTL
    | None => defTTL
    end
  else defTTL.

Definition expiryFromHeaders (h : Header) (defTTL : Duration) (now : Time)
  : Duration :=
  match expiryFromCacheControl (Header_Get h "Cache-Control") with
  | Some d => d
  | None => expiryFromExpires (Header_Get h "Expires") defTTL now
  end.

(** The [Last-Modified] block shared by [makeMeta] and [mergeMeta]:
    the parsed date, or [old] when the header is empty or does not
    parse. *)
Definition lastModifiedFrom (h : Header) (old : Time) : Time :=
  let lm := Header_Get h "Last-Modified" in
  if bool_decide (lm ≠ EmptyString) then
    match time_Parse TimeFormat lm with
    | Some t => t
    | None => old
    end
  else old.

Definition makeMeta (h : Header) (defTTL : Duration) (now : Time) : cachedMeta :=
  {| ETag := Header_Get h "ETag";
     LastModified := lastModifiedFrom h zeroTime;
     expiresAt := Time_Add now (expiryFromHeaders h defTTL now);
     negUntil := zeroTime |}.

Definition mergeMeta (prev : cachedMeta) (h : Header) (defTTL : Duration)
    (now : Time) : cachedMeta :=
  {| ETag := (let et := Header_Get h "ETag" in
              if bool_decide (et ≠ EmptyString) then et else ETag prev);
     LastModified := lastModifiedFrom h (LastModified prev);
     expiresAt := Time_Add now (expiryFromHeaders h defTTL now);
     negUntil := negUntil prev |}.
End Expiry.

(** The list [ll] holds the entries, most recently used first.  The table
    [tab] maps a URL to its element of [ll]; every operation inserts under a
    URL only after [tab] has no entry for it and deletes the two together,
    so [tab[u]] is the one element of [ll] whose [url] is [u] ([tab] below),
    and the URLs of [ll] are distinct ([respCache.wf]).

    The field [now] is the injected clock; an operation that calls
    [c.now()] takes the instant it reads as its argument [now].  [Get]
    calls it twice under the one lock; both calls read [now]. *)
Module respCache.

Record t := {
  cap : Z;
  ll : list cachedResponse;
  defTTL : Duration
}.

Definition set_ll (c : t) (l : list cachedResponse) : t :=
  {| cap := cap c; ll := l; defTTL := defTTL c |}.

Definition wf (c : t) : Prop := NoDup (url <$> ll c).

Definition newRespCache (capacity : Z) (defaultTTL : Duration) : t :=
  {| cap := capacity; ll := []; defTTL := defaultTTL |}.

Definition tab (c : t) (u : string) : option cachedResponse :=
  head (filter (fun e => url e = u) (ll c)).

(** [ll] without the element of URL [u]. *)
Definition others (u : string) (l : list cachedResponse) : list cachedResponse :=
  filter (fun e => url e ≠ u) l.

(** [el.Value = it; c.ll.MoveToFront(el)] for the element of URL [url it]. *)
Definition putFront (c : t) (it : cachedResponse) : t :=
  set_ll c (it :: others (url it) (ll c)).

Definition Resize (c : t) (n : Z) : option t :=
  l ← evictLoop n (ll c);
  Some {| cap := n; ll := l; defTTL := defTTL c |}.

Definition Get (now : Time) (c : t) (u : string) : option string * t :=
  match tab c u with
  | Some it =>
      if negb (Time_IsZero (negUntil (meta it)))
         && Time_Before now (negUntil (meta it))
      then (None, c)
      else if Time_Before now (expiresAt (meta it))
              && bool_decide (0 < String.length (body it))%nat
      then (Some (body it), putFront c it)
      else (None, c)
  | None => (None, c)
  end.

Definition FreshBody (c : t) (u : string) : string :=
  match tab c u with
  | Some it => body it
  | None => EmptyString
  end.

Definition Meta (c : t) (u : string) : option cachedMeta :=
  meta <$> tab c u.

Section WithRuntime.
Context {rt : Runtime}.

Definition UpdateFreshness (now : Time) (c : t) (u : string) (hdr : Header) : t :=
  match tab c u with
  | Some it =>
      let m := mergeMeta (meta it) hdr (defTTL c) now in
      putFront c (set_meta it (set_negUntil m zeroTime))
  | None => c
  end.

Definition Store (now : Time) (c : t) (u : string) (b : string) (hdr : Header)
  : option t :=
  let m := makeMeta hdr (defTTL c) now in
  let resp := {| url := u; body := b; meta := m |} in
  match tab c u with
  | Some _ => Some (putFront c resp)
  | None => l ← evictLoop (cap c) (resp :: ll c); Some (set_ll c l)
  end.

Definition StoreMeta (now : Time) (c : t) (u : string) (hdr : Header) : t :=
  let m := makeMeta hdr (defTTL c) now in
  match tab c u with
  | Some it =>
      putFront c (set_meta it (mergeMeta (meta it) hdr (defTTL c) now))
  | None =>
      set_ll c ({| url := u; body := EmptyString; meta := m |} :: ll c)
  end.
End WithRuntime.

Definition StoreNegative (now : Time) (c : t) (u : string) (d : Duration) : t :=
  let m := {| ETag := EmptyString; LastModified := zeroTime;
              expiresAt := zeroTime; negUntil := Time_Add now d |} in
  match tab c u with
  | Some it =>
      putFront c (set_meta it (set_negUntil (meta it) (negUntil m)))
  | None =>
      set_ll c ({| url := u; body := EmptyString; meta := m |} :: ll c)
  end.

End respCache.

(** ** The TTL-LRU cache *)

(** As for the response cache, [ll] is the list (most recently used first),
    [tab[k]] is its one element of key [k], and the reading of the clock
    field [now] is the argument [now]. *)
Module ttlCache.

Section Generic.
Context {T : Type}.

Record ttlItem := {
  key : string;
  val : T;
  expires : Time
}.

Record t := {
  ll : list ttlItem;
  cap : Z;
  ttl : Duration
}.

Definition set_ll (c : t) (l : list ttlItem) : t :=
  {| ll := l; cap := cap c; ttl := ttl c |}.

Definition wf (c : t) : Prop := NoDup (key <$> ll c).

Definition newTTLCache (d : Duration) (capacity : Z) : t :=
  {| ll := []; cap := capacity; ttl := d |}.

Definition Resize (c : t) (n : Z) : t :=
  {| ll := ll c; cap := n; ttl := ttl c |}.

Definition tab (c : t) (k : string) : option ttlItem :=
  head (filter (fun e => key e = k) (ll c)).

Definition others (k : string) (l : list ttlItem) : list ttlItem :=
  filter (fun e => key e ≠ k) l.

Definition Get (now : Time) (c : t) (k : string) : option T * t :=
  match tab c k with
  | Some it =>
      if Time_Before now (expires it)
      then (Some (val it), set_ll c (it :: others k (ll c)))
      else (None, set_ll c (others k (ll c)))
  | None => (None, c)
  end.

Definition Set_ (now : Time) (c : t) (k : string) (v : T) : option t :=
  let it := {| key := k; val := v; expires := Time_Add now (ttl c) |} in
  match tab c k with
  | Some _ => Some (set_ll c (it :: others k (ll c)))
  | None => l ← evictLoop (cap c) (it :: ll c); Some (set_ll c l)
  end.
End Generic.

Arguments ttlItem : clear implicits.
Arguments t : clear implicits.

End ttlCache.

(** ** Helpers *)

Section Helpers.
Context {rt : Runtime}.

(** [retryAfter]; [wall] is the reading of [time.Now()] inside
    [time.Until]. *)
Definition retryAfter (wall : Time) (h : Header) (fallback : Duration) : Duration :=
  let v := Header_Get h "Retry-After" in
  if bool_decide (v ≠ EmptyString) then
    let honoured :=
      match time_ParseDuration (strings_TrimSpace v +:+ "s") with
      | Some sec =>
          if bool_decide (0 < sec) && bool_decide (sec < 10 * Second)
          then Some sec else None
      | None => None
      end in
    match honoured with
    | Some sec => sec
    | None =>
        match time_Parse RFC1123 v with
        | Some t =>
            let d := Time_Sub t wall in
            if bool_decide (0 < d) && bool_decide (d < 10 * Second)
            then d else fallback
        | None => fallback
        end
    end
  else fallback.

(** [temporary]: the error or one it wraps has [Temporary()] true. *)
Fixpoint temporary (chain : list (option bool)) : bool :=
  match chain with
  | [] => false
  | Some true :: _ => true
  | _ :: rest => temporary rest
  end.

Definition isRetryableNetErr (err : goerror) : bool :=
  match err_net err with
  | Some ne =>
      if ne_Timeout ne || temporary (ne_chain ne) then true
      else containsAny (lower (err_msg err))
             ["connection reset"; "broken pipe"; "unexpected eof"; "no such host"]
  | None =>
      containsAny (lower (err_msg err))
        ["connection reset"; "broken pipe"; "unexpected eof"; "no such host"]
  end.
End Helpers.

(** ** The client and its environment *)

Record Client := {
  ua : string;
  baseTimeout : Duration;
  headerExtra : Header;
  bootstrapURL : string;
  ipBootstrapURL : string;
  asnBootstrapURL : string;
  rdapBaseCache : ttlCache.t string;
  respCache : respCache.t;
  maxRetries : Z;
  backoff : Z -> Duration
}.

Definition set_respCache (c : Client) (rc : respCache.t) : Client :=
  {| ua := ua c; baseTimeout := baseTimeout c; headerExtra := headerExtra c;
     bootstrapURL := bootstrapURL c; ipBootstrapURL := ipBootstrapURL c;
     asnBootstrapURL := asnBootstrapURL c; rdapBaseCache := rdapBaseCache c;
     respCache := rc; maxRetries := maxRetries c; backoff := backoff c |}.

Definition set_rdapBaseCache (c : Client) (bc : ttlCache.t string) : Client :=
  {| ua := ua c; baseTimeout := baseTimeout c; headerExtra := headerExtra c;
     bootstrapURL := bootstrapURL c; ipBootstrapURL := ipBootstrapURL c;
     asnBootstrapURL := asnBootstrapURL c; rdapBaseCache := bc;
     respCache := respCache c; maxRetries := maxRetries c; backoff := backoff c |}.

Record Request := {
  req_Method : string;
  req_URL : string;
  req_Header : Header;
  req_deadline : Duration   (* the per-attempt timeout of the request context *)
}.

(** A response body: the bytes the stream delivers, then end of file or a
    read error. *)
Record Body := {
  body_data : string;
  body_err : option goerror
}.

Record Response := {
  StatusCode : Z;
  Status : string;
  resp_Header : Header;
  resp_Body : Body
}.

Fixpoint takeBytes (n : nat) (s : string) : string :=
  match n, s with
  | O, _ => EmptyString
  | S _, EmptyString => EmptyString
  | S n', String c r => String c (takeBytes n' r)
  end.

(** [io.ReadAll(io.LimitReader(body, n))]: the limit hides whatever follows
    the first [n] bytes, an error included. *)
Definition readAllLimit (b : Body) (n : Z) : string * option goerror :=
  if bool_decide (n <= Z.of_nat (String.length (body_data b)))
  then (takeBytes (Z.to_nat n) (body_data b), None)
  else (body_data b, body_err b).

(** The world outside the client, as a state machine: the transport [hc],
    the timer raced against the caller's context, and the clocks. *)
Class World (W : Type) := {
  (** [c.hc.Do(req)] *)
  hc_Do : W -> Request -> (goerror + Response) * W;
  (** [select] between [<-time.After(d)] and [<-ctx.Done()]: [Some e] when
      the context is done first, [e] being [ctx.Err()]. *)
  sleepOrDone : W -> Duration -> option goerror * W;
  (** the reading of the response cache's clock, of the base cache's clock,
      and of [time.Now()] *)
  respNow : W -> Time;
  baseNow : W -> Time;
  time_Now : W -> Time;
  (** whether [http.NewRequestWithContext] accepts the URL; the package
      drops its error and a nil request panics at the first use *)
  validURL : W -> string -> bool
}.

Definition StatusOK : Z := 200.
Definition StatusNotModified : Z := 304.
Definition StatusNotFound : Z := 404.
Definition StatusTooManyRequests : Z := 429.
Definition StatusInternalServerError : Z := 500.
Definition StatusBadGateway : Z := 502.
Definition StatusServiceUnavailable : Z := 503.
Definition StatusGatewayTimeout : Z := 504.

(** ** The fetch engine (http_request.go) *)

Record loopState := {
  attempt : Z;
  useValidators : bool;
  didUnconditional : bool
}.

(** How one pass through the body of the [for] loop ends. *)
Inductive passEnd :=
| Continue (useValidators' didUnconditional' : bool)
| Return (r : goerror + (jsonMap * Header)).

Section Fetch.
Context {rt : Runtime} {W : Type} {world : World W}.

Definition validatorHeaders (h : Header) (rc : respCache.t) (u : string) : Header :=
  match respCache.Meta rc u with
  | Some m =>
      let h1 := if bool_decide (ETag m ≠ EmptyString)
                then Header_Set h "If-None-Match" (ETag m) else h in
      if negb (Time_IsZero (LastModified m))
      then Header_Set h1 "If-Modified-Since" (time_Format TimeFormat (LastModified m))
      else h1
  | None => h
  end.

Definition buildRequest (c : Client) (u : string) (useV : bool) : Request :=
  let h0 := Header_Set ∅ "Accept"
              "application/rdap+json, application/json;q=0.8, */*;q=0.1" in
  let h1 := Header_Set h0 "User-Agent" (ua c) in
  let h2 := copyHeaders h1 (headerExtra c) in
  let h3 := if useV then validatorHeaders h2 (respCache c) u else h2 in
  {| req_Method := "GET"; req_URL := u; req_Header := h3;
     req_deadline := baseTimeout c |}.

Definition isRetryStatus (code : Z) : bool :=
  bool_decide (code = StatusTooManyRequests)
  || bool_decide (code = StatusServiceUnavailable)
  || bool_decide (code = StatusBadGateway)
  || bool_decide (code = StatusGatewayTimeout)
  || bool_decide (code = StatusInternalServerError).

(** The cached body of the 304 branch, when there is one and it
    decodes. *)
Definition cachedDecoded (c : Client) (u : string) : option jsonMap :=
  let b := respCache.FreshBody (respCache c) u in
  if bool_decide (b ≠ EmptyString) then
    match json_Unmarshal b with
    | inr m => Some m
    | inl _ => None
    end
  else None.

(** The [switch resp.StatusCode] of the loop body. *)
Definition onResponse (c : Client) (w : W) (u : string) (st : loopState)
    (resp : Response) : option (passEnd * Client * W) :=
  if bool_decide (StatusCode resp = StatusNotModified) then
    match cachedDecoded c u with
    | Some m =>
        let rc := respCache.UpdateFreshness (respNow w) (respCache c) u
                    (resp_Header resp) in
        Some (Return (inr (m, resp_Header resp)), set_respCache c rc, w)
    | None =>
        if negb (didUnconditional st) then Some (Continue false true, c, w)
        else Some (Return (inl (errors_New
                    ("rdap GET " +:+ u +:+ ": 304 but no cached body"))), c, w)
    end
  else if bool_decide (StatusCode resp = StatusOK) then
    match readAllLimit (resp_Body resp) (2 ^ 20) with
    | (_, Some err) => Some (Return (inl err), c, w)
    | (b, None) =>
        match json_Unmarshal b with
        | inl err => Some (Return (inl err), c, w)
        | inr m =>
            rc ← respCache.Store (respNow w) (respCache c) u b (resp_Header resp);
            Some (Return (inr (m, resp_Header resp)), set_respCache c rc, w)
        end
    end
  else if isRetryStatus (StatusCode resp) then
    let wait := retryAfter (time_Now w) (resp_Header resp) (backoff c (attempt st)) in
    if bool_decide (attempt st <= maxRetries c) then
      match sleepOrDone w wait with
      | (None, w') =>
          Some (Continue (useValidators st) (didUnconditional st), c, w')
      | (Some cerr, w') => Some (Return (inl cerr), c, w')
      end
    else Some (Return (inl (errors_New
                ("rdap GET " +:+ u +:+ ": " +:+ Status resp))), c, w)
  else
    let b := fst (readAllLimit (resp_Body resp) (512 * 2 ^ 10)) in
    let c' := if bool_decide (StatusCode resp = StatusNotFound)
              then set_respCache c
                     (respCache.StoreNegative (respNow w) (respCache c) u (5 * Minute))
              else c in
    Some (Return (inl (errors_New
            ("rdap GET " +:+ u +:+ ": " +:+ Status resp +:+ ": " +:+ b))), c', w).

(** One pass through the loop body; [None] is a panic. *)
Definition loopBody (c : Client) (w : W) (u : string) (st : loopState)
  : option (passEnd * Client * W) :=
  if negb (validURL w u) then None
  else
    match hc_Do w (buildRequest c u (useValidators st)) with
    | (inl err, w1) =>
        if bool_decide (attempt st <= maxRetries c) && isRetryableNetErr err then
          match sleepOrDone w1 (backoff c (attempt st)) with
          | (None, w2) =>
              Some (Continue (useValidators st) (didUnconditional st), c, w2)
          | (Some cerr, w2) => Some (Return (inl cerr), c, w2)
          end
        else Some (Return (inl err), c, w1)
    | (inr resp, w1) => onResponse c w1 u st resp
    end.

(** One iteration of [for attempt := 1; ; attempt++ { ... }]: the body,
    and after a [continue] the post statement [attempt++]. *)
Definition loopStep (c : Client) (w : W) (u : string) (st : loopState)
  : option ((loopState + (goerror + (jsonMap * Header))) * Client * W) :=
  '(e, c', w') ← loopBody c w u st;
  match e with
  | Continue uv du =>
      Some (inl {| attempt := int_add (attempt st) 1;
                   useValidators := uv; didUnconditional := du |}, c', w')
  | Return r => Some (inr r, c', w')
  end.

(** The loop, for at most [fuel] iterations; [None] is a panic or the end
    of the fuel. *)
Fixpoint loop (fuel : nat) (c : Client) (w : W) (u : string) (st : loopState)
  : option ((goerror + (jsonMap * Header)) * Client * W) :=
  match fuel with
  | O => None
  | S fuel' =>
      '(e, c', w') ← loopStep c w u st;
      match e with
      | inl st' => loop fuel' c' w' u st'
      | inr r => Some (r, c', w')
      end
  end.

Definition getJSON (fuel : nat) (c : Client) (w : W) (u : string)
  : option ((goerror + (jsonMap * Header)) * Client * W) :=
  let '(hit, rc) := respCache.Get (respNow w) (respCache c) u in
  let c0 := set_respCache c rc in
  let st0 := {| attempt := 1; useValidators := true; didUnconditional := false |} in
  match hit with
  | Some b =>
      match json_Unmarshal b with
      | inr m => Some (inr (m, ∅), c0, w)
      | inl _ => loop fuel c0 w u st0
      end
  | None => loop fuel c0 w u st0
  end.
End Fetch.

(** ** Bootstrap resolution for IP space *)

Definition strings_HasSuffix (s suffix : string) : bool :=
  strings_HasPrefix (string_rev s) (string_rev suffix).

Definition fallbackBase : string := "https://rdap.org".

Section Bootstrap.
Context {rt : Runtime} {W : Type} {world : World W}.

(** [fetchBootstrapGeneric]; [None] is the panic on a nil request. *)
Definition fetchBootstrapGeneric (c : Client) (w : W) (u : string)
  : option ((goerror + bootstrapServices) * Client * W) :=
  if negb (validURL w u) then None
  else
    let h1 := Header_Set ∅ "User-Agent" (ua c) in
    let h2 := copyHeaders h1 (headerExtra c) in
    let h3 := validatorHeaders h2 (respCache c) u in
    let req := {| req_Method := "GET"; req_URL := u; req_Header := h3;
                  req_deadline := baseTimeout c |} in
    match hc_Do w req with
    | (inl err, w1) => Some (inl err, c, w1)
    | (inr resp, w1) =>
        if bool_decide (StatusCode resp = StatusNotModified) then
          Some (inl (errors_New "bootstrap 304 Not Modified (no cached body)"), c, w1)
        else if bool_decide (StatusCode resp = StatusOK) then
          match readAllLimit (resp_Body resp) (2 * 2 ^ 20) with
          | (_, Some err) => Some (inl err, c, w1)
          | (b, None) =>
              match json_Unmarshal_bootstrap b with
              | inl err =>
                  Some (inl {| err_msg := "parse bootstrap: " +:+ err_msg err;
                               err_net := err_net err |}, c, w1)
              | inr bs =>
                  let rc := respCache.StoreMeta (respNow w1) (respCache c) u
                              (resp_Header resp) in
                  Some (inr bs, set_respCache c rc, w1)
              end
          end
        else
          Some (inl (errors_New ("bootstrap fetch failed: " +:+ Status resp)), c, w1)
    end.

(** The inner loop of [resolveBaseFromBootstrapIP] over the CIDR strings of
    one service entry, threading [(bestBase, bestMask)]. *)
Fixpoint scanCIDRs (addr : Addr) (is6 : bool) (base : string)
    (cidrs : list string) (best : string * Z) : string * Z :=
  match cidrs with
  | [] => best
  | raw :: rest =>
      match netip_ParsePrefix (strings_TrimSpace raw) with
      | inl _ => scanCIDRs addr is6 base rest best
      | inr pfx =>
          if negb (eqb (Addr_Is6 (Prefix_Addr pfx)) is6)
          then scanCIDRs addr is6 base rest best
          else if Prefix_Contains pfx addr then
            let ones := Prefix_Bits pfx in
            if bool_decide (ones > snd best)
            then scanCIDRs addr is6 base rest (base, ones)
            else scanCIDRs addr is6 base rest best
          else scanCIDRs addr is6 base rest best
      end
  end.

(** The outer loop over [bs.Services]. *)
Fixpoint scanServices (addr : Addr) (is6 : bool) (svcs : list (list any))
    (best : string * Z) : string * Z :=
  match svcs with
  | [] => best
  | svc :: rest =>
      match svc with
      | [ks; us] =>
          match toStringSlice us with
          | [] => scanServices addr is6 rest best
          | u0 :: _ =>
              scanServices addr is6 rest
                (scanCIDRs addr is6 (strings_TrimRight u0 "/"%char)
                   (toStringSlice ks) best)
          end
      | _ => scanServices addr is6 rest best
      end
  end.

(** The choice the loops make between the best so far and a match:
    [if ones > bestMask { bestMask = ones; bestBase = base }]. *)
Definition pick (best x : string * Z) : string * Z :=
  if bool_decide (snd x > snd best) then x else best.

(** The matches of an address in the order the loops meet them: for each
    CIDR string of a service entry that parses to a prefix of the family
    of the address and contains the address, the stripped first URL of the
    entry and the prefix length. *)
Definition cidrMatches (addr : Addr) (is6 : bool) (base : string)
    (cidrs : list string) : list (string * Z) :=
  omap (fun raw =>
          match netip_ParsePrefix (strings_TrimSpace raw) with
          | inr pfx =>
              if eqb (Addr_Is6 (Prefix_Addr pfx)) is6 && Prefix_Contains pfx addr
              then Some (base, Prefix_Bits pfx) else None
          | inl _ => None
          end) cidrs.

Definition serviceMatches (addr : Addr) (is6 : bool) (svc : list any)
  : list (string * Z) :=
  match svc with
  | [ks; us] =>
      match toStringSlice us with
      | [] => []
      | u0 :: _ =>
          cidrMatches addr is6 (strings_TrimRight u0 "/"%char) (toStringSlice ks)
      end
  | _ => []
  end.

Definition matches (addr : Addr) (is6 : bool) (svcs : list (list any))
  : list (string * Z) :=
  flat_map (serviceMatches addr is6) svcs.

(** "Normalize to an address we can test containment with". *)
Definition normalizeAddr (ipOrCIDR : string) : goerror + Addr :=
  match netip_ParsePrefix ipOrCIDR with
  | inr p => inr (Prefix_Addr p)
  | inl _ => netip_ParseAddr ipOrCIDR
  end.

(** "Select file". *)
Definition selectFile (configured : string) (is6 : bool) : string :=
  let u1 := if is6 && strings_HasSuffix configured "/ipv4.json"
            then "https://data.iana.org/rdap/ipv6.json"%string else configured in
  if negb is6 && strings_HasSuffix u1 "/ipv6.json"
  then "https://data.iana.org/rdap/ipv4.json"%string else u1.

Definition ipKey (addr : Addr) : string := "ip:" +:+ Addr_String addr.

Definition resolveBaseFromBootstrapIP (c : Client) (w : W) (ipOrCIDR : string)
  : option ((goerror + string) * Client * W) :=
  match normalizeAddr ipOrCIDR with
  | inl err => Some (inl err, c, w)
  | inr addr =>
      let is6 := Addr_Is6 addr in
      let bootstrapURL := selectFile (ipBootstrapURL c) is6 in
      let key := ipKey addr in
      match ttlCache.Get (baseNow w) (rdapBaseCache c) key with
      | (Some base, bc) => Some (inr base, set_rdapBaseCache c bc, w)
      | (None, bc) =>
          '(r, c1, w1) ← fetchBootstrapGeneric (set_rdapBaseCache c bc) w bootstrapURL;
          match r with
          | inl _ => Some (inr fallbackBase, c1, w1)
          | inr bs =>
              let best := scanServices addr is6 (Services bs) (EmptyString, -1) in
              if bool_decide (fst best ≠ EmptyString) then
                bc' ← ttlCache.Set_ (baseNow w1) (rdapBaseCache c1) key (fst best);
                Some (inr (fst best), set_rdapBaseCache c1 bc', w1)
              else Some (inr fallbackBase, c1, w1)
          end
      end
  end.
End Bootstrap.

(** ** The object decoder *)

(** [GetObjectClassName], through the embedded [CommonObject]. *)
Definition GetObjectClassName (o : Object) : string :=
  match o with
  | ObjEntity v => ObjectClassName (Entity_Common v)
  | ObjDomain v => ObjectClassName (Domain_Common v)
  | ObjNameserver v => ObjectClassName (Nameserver_Common v)
  | ObjIPNetwork v => ObjectClassName (IPNetwork_Common v)
  | ObjAutnum v => ObjectClassName (Autnum_Common v)
  end.

(** The canonical class name of each variant. *)
Definition canonicalName (o : Object) : string :=
  match o with
  | ObjEntity _ => "entity"
  | ObjDomain _ => "domain"
  | ObjNameserver _ => "nameserver"
  | ObjIPNetwork _ => "ip network"
  | ObjAutnum _ => "autnum"
  end.

Definition canonicalNames : list string :=
  ["entity"; "domain"; "nameserver"; "ip network"; "autnum"]%string.

Section Decoder.
Context {rt : Runtime}.

Definition Entity_Validate (e : Entity) : bool :=
  bool_decide (lower (ObjectClassName (Entity_Common e)) = "entity"%string).
Definition Domain_Validate (d : Domain) : bool :=
  bool_decide (lower (ObjectClassName (Domain_Common d)) = "domain"%string).
Definition Nameserver_Validate (n : Nameserver) : bool :=
  bool_decide (lower (ObjectClassName (Nameserver_Common n)) = "nameserver"%string).
Definition IPNetwork_Validate (i : IPNetwork) : bool :=
  bool_decide (lower (ObjectClassName (IPNetwork_Common i)) = "ip network"%string).
Definition Autnum_Validate (a : Autnum) : bool :=
  bool_decide (lower (ObjectClassName (Autnum_Common a)) = "autnum"%string).

(** [decodeInto]: marshal the map, unmarshal into the typed value. *)
Definition decodeInto {V : Type} (unmarshal : string -> goerror + V)
    (m : gmap string any) : goerror + V :=
  match json_Marshal (Some m) with
  | inl err => inl err
  | inr b => unmarshal b
  end.

(** One [case] of the switch: decode, validate, wrap. *)
Definition decodeCase {V : Type} (unmarshal : string -> goerror + V)
    (validate : V -> bool) (wrap : V -> Object) (class : string)
    (m : gmap string any) : goerror + Object :=
  match decodeInto unmarshal m with
  | inl err => inl err
  | inr v =>
      if validate v then inr (wrap v)
      else inl (errors_New ("invalid " +:+ class +:+ " objectClassName"))
  end.

(** [m["objectClassName"].(string)] with the comma-ok form. *)
Definition classNameOf (m : gmap string any) : string :=
  match m !! "objectClassName"%string with
  | Some (JString s) => s
  | _ => EmptyString
  end.

Definition ParseObject (m : jsonMap) : goerror + Object :=
  match m with
  | None => inl (errors_New "nil RDAP object")
  | Some mm =>
      let ocn := classNameOf mm in
      let l := lower ocn in
      if bool_decide (l = "entity"%string) then
        decodeCase json_Unmarshal_Entity Entity_Validate ObjEntity "entity" mm
      else if bool_decide (l = "domain"%string) then
        decodeCase json_Unmarshal_Domain Domain_Validate ObjDomain "domain" mm
      else if bool_decide (l = "nameserver"%string) then
        decodeCase json_Unmarshal_Nameserver Nameserver_Validate ObjNameserver
          "nameserver" mm
      else if bool_decide (l = "ip network"%string) then
        decodeCase json_Unmarshal_IPNetwork IPNetwork_Validate ObjIPNetwork
          "ip network" mm
      else if bool_decide (l = "autnum"%string) then
        decodeCase json_Unmarshal_Autnum Autnum_Validate ObjAutnum "autnum" mm
      else inl (errors_New ("unknown RDAP objectClassName: " +:+ ocn))
  end.
End Decoder.

(** ** A runtime and a world for the worked examples

    [exampleRuntime] answers as Go's library does on the inputs the worked
    examples use (ASCII text, three HTTP dates, whole seconds, dotted-quad
    IPv4 literals, two JSON documents) and reports an error elsewhere. *)

Module Example.

Definition q : string := String (byte_of 34) EmptyString.
Definition quoted (s : string) : string := q +:+ s +:+ q.

(** 2025-03-03 12:00:00 UTC, in nanoseconds from the zero [Time]. *)
Definition noon : Time := 63876600000 * Second.

Definition parseDate (s : string) : option Time :=
  if bool_decide (s = "Mon, 03 Mar 2025 12:00:05 GMT"%string) then Some (noon + 5 * Second)
  else if bool_decide (s = "Mon, 03 Mar 2025 12:01:30 GMT"%string) then Some (noon + 90 * Second)
  else if bool_decide (s = "Mon, 03 Mar 2025 11:59:30 GMT"%string) then Some (noon - 30 * Second)
  else None.

Definition formatDate (t : Time) : string :=
  if bool_decide (t = noon + 5 * Second) then "Mon, 03 Mar 2025 12:00:05 GMT"
  else if bool_decide (t = noon + 90 * Second) then "Mon, 03 Mar 2025 12:01:30 GMT"
  else if bool_decide (t = noon - 30 * Second) then "Mon, 03 Mar 2025 11:59:30 GMT"
  else "Mon, 01 Jan 0001 00:00:00 GMT".

(** Whole seconds: digits followed by [s]. *)
Definition parseSeconds (s : string) : option Duration :=
  match string_rev s with
  | String "s" r =>
      let ds := string_rev r in
      match ds with
      | EmptyString => None
      | _ =>
          if allDigits ds && bool_decide (digitsValue 0 ds * Second <= int64_max)
          then Some (digitsValue 0 ds * Second) else None
      end
  | _ => None
  end.

(** The document [{"objectClassName":"<class>"}]. *)
Definition classDoc (class : string) : string :=
  "{" +:+ quoted "objectClassName" +:+ ":" +:+ quoted class +:+ "}".

Definition plainName (s : string) : bool :=
  allBytes (fun c => isUpper c || isLower c || bool_decide (c = " "%char)) s.

(** The class name of a document of that shape. *)
Definition docClass (b : string) : option string :=
  let pre := "{" +:+ quoted "objectClassName" +:+ ":" +:+ q in
  if strings_HasPrefix b pre && strings_HasSuffix b (q +:+ "}") then
    let rest := dropBytes (String.length pre) b in
    let name := takeBytes (String.length rest - 2) rest in
    if plainName name then Some name else None
  else None.

Definition syntaxError : goerror := errors_New "invalid character".

Definition unmarshalMap (b : string) : goerror + jsonMap :=
  if bool_decide (b = "null"%string) then inr None
  else match docClass b with
       | Some name => inr (Some {[ "objectClassName"%string := JString name ]})
       | None => inl syntaxError
       end.

Definition marshalMap (m : jsonMap) : goerror + string :=
  match m with
  | None => inr "null"%string
  | Some mm =>
      match mm !! "objectClassName"%string with
      | Some (JString name) =>
          if bool_decide (size mm = 1%nat) && plainName name
          then inr (classDoc name)
          else inl (errors_New "json: unsupported value")
      | _ =>
          if bool_decide (size mm = 0%nat) then inr "{}"%string
          else inl (errors_New "json: unsupported value")
      end
  end.

Definition commonOf (b : string) : goerror + CommonObject :=
  if bool_decide (b = "{}"%string)
  then inr {| ObjectClassName := EmptyString; commonMembers := ∅ |}
  else match docClass b with
       | Some name => inr {| ObjectClassName := name; commonMembers := ∅ |}
       | None => inl syntaxError
       end.

Definition unmarshalAs {V : Type} (mk : CommonObject -> gmap string any -> V)
    (b : string) : goerror + V :=
  match commonOf b with
  | inl e => inl e
  | inr co => inr (mk co ∅)
  end.

(** The bootstrap document of the longest-prefix example. *)
Definition bootstrapDoc : string :=
  "{" +:+ quoted "services" +:+ ":[[[" +:+ quoted "10.0.0.0/8" +:+ "],["
      +:+ quoted "https://a.example/" +:+ "]],[[" +:+ quoted "10.1.0.0/16"
      +:+ "],[" +:+ quoted "https://b.example/rdap/" +:+ "]]]}".

Definition bootstrapValue : bootstrapServices :=
  {| Services :=
       [ [JArray [JString "10.0.0.0/8"]; JArray [JString "https://a.example/"]];
         [JArray [JString "10.1.0.0/16"]; JArray [JString "https://b.example/rdap/"]] ] |}.

Definition unmarshalBootstrap (b : string) : goerror + bootstrapServices :=
  if bool_decide (b = bootstrapDoc) then inr bootstrapValue else inl syntaxError.

(** [parseIPv4Fields]: four decimal octets, no leading zero, each at
    most 255. *)
Fixpoint ipv4Fields (s : string) (first prevDot : bool)
    (octet digLen pos acc : Z) : option Z :=
  match s with
  | EmptyString => if bool_decide (pos < 3) then None else Some (acc * 256 + octet)
  | String c r =>
      if isDigit c then
        if bool_decide (digLen = 1) && bool_decide (octet = 0) then None
        else
          let v := octet * 10 + (byte_val c - 48) in
          if bool_decide (v > 255) then None
          else ipv4Fields r false false v (digLen + 1) pos acc
      else if bool_decide (c = "."%char) then
        if first || bool_decide (r = EmptyString) || prevDot then None
        else if bool_decide (pos = 3) then None
        else ipv4Fields r false true 0 0 (pos + 1) (acc * 256 + octet)
      else None
  end.

Definition addrError : goerror := errors_New "unable to parse IP".

Definition parseAddr (s : string) : goerror + Addr :=
  if strings_Contains s ":" || strings_Contains s "%" then inl addrError
  else match ipv4Fields s true false 0 0 0 0 with
       | Some v => inr {| addr_is6 := false; addr_val := v; addr_zone := EmptyString |}
       | None => inl addrError
       end.

(** The text before and after the last [/]. *)
Fixpoint cutFirst (c : ascii) (s : string) (acc : string) : option (string * string) :=
  match s with
  | EmptyString => None
  | String a r =>
      if bool_decide (a = c) then Some (acc, r)
      else cutFirst c r (acc +:+ String a EmptyString)
  end.

Definition cutLast (c : ascii) (s : string) : option (string * string) :=
  match cutFirst c (string_rev s) EmptyString with
  | Some (after, before) => Some (string_rev before, string_rev after)
  | None => None
  end.

Definition parsePrefix (s : string) : goerror + Prefix :=
  match cutLast "/"%char s with
  | None => inl (errors_New "netip.ParsePrefix: no '/'")
  | Some (ipStr, bitsStr) =>
      match parseAddr ipStr with
      | inl e => inl e
      | inr ip =>
          let badLead :=
            match bitsStr with
            | String c (String _ _) => negb (bool_decide (49 <= byte_val c <= 57))
            | _ => false
            end in
          if badLead then inl (errors_New "netip.ParsePrefix: bad bits after slash")
          else match strconv_Atoi bitsStr with
               | Some bits =>
                   if bool_decide (0 <= bits <= Addr_BitLen ip)
                   then inr {| pfx_addr := ip; pfx_bits := Z.to_nat bits |}
                   else inl (errors_New "netip.ParsePrefix: prefix length out of range")
               | None => inl (errors_New "netip.ParsePrefix: bad bits after slash")
               end
      end
  end.

Fixpoint decimal (fuel : nat) (n : Z) (acc : string) : string :=
  match fuel with
  | O => acc
  | S fuel' =>
      let acc' := String (byte_of (48 + n mod 10)) acc in
      if bool_decide (n < 10) then acc' else decimal fuel' (n / 10) acc'
  end.

Definition octetAt (v : Z) (i : Z) : string :=
  decimal 3 (Z.shiftr v (8 * i) mod 256) EmptyString.

Definition addrString (a : Addr) : string :=
  if addr_is6 a then "::"%string
  else octetAt (addr_val a) 3 +:+ "." +:+ octetAt (addr_val a) 2 +:+ "."
       +:+ octetAt (addr_val a) 1 +:+ "." +:+ octetAt (addr_val a) 0.

Definition exampleRuntime : Runtime :=
  {| unicode_ToLower := fun s => s;
     unicode_TrimFunc_IsSpace := fun s => s;
     unicode_TrimRightFunc_IsSpace := fun s => s;
     time_Parse := fun _ s => parseDate s;
     time_Format := fun _ t => formatDate t;
     time_ParseDuration := parseSeconds;
     json_Unmarshal := unmarshalMap;
     json_Unmarshal_bootstrap := unmarshalBootstrap;
     json_Marshal := marshalMap;
     json_Unmarshal_Entity := unmarshalAs Build_Entity;
     json_Unmarshal_Domain := unmarshalAs Build_Domain;
     json_Unmarshal_Nameserver := unmarshalAs Build_Nameserver;
     json_Unmarshal_IPNetwork := unmarshalAs Build_IPNetwork;
     json_Unmarshal_Autnum := unmarshalAs Build_Autnum;
     netip_ParsePrefix := parsePrefix;
     netip_ParseAddr := parseAddr;
     Addr_String := addrString |}.

(** A scripted world: the transport answers the [n]-th request with the
    [n]-th handler and records what was sent; a sleep always runs to its
    end and moves the one clock every reader shares. *)
Record scripted := {
  script : list (Request -> goerror + Response);
  sent : list Request;
  clock : Time
}.

Definition scriptedDo (w : scripted) (req : Request)
  : (goerror + Response) * scripted :=
  match script w with
  | f :: rest =>
      (f req, {| script := rest; sent := sent w ++ [req]; clock := clock w |})
  | [] =>
      (inl (errors_New "connection refused"),
       {| script := []; sent := sent w ++ [req]; clock := clock w |})
  end.

Definition scriptedSleep (w : scripted) (d : Duration) : option goerror * scripted :=
  (None, {| script := script w; sent := sent w; clock := clock w + d |}).

Definition scriptedWorld : World scripted :=
  {| hc_Do := scriptedDo;
     sleepOrDone := scriptedSleep;
     respNow := clock;
     baseNow := clock;
     time_Now := clock;
     validURL := fun _ u => negb (bool_decide (u = EmptyString)) |}.

Definition response (code : Z) (status : string) (h : Header) (b : string)
  : Response :=
  {| StatusCode := code; Status := status; resp_Header := h;
     resp_Body := {| body_data := b; body_err := None |} |}.

Definition respond (code : Z) (status : string) (h : Header) (b : string)
  : Request -> goerror + Response :=
  fun _ => inr (response code status h b).

(** The client [New()] builds, with an empty response cache of capacity
    512 and an empty base cache of capacity 64. *)
Definition newClient (retries : Z) : Client :=
  {| ua := "rdapclient/0.1 (+https://example.invalid)";
     baseTimeout := 10 * Second;
     headerExtra := ∅;
     bootstrapURL := "https://data.iana.org/rdap/dns.json";
     ipBootstrapURL := "https://data.iana.org/rdap/ipv4.json";
     asnBootstrapURL := "https://data.iana.org/rdap/asn.json";
     rdapBaseCache := ttlCache.newTTLCache (6 * 60 * Minute) 64;
     respCache := respCache.newRespCache 512 (10 * Minute);
     maxRetries := retries;
     backoff := fun n => Z.min (200 * 1000000 * 2 ^ Z.max 0 (n - 1)) (2 * Second) |}.

Definition exampleURL : string := "https://rdap.example/domain/example.com".

(** A server that answers 304, then 503, then 200 with a domain. *)
Definition world_304_503_200 : scripted :=
  {| script := [ respond 304 "304 Not Modified" ∅ EmptyString;
                 respond 503 "503 Service Unavailable" ∅ EmptyString;
                 respond 200 "200 OK" ∅ (classDoc "domain") ];
     sent := []; clock := noon |}.

(** A server that answers 304 whatever it is sent. *)
Definition world_304_304 : scripted :=
  {| script := [ respond 304 "304 Not Modified" ∅ EmptyString;
                 respond 304 "304 Not Modified" ∅ EmptyString ];
     sent := []; clock := noon |}.

(** A server that answers with the bootstrap document. *)
Definition world_bootstrap : scripted :=
  {| script := [ respond 200 "200 OK" ∅ bootstrapDoc ];
     sent := []; clock := noon |}.

(** A server that answers 404. *)
Definition world_404 : scripted :=
  {| script := [ respond 404 "404 Not Found" ∅ "not found" ];
     sent := []; clock := noon |}.

(** The state in which the loop of [getJSON] starts. *)
Definition firstPass : loopState :=
  {| attempt := 1; useValidators := true; didUnconditional := false |}.

(** A response cache in which the entry of [u], stored at noon with
    validator [v1], was made negative for an hour at noon. *)
Definition negativeCache : respCache.t :=
  {| respCache.cap := 2;
     respCache.ll :=
       [ {| url := "u"; body := "{}";
            meta := {| ETag := "v1"; LastModified := zeroTime;
                       expiresAt := noon + 10 * Minute;
                       negUntil := noon + 60 * Minute |} |} ];
     respCache.defTTL := 10 * Minute |}.

(** A response cache of capacity 1 that holds one fresh entry. *)
Definition fullCache : respCache.t :=
  {| respCache.cap := 1;
     respCache.ll :=
       [ {| url := "x"; body := "X";
            meta := {| ETag := EmptyString; LastModified := zeroTime;
                       expiresAt := noon + 10 * Minute; negUntil := zeroTime |} |} ];
     respCache.defTTL := 10 * Minute |}.

End Example.

(** * More of the package

    The remaining functions of the files above, their callers and what
    they call. *)

(** ** More of strings, strconv and fmt *)

Definition strings_TrimSuffix (s suffix : string) : string :=
  if strings_HasSuffix s suffix
  then takeBytes (String.length s - String.length suffix) s
  else s.

(** [strings.IndexByte]: the index of the first [c], if any. *)
Fixpoint strings_IndexByte (s : string) (c : ascii) : option nat :=
  match s with
  | EmptyString => None
  | String a r =>
      if bool_decide (a = c) then Some O
      else S <$> strings_IndexByte r c
  end.

Definition uint64_max : Z := 2 ^ 64 - 1.

(** What [strconv.ParseUint(s, 10, 64)] reports. *)
Inductive parseUintResult :=
| UintOk (v : Z)
| UintSyntax     (* empty, or a byte that is not a digit is met *)
| UintRange.     (* the digits read so far go beyond 64 bits *)

(** The loop of [ParseUint] over the bytes, from the left, with [n] the
    value read so far: a byte that is not a decimal digit ends it with the
    syntax error; otherwise [n >= cutoff], or a sum [n*10 + d] that wraps,
    ends it with the range error.  Whichever is met first decides. *)
Fixpoint parseUintLoop (s : string) (n : Z) : parseUintResult :=
  match s with
  | EmptyString => UintOk n
  | String c r =>
      if isDigit c then
        if bool_decide (n >= uint64_max / 10 + 1) then UintRange
        else
          let n10 := n * 10 in
          let n1 := (n10 + (byte_val c - 48)) mod 2 ^ 64 in
          if bool_decide (n1 < n10) || bool_decide (n1 > uint64_max) then UintRange
          else parseUintLoop r n1
      else UintSyntax
  end.

Definition strconv_ParseUint (s : string) : parseUintResult :=
  if bool_decide (s = EmptyString) then UintSyntax else parseUintLoop s 0.

(** The verb [%d] on an unsigned 64-bit value (at most twenty digits). *)
Fixpoint decimalDigits (fuel : nat) (n : Z) (acc : string) : string :=
  match fuel with
  | O => acc
  | S fuel' =>
      let acc' := String (byte_of (48 + n mod 10)) acc in
      if bool_decide (n < 10) then acc' else decimalDigits fuel' (n / 10) acc'
  end.

Definition fmt_d (n : Z) : string := decimalDigits 20 n EmptyString.

(** [net/url], [path], the verb [%q] and the Unicode path of
    [strings.ToUpper], as the standard library defines them. *)
Class UrlRuntime := {
  URL : Type;
  (** [url.Parse]; [None] is an error, with a nil [*URL]. *)
  url_Parse : string -> option URL;
  URL_Path : URL -> string;
  (** the URL after the assignment [u.Path = p] *)
  URL_setPath : URL -> string -> URL;
  URL_String : URL -> string;
  path_Join : string -> string -> string;
  fmt_q : string -> string;
  unicode_ToUpper : string -> string
}.

Section MoreStrings.
Context {rt : Runtime} {ur : UrlRuntime}.

(** [strings.ToUpper]: ASCII strings are mapped byte by byte. *)
Definition strings_ToUpper (s : string) : string :=
  if isASCII s then mapBytes upperByte s else unicode_ToUpper s.

(** The [*strconv.NumError] of [ParseUint]. *)
Definition numError (s : string) (range : bool) : goerror :=
  errors_New ("strconv.ParseUint: parsing " +:+ fmt_q s +:+ ": "
              +:+ (if range then "value out of range" else "invalid syntax")).

(** [lastLabel]; [strings.Split] never returns an empty slice here, the
    test on its length is kept as written. *)
Definition lastLabel (domain : string) : string :=
  let parts := strings_Split (strings_TrimSuffix domain ".") "."%char in
  match parts with
  | [] => EmptyString
  | _ :: _ => strings_ToLower (List.last parts EmptyString)
  end.

(** [mustJoin]; [None] is the nil dereference after [url.Parse] fails. *)
Definition mustJoin (base p1 : string) (more : list string) : option string :=
  u ← url_Parse base;
  let u1 := URL_setPath u (path_Join (URL_Path u) p1) in
  Some (URL_String
          (foldl (fun v m => URL_setPath v (path_Join (URL_Path v) m)) u1 more)).
End MoreStrings.

(** [looksLikeEntityHandle].  The loop ranges over runes and tests them
    against ASCII ranges only; a byte below 128 is a rune of its own and a
    byte from 128 on never lies inside such a range, so the loop over bytes
    sets the two flags alike. *)
Fixpoint scanHandle (s : string) (hasAlpha hasDigit : bool) : bool * bool :=
  match s with
  | EmptyString => (hasAlpha, hasDigit)
  | String r rest =>
      scanHandle rest
        (if isUpper r || isLower r then true else hasAlpha)
        (if isDigit r then true else hasDigit)
  end.

Definition looksLikeEntityHandle (s : string) : bool :=
  if strings_Contains s "-" then true
  else let '(hasAlpha, hasDigit) := scanHandle s false false in
       hasAlpha && hasDigit.

(** ** Options *)

(** [WithCacheSizes], applied to a client; [None] is a panic of
    [respCache.Resize]. *)
Definition WithCacheSizes (tldCap entityCap : Z) (c : Client) : option Client :=
  let c1 := if bool_decide (tldCap > 0)
            then set_rdapBaseCache c (ttlCache.Resize (rdapBaseCache c) tldCap)
            else c in
  if bool_decide (entityCap > 0) then
    rc ← respCache.Resize (respCache c1) entityCap;
    Some (set_respCache c1 rc)
  else Some c1.

(** ** Bootstrap resolution for AS numbers and for DNS *)

Section MoreBootstrap.
Context {rt : Runtime} {ur : UrlRuntime} {W : Type} {world : World W}.

(** [parseASNRange]; [None] is [ok == false]. *)
Definition parseASNRange (s0 : string) : option (Z * Z) :=
  let s := strings_TrimSpace s0 in
  if bool_decide (s = EmptyString) then None
  else match strings_IndexByte s "-"%char with
       | Some i =>
           match strconv_ParseUint (strings_TrimSpace (takeBytes i s)),
                 strconv_ParseUint (strings_TrimSpace (dropBytes (S i) s)) with
           | UintOk lo, UintOk hi =>
               if bool_decide (hi < lo) then None else Some (lo, hi)
           | _, _ => None
           end
       | None =>
           match strconv_ParseUint s with
           | UintOk x => Some (x, x)
           | _ => None
           end
       end.

(** The inner loop of [resolveBaseFromBootstrapASN]: whether some range of
    the entry holds the number. *)
Fixpoint rangesHold (asn : Z) (ranges : list string) : bool :=
  match ranges with
  | [] => false
  | r :: rest =>
      match parseASNRange r with
      | Some (lo, hi) =>
          if bool_decide (lo <= asn) && bool_decide (asn <= hi) then true
          else rangesHold asn rest
      | None => rangesHold asn rest
      end
  end.

(** The outer loop: the base at which it returns, if it does. *)
Fixpoint scanASN (asn : Z) (svcs : list (list any)) : option string :=
  match svcs with
  | [] => None
  | svc :: rest =>
      match svc with
      | [ks; us] =>
          match toStringSlice us with
          | [] => scanASN asn rest
          | u0 :: _ =>
              if rangesHold asn (toStringSlice ks)
              then Some (strings_TrimRight u0 "/"%char)
              else scanASN asn rest
          end
      | _ => scanASN asn rest
      end
  end.

Definition asnKey (asn : Z) : string := "asn:" +:+ fmt_d asn.

Definition resolveBaseFromBootstrapASN (c : Client) (w : W) (asn : Z)
  : option ((goerror + string) * Client * W) :=
  let key := asnKey asn in
  match ttlCache.Get (baseNow w) (rdapBaseCache c) key with
  | (Some base, bc) => Some (inr base, set_rdapBaseCache c bc, w)
  | (None, bc) =>
      '(r, c1, w1) ← fetchBootstrapGeneric (set_rdapBaseCache c bc) w
                       (asnBootstrapURL c);
      match r with
      | inl _ => Some (inr fallbackBase, c1, w1)
      | inr bs =>
          match scanASN asn (Services bs) with
          | Some base =>
              bc' ← ttlCache.Set_ (baseNow w1) (rdapBaseCache c1) key base;
              Some (inr base, set_rdapBaseCache c1 bc', w1)
          | None => Some (inr fallbackBase, c1, w1)
          end
      end
  end.

(** The loops of [fetchBootstrap] that fill the base cache. *)
Fixpoint setTLDs (now : Time) (bc : ttlCache.t string) (tlds : list string)
    (base : string) : option (ttlCache.t string) :=
  match tlds with
  | [] => Some bc
  | tl :: rest =>
      bc' ← ttlCache.Set_ now bc (strings_ToLower tl) base;
      setTLDs now bc' rest base
  end.

Fixpoint loadServices (now : Time) (bc : ttlCache.t string)
    (svcs : list (list any)) : option (ttlCache.t string) :=
  match svcs with
  | [] => Some bc
  | svc :: rest =>
      match svc with
      | [ks; us] =>
          match toStringSlice us with
          | [] => loadServices now bc rest
          | u0 :: _ =>
              bc' ← setTLDs now bc (toStringSlice ks) (strings_TrimRight u0 "/"%char);
              loadServices now bc' rest
          end
      | _ => loadServices now bc rest
      end
  end.

(** The stores these loops make, in the order they make them: for each
    entry of two members that has a URL, each of its TLDs, lower-cased,
    with the stripped first URL. *)
Definition servicePairs (svc : list any) : list (string * string) :=
  match svc with
  | [ks; us] =>
      match toStringSlice us with
      | [] => []
      | u0 :: _ =>
          (fun tl => (strings_ToLower tl, strings_TrimRight u0 "/"%char))
            <$> toStringSlice ks
      end
  | _ => []
  end.

Definition dnsPairs (svcs : list (list any)) : list (string * string) :=
  flat_map servicePairs svcs.

(** [fetchBootstrap]; the result [None] inside is the nil error, the
    outer [None] a panic. *)
Definition fetchBootstrap (c : Client) (w : W) (force : bool)
  : option (option goerror * Client * W) :=
  let u := bootstrapURL c in
  if negb (validURL w u) then None
  else
    let h1 := Header_Set ∅ "User-Agent" (ua c) in
    let h2 := copyHeaders h1 (headerExtra c) in
    let h3 := if negb force then validatorHeaders h2 (respCache c) u else h2 in
    let req := {| req_Method := "GET"; req_URL := u; req_Header := h3;
                  req_deadline := baseTimeout c |} in
    match hc_Do w req with
    | (inl err, w1) => Some (Some err, c, w1)
    | (inr resp, w1) =>
        if bool_decide (StatusCode resp = StatusNotModified) then Some (None, c, w1)
        else if bool_decide (StatusCode resp = StatusOK) then
          match readAllLimit (resp_Body resp) (512 * 1024) with
          | (_, Some err) => Some (Some err, c, w1)
          | (b, None) =>
              match json_Unmarshal_bootstrap b with
              | inl err =>
                  Some (Some {| err_msg := "parse bootstrap: " +:+ err_msg err;
                                err_net := err_net err |}, c, w1)
              | inr obj =>
                  bc ← loadServices (baseNow w1) (rdapBaseCache c) (Services obj);
                  let rc := respCache.StoreMeta (respNow w1) (respCache c) u
                              (resp_Header resp) in
                  Some (None, set_respCache (set_rdapBaseCache c bc) rc, w1)
              end
          end
        else
          Some (Some (errors_New ("bootstrap fetch failed: " +:+ Status resp)), c, w1)
    end.

(** [resolveBaseFromBootstrapDNS].  The field [defaultRDAPBase] it reads is
    not among the fields of [Client] in client.go; it is the argument
    [defaultRDAPBase]. *)
Definition resolveBaseFromBootstrapDNS (defaultRDAPBase : string) (c : Client)
    (w : W) (tld0 : string) : option ((goerror + string) * Client * W) :=
  if bool_decide (tld0 = EmptyString)
  then Some (inl (errors_New "empty TLD"), c, w)
  else
    let tld := strings_ToLower (strings_TrimPrefix tld0 ".") in
    let notFound (c' : Client) (w' : W) :=
      if bool_decide (defaultRDAPBase ≠ EmptyString)
      then Some (inr defaultRDAPBase, c', w')
      else Some (inl (errors_New ("no RDAP base for TLD " +:+ fmt_q tld)), c', w') in
    match ttlCache.Get (baseNow w) (rdapBaseCache c) tld with
    | (Some base, bc) => Some (inr base, set_rdapBaseCache c bc, w)
    | (None, bc) =>
        '(e1, c1, w1) ← fetchBootstrap (set_rdapBaseCache c bc) w false;
        match e1 with
        | Some err =>
            if bool_decide (defaultRDAPBase ≠ EmptyString)
            then Some (inr defaultRDAPBase, c1, w1)
            else Some (inl err, c1, w1)
        | None =>
            match ttlCache.Get (baseNow w1) (rdapBaseCache c1) tld with
            | (Some base, bc1) => Some (inr base, set_rdapBaseCache c1 bc1, w1)
            | (None, bc1) =>
                '(e2, c2, w2) ← fetchBootstrap (set_rdapBaseCache c1 bc1) w1 true;
                match e2 with
                | None =>
                    match ttlCache.Get (baseNow w2) (rdapBaseCache c2) tld with
                    | (Some base, bc2) =>
                        Some (inr base, set_rdapBaseCache c2 bc2, w2)
                    | (None, bc2) => notFound (set_rdapBaseCache c2 bc2) w2
                    end
                | Some _ => notFound c2 w2
                end
            end
        end
    end.

Definition rdapBaseForTLD (defaultRDAPBase : string) (c : Client) (w : W)
    (tld : string) : option ((goerror + string) * Client * W) :=
  resolveBaseFromBootstrapDNS defaultRDAPBase c w tld.

Definition rdapBaseForDomain (defaultRDAPBase : string) (c : Client) (w : W)
    (fqdn : string) : option ((goerror + string) * Client * W) :=
  rdapBaseForTLD defaultRDAPBase c w (lastLabel fqdn).

Definition rdapBaseForIP (c : Client) (w : W) (ipOrCIDR : string)
  : option ((goerror + string) * Client * W) :=
  resolveBaseFromBootstrapIP c w ipOrCIDR.

(** ** The endpoint facade *)

Definition ErrUnexpectedObject (want : string) : goerror :=
  errors_New ("unexpected RDAP objectClassName, want " +:+ want).

(** The shared tail of the endpoints as each of them writes it out: fetch,
    parse, type-assert. *)
Definition IP (fuel : nat) (c : Client) (w : W) (ipOrCIDR : string)
  : option ((goerror + IPNetwork) * Client * W) :=
  '(rb, c1, w1) ← rdapBaseForIP c w ipOrCIDR;
  match rb with
  | inl err => Some (inl err, c1, w1)
  | inr base =>
      u ← mustJoin base "/ip/" [ipOrCIDR];
      '(r, c2, w2) ← getJSON fuel c1 w1 u;
      match r with
      | inl err => Some (inl err, c2, w2)
      | inr (m, _) =>
          match ParseObject m with
          | inl err => Some (inl err, c2, w2)
          | inr (ObjIPNetwork v) => Some (inr v, c2, w2)
          | inr _ => Some (inl (ErrUnexpectedObject "ip network"), c2, w2)
          end
      end
  end.

Definition Domain_ (defaultRDAPBase : string) (fuel : nat) (c : Client) (w : W)
    (fqdn : string) : option ((goerror + Domain) * Client * W) :=
  '(rb, c1, w1) ← rdapBaseForDomain defaultRDAPBase c w fqdn;
  match rb with
  | inl err => Some (inl err, c1, w1)
  | inr base =>
      u ← mustJoin base "/domain/" [fqdn];
      '(r, c2, w2) ← getJSON fuel c1 w1 u;
      match r with
      | inl err => Some (inl err, c2, w2)
      | inr (m, _) =>
          match ParseObject m with
          | inl err => Some (inl err, c2, w2)
          | inr (ObjDomain v) => Some (inr v, c2, w2)
          | inr _ => Some (inl (ErrUnexpectedObject "domain"), c2, w2)
          end
      end
  end.

Definition Nameserver_ (defaultRDAPBase : string) (fuel : nat) (c : Client) (w : W)
    (host : string) : option ((goerror + Nameserver) * Client * W) :=
  '(rb, c1, w1) ← rdapBaseForDomain defaultRDAPBase c w host;
  let base := match rb with
              | inl _ => fallbackBase
              | inr b => if bool_decide (b = EmptyString) then fallbackBase else b
              end in
  u ← mustJoin base "/nameserver/" [host];
  '(r, c2, w2) ← getJSON fuel c1 w1 u;
  match r with
  | inl err => Some (inl err, c2, w2)
  | inr (m, _) =>
      match ParseObject m with
      | inl err => Some (inl err, c2, w2)
      | inr (ObjNameserver v) => Some (inr v, c2, w2)
      | inr _ => Some (inl (ErrUnexpectedObject "nameserver"), c2, w2)
      end
  end.

Definition Entity_ (defaultRDAPBase : string) (fuel : nat) (c : Client) (w : W)
    (handle tldHint : string) : option ((goerror + Entity) * Client * W) :=
  let tl := trimDotLower tldHint in
  '(rb, c1, w1) ← (if bool_decide (tl ≠ EmptyString)
                   then rdapBaseForTLD defaultRDAPBase c w tl
                   else Some (inr EmptyString, c, w));
  let base := match rb with
              | inl _ => fallbackBase
              | inr b => if bool_decide (b = EmptyString) then fallbackBase else b
              end in
  u ← mustJoin base "/entity/" [handle];
  '(r, c2, w2) ← getJSON fuel c1 w1 u;
  match r with
  | inl err => Some (inl err, c2, w2)
  | inr (m, _) =>
      match ParseObject m with
      | inl err => Some (inl err, c2, w2)
      | inr (ObjEntity v) => Some (inr v, c2, w2)
      | inr _ => Some (inl (ErrUnexpectedObject "entity"), c2, w2)
      end
  end.

(** [rdapBaseForASN]. *)
Definition rdapBaseForASN (c : Client) (w : W) (asn : string)
  : option ((goerror + string) * Client * W) :=
  let trimmed := strings_TrimSpace (strings_TrimPrefix (strings_ToUpper asn) "AS") in
  match strconv_ParseUint trimmed with
  | UintOk n => resolveBaseFromBootstrapASN c w n
  | UintSyntax => Some (inl (numError trimmed false), c, w)
  | UintRange => Some (inl (numError trimmed true), c, w)
  end.

Definition Autnum_ (fuel : nat) (c : Client) (w : W) (asn : string)
  : option ((goerror + Autnum) * Client * W) :=
  let trimmed := strings_TrimPrefix (strings_ToUpper asn) "AS" in
  match strconv_ParseUint trimmed with
  | UintSyntax => Some (inl (numError trimmed false), c, w)
  | UintRange => Some (inl (numError trimmed true), c, w)
  | UintOk _ =>
      '(rb, c1, w1) ← rdapBaseForASN c w trimmed;
      match rb with
      | inl err => Some (inl err, c1, w1)
      | inr base =>
          u ← mustJoin base "/autnum/" [trimmed];
          '(r, c2, w2) ← getJSON fuel c1 w1 u;
          match r with
          | inl err => Some (inl err, c2, w2)
          | inr (m, _) =>
              match ParseObject m with
              | inl err => Some (inl err, c2, w2)
              | inr (ObjAutnum v) => Some (inr v, c2, w2)
              | inr _ => Some (inl (ErrUnexpectedObject "autnum"), c2, w2)
              end
          end
      end
  end.
End MoreBootstrap.

(** ** A URL runtime and a stubborn server for the worked examples *)

Module Scenario.

(** URLs as text: enough of [net/url] and [path] for a base without query
    or fragment and for path members without dot segments. *)
Definition joinPath (a b : string) : string :=
  let a' := strings_TrimRight a "/"%char in
  let b' := dropWhileByte "/"%char (strings_TrimRight b "/"%char) in
  if bool_decide (b' = EmptyString) then a' else a' +:+ "/" +:+ b'.

Definition urlRuntime : UrlRuntime :=
  {| URL := string * string;   (* scheme and host, path *)
     url_Parse := fun s =>
       if strings_HasPrefix s "https://"
       then match Example.cutFirst "/"%char (dropBytes 8 s) EmptyString with
            | Some (host, path) => Some ("https://" +:+ host, "/" +:+ path)
            | None => Some (s, EmptyString)
            end
       else None;
     URL_Path := snd;
     URL_setPath := fun u p => (fst u, p);
     URL_String := fun u => fst u +:+ snd u;
     path_Join := joinPath;
     fmt_q := Example.quoted;
     unicode_ToUpper := fun s => s |}.

(** A server that answers every request with 502 and counts them; the
    state of the world is the count. *)
Definition stubborn : World nat :=
  {| hc_Do := fun n _ =>
       (inr (Example.response 502 "502 Bad Gateway" ∅ EmptyString), S n);
     sleepOrDone := fun n _ => (None, n);
     respNow := fun _ => Example.noon;
     baseNow := fun _ => Example.noon;
     time_Now := fun _ => Example.noon;
     validURL := fun _ _ => true |}.

(** The same server, with a caller who gives up during the first
    back-off. *)
Definition impatient : World nat :=
  {| hc_Do := fun n _ =>
       (inr (Example.response 502 "502 Bad Gateway" ∅ EmptyString), S n);
     sleepOrDone := fun n _ => (Some (errors_New "context canceled"), n);
     respNow := fun _ => Example.noon;
     baseNow := fun _ => Example.noon;
     time_Now := fun _ => Example.noon;
     validURL := fun _ _ => true |}.

(** A server that answers 200 with a domain object, cacheable for a
    minute, and then 304. *)
Definition world_200_304 : Example.scripted :=
  {| Example.script :=
       [ Example.respond 200 "200 OK"
           (Header_Set (Header_Set ∅ "Cache-Control" "max-age=60") "ETag" "v1")
           (Example.classDoc "domain");
         Example.respond 304 "304 Not Modified"
           (Header_Set ∅ "Cache-Control" "max-age=120") EmptyString ];
     Example.sent := []; Example.clock := Example.noon |}.

(** A server that answers 403. *)
Definition world_403 : Example.scripted :=
  {| Example.script := [ Example.respond 403 "403 Forbidden" ∅ "no" ];
     Example.sent := []; Example.clock := Example.noon |}.

(** An AS-number bootstrap document whose two entries overlap on
    1000-1876, and a DNS one that lists [com] twice. *)
Definition asnDoc : string :=
  "{" +:+ Example.quoted "services" +:+ ":[[[" +:+ Example.quoted "1-1876"
      +:+ "," +:+ Example.quoted "1877" +:+ "],["
      +:+ Example.quoted "https://arin.example/" +:+ "]],[["
      +:+ Example.quoted "1000-3000" +:+ "],["
      +:+ Example.quoted "https://ripe.example/rdap/" +:+ "]]]}".

Definition asnValue : bootstrapServices :=
  {| Services :=
       [ [JArray [JString "1-1876"; JString "1877"];
          JArray [JString "https://arin.example/"]];
         [JArray [JString "1000-3000"];
          JArray [JString "https://ripe.example/rdap/"]] ] |}.

Definition dnsDoc : string :=
  "{" +:+ Example.quoted "services" +:+ ":[[[" +:+ Example.quoted "com"
      +:+ "," +:+ Example.quoted "NET" +:+ "],["
      +:+ Example.quoted "https://old.example/" +:+ "]],[["
      +:+ Example.quoted "com" +:+ "],["
      +:+ Example.quoted "https://new.example/v1/" +:+ "]]]}".

Definition dnsValue : bootstrapServices :=
  {| Services :=
       [ [JArray [JString "com"; JString "NET"];
          JArray [JString "https://old.example/"]];
         [JArray [JString "com"];
          JArray [JString "https://new.example/v1/"]] ] |}.

(** [Example.exampleRuntime], reading these two documents as well. *)
Definition bootstrapRuntime : Runtime :=
  {| unicode_ToLower := fun s => s;
     unicode_TrimFunc_IsSpace := fun s => s;
     unicode_TrimRightFunc_IsSpace := fun s => s;
     time_Parse := fun _ s => Example.parseDate s;
     time_Format := fun _ t => Example.formatDate t;
     time_ParseDuration := Example.parseSeconds;
     json_Unmarshal := Example.unmarshalMap;
     json_Unmarshal_bootstrap := fun b =>
       if bool_decide (b = asnDoc) then inr asnValue
       else if bool_decide (b = dnsDoc) then inr dnsValue
       else Example.unmarshalBootstrap b;
     json_Marshal := Example.marshalMap;
     json_Unmarshal_Entity := Example.unmarshalAs Build_Entity;
     json_Unmarshal_Domain := Example.unmarshalAs Build_Domain;
     json_Unmarshal_Nameserver := Example.unmarshalAs Build_Nameserver;
     json_Unmarshal_IPNetwork := Example.unmarshalAs Build_IPNetwork;
     json_Unmarshal_Autnum := Example.unmarshalAs Build_Autnum;
     netip_ParsePrefix := Example.parsePrefix;
     netip_ParseAddr := Example.parseAddr;
     Addr_String := Example.addrString |}.

Definition world_asn : Example.scripted :=
  {| Example.script := [ Example.respond 200 "200 OK" ∅ asnDoc ];
     Example.sent := []; Example.clock := Example.noon |}.

Definition world_dns : Example.scripted :=
  {| Example.script := [ Example.respond 200 "200 OK" ∅ dnsDoc ];
     Example.sent := []; Example.clock := Example.noon |}.

(** A server that answers with the IP bootstrap document and then with
    an object of the given class. *)
Definition world_lookup (class : string) : Example.scripted :=
  {| Example.script := [ Example.respond 200 "200 OK" ∅ Example.bootstrapDoc;
                         Example.respond 200 "200 OK" ∅ (Example.classDoc class) ];
     Example.sent := []; Example.clock := Example.noon |}.

(** A world with no server: every request is refused. *)
Definition offline : Example.scripted :=
  {| Example.script := []; Example.sent := []; Example.clock := Example.noon |}.

End Scenario.

(** * Properties *)

(** ** Machine integers and strings *)

Lemma wrap64_small z : int64_min <= z <= int64_max -> wrap64 z = z.
Proof.
  unfold wrap64, int64_min, int64_max. intros Hz.
  rewrite Z.mod_small; lia.
Qed.

Lemma string_length_pos (s : string) :
  (0 < String.length s)%nat <-> s ≠ EmptyString.
Proof. destruct s; simpl; split; (lia || congruence || done). Qed.

(** ** The eviction loop *)

Lemma removelast_take {A} (l : list A) : removelast l = take (length l - 1) l.
Proof.
  induction l as [|x l IH]; [done|].
  destruct l as [|y l]; [done|].
  change (removelast (x :: y :: l)) with (x :: removelast (y :: l)).
  rewrite IH. simpl. by rewrite Nat.sub_0_r.
Qed.

Lemma evict_take {A} (n : nat) (capacity : Z) (l : list A) :
  (length l <= n)%nat -> 0 <= capacity ->
  evict n capacity l = Some (take (Z.to_nat capacity) l).
Proof.
  revert l. induction n as [|n IH]; intros l Hn Hc.
  - destruct l; [|simpl in Hn; lia]. simpl.
    rewrite bool_decide_false by lia. by rewrite take_nil.
  - destruct l as [|x l].
    + simpl. rewrite bool_decide_false by lia. by rewrite take_nil.
    + unfold evict; fold (@evict A). case_bool_decide as Hgt.
      * rewrite IH; [|rewrite removelast_take, length_take; simpl in *; lia|done].
        rewrite removelast_take, take_take. f_equal. f_equal.
        simpl in *. lia.
      * rewrite take_ge; [done|]. lia.
Qed.

Lemma evictLoop_take {A} (capacity : Z) (l : list A) :
  0 <= capacity -> evictLoop capacity l = Some (take (Z.to_nat capacity) l).
Proof. intros. by apply evict_take. Qed.

Lemma evictLoop_length {A} (capacity : Z) (l l' : list A) :
  evictLoop capacity l = Some l' -> Z.of_nat (length l') <= capacity.
Proof.
  unfold evictLoop. generalize (length l) at 1. intros n. revert l.
  induction n as [|n IH]; intros l; simpl; case_bool_decide as Hgt;
    try (intros [= <-]; lia); destruct l; try done. apply IH.
Qed.

Lemma evictLoop_negative {A} (capacity : Z) (l : list A) :
  capacity < 0 -> evictLoop capacity l = None.
Proof.
  intros Hc. destruct (evictLoop capacity l) as [l'|] eqn:E; [|done].
  apply evictLoop_length in E. lia.
Qed.

(** ** The response cache *)

Section RespCacheFacts.
Import respCache.

Lemma rc_tab_Some_url (c : t) (u : string) (it : cachedResponse) :
  tab c u = Some it -> url it = u ∧ it ∈ ll c.
Proof.
  unfold tab. intros H. apply head_Some_elem_of in H.
  apply list_elem_of_filter in H. tauto.
Qed.

Lemma rc_tab_None_others (c : t) (u : string) :
  tab c u = None -> others u (ll c) = ll c.
Proof.
  unfold tab, others. induction (ll c) as [|e l IH]; [done|].
  rewrite !filter_cons. repeat case_decide; try done; try congruence.
  intros Hhd. f_equal. by apply IH.
Qed.

Lemma rc_tab_putFront (c : t) (it : cachedResponse) :
  tab (putFront c it) (url it) = Some it.
Proof. unfold tab, putFront. simpl. rewrite filter_cons. by case_decide. Qed.

Lemma rc_tab_cons_same (c : t) (it : cachedResponse) :
  tab (set_ll c (it :: ll c)) (url it) = Some it.
Proof. unfold tab. simpl. rewrite filter_cons. by case_decide. Qed.
End RespCacheFacts.

(** C5.  [respCache.Get] is a hit exactly when the URL has an entry that is
    not negative-active (its negative-until is zero, or the clock is at or
    past it), the clock is strictly before its positive expiry, and its
    body is not empty; the body returned is the entry's.  A hit moves the
    entry to the front of the list, leaving the other entries in their
    order; a miss leaves the cache as it was. *)
Theorem respCache_Get_hit_iff (now : Time) (c : respCache.t) (u : string) :
  (∀ b, (∃ c', respCache.Get now c u = (Some b, c')) ↔
        (∃ it, respCache.tab c u = Some it
               ∧ (negUntil (meta it) = zeroTime ∨ negUntil (meta it) <= now)
               ∧ now < expiresAt (meta it)
               ∧ body it ≠ EmptyString
               ∧ b = body it))
  ∧ (∀ b c', respCache.Get now c u = (Some b, c') →
        ∃ it, respCache.tab c u = Some it
              ∧ respCache.ll c' = it :: respCache.others u (respCache.ll c)
              ∧ respCache.cap c' = respCache.cap c
              ∧ respCache.defTTL c' = respCache.defTTL c)
  ∧ (∀ c', respCache.Get now c u = (None, c') → c' = c).
Proof.
  unfold respCache.Get, Time_IsZero, Time_Before.
  destruct (respCache.tab c u) as [it|] eqn:Htab.
  - destruct (rc_tab_Some_url _ _ _ Htab) as [Hu _].
    repeat split.
    + intros [c' Hget]. exists it.
      repeat case_bool_decide; simpl in Hget; try done;
        rewrite <- string_length_pos; inversion Hget; subst;
        repeat split; try done; lia.
    + intros (it' & [= <-] & Hneg & Hexp & Hbody & ->).
      apply string_length_pos in Hbody.
      repeat case_bool_decide; simpl; eauto; lia.
    + intros b c' Hget. exists it.
      repeat case_bool_decide; simpl in Hget; try done;
        inversion Hget; subst; done.
    + intros c' Hget.
      repeat case_bool_decide; simpl in Hget; try done; by inversion Hget.
  - repeat split.
    + intros [c' H]. done.
    + intros (it & H & _). done.
    + intros b c' H. done.
    + intros c' H. by inversion H.
Qed.

Lemma respCache_Store_absent_bound `{rt : Runtime} (now : Time) (c c' : respCache.t)
    (u b : string) (hdr : Header) :
  respCache.tab c u = None ->
  respCache.Store now c u b hdr = Some c' ->
  Z.of_nat (length (respCache.ll c')) <= respCache.cap c'
  ∧ respCache.cap c' = respCache.cap c.
Proof.
  unfold respCache.Store. intros ->. simpl.
  destruct (evictLoop _ _) as [l|] eqn:E; simpl; [|done].
  intros [= <-]. simpl. split; [|done]. by eapply evictLoop_length.
Qed.

Lemma respCache_Resize_bound (c c' : respCache.t) (n : Z) :
  respCache.Resize c n = Some c' ->
  Z.of_nat (length (respCache.ll c')) <= n ∧ respCache.cap c' = n.
Proof.
  unfold respCache.Resize.
  destruct (evictLoop _ _) as [l|] eqn:E; simpl; [|done].
  intros [= <-]. simpl. split; [|done]. by eapply evictLoop_length.
Qed.

(** C10.  On a response cache that holds exactly [cap] entries,
    [StoreNegative] and [StoreMeta] on a URL that has no entry put a new
    entry at the front and evict nothing, so the cache then holds [cap + 1]
    entries; [Store] on such a URL and [Resize] leave at most as many
    entries as the capacity. *)
Theorem respCache_meta_stores_exceed_capacity `{rt : Runtime}
    (now : Time) (c : respCache.t) (u : string)
    (Habsent : respCache.tab c u = None)
    (Hfull : Z.of_nat (length (respCache.ll c)) = respCache.cap c) :
  (∀ d, let c' := respCache.StoreNegative now c u d in
        respCache.ll c' =
          {| url := u; body := EmptyString;
             meta := {| ETag := EmptyString; LastModified := zeroTime;
                        expiresAt := zeroTime; negUntil := Time_Add now d |} |}
          :: respCache.ll c
        ∧ respCache.cap c' = respCache.cap c
        ∧ Z.of_nat (length (respCache.ll c')) = respCache.cap c + 1)
  ∧ (∀ hdr, let c' := respCache.StoreMeta now c u hdr in
        respCache.ll c' =
          {| url := u; body := EmptyString;
             meta := makeMeta hdr (respCache.defTTL c) now |} :: respCache.ll c
        ∧ respCache.cap c' = respCache.cap c
        ∧ Z.of_nat (length (respCache.ll c')) = respCache.cap c + 1)
  ∧ (∀ b hdr, ∃ c', respCache.Store now c u b hdr = Some c'
        ∧ respCache.cap c' = respCache.cap c
        ∧ Z.of_nat (length (respCache.ll c')) <= respCache.cap c')
  ∧ (∀ n, 0 <= n → ∃ c', respCache.Resize c n = Some c'
        ∧ respCache.cap c' = n
        ∧ Z.of_nat (length (respCache.ll c')) <= n).
Proof.
  split; [|split; [|split]].
  - intros d c'. unfold c', respCache.StoreNegative. rewrite Habsent.
    simpl. repeat split. lia.
  - intros hdr c'. unfold c', respCache.StoreMeta. rewrite Habsent.
    simpl. repeat split. lia.
  - intros b hdr.
    destruct (respCache.Store now c u b hdr) as [c'|] eqn:E.
    + exists c'. destruct (respCache_Store_absent_bound _ _ _ _ _ _ Habsent E).
      by repeat split.
    + unfold respCache.Store in E. rewrite Habsent in E.
      rewrite evictLoop_take in E by lia. done.
  - intros n Hn.
    destruct (respCache.Resize c n) as [c'|] eqn:E.
    + exists c'. destruct (respCache_Resize_bound _ _ _ E). by repeat split.
    + unfold respCache.Resize in E. rewrite evictLoop_take in E by lia. done.
Qed.

(** ** The TTL-LRU cache *)

Section TtlCacheFacts.
Context {T : Type}.
Import ttlCache.

Lemma tc_tab_Some_key (c : t T) (k : string) (it : ttlItem T) :
  tab c k = Some it -> key it = k ∧ it ∈ ll c.
Proof.
  unfold tab. intros Hhd. apply head_Some_elem_of in Hhd.
  apply list_elem_of_filter in Hhd. tauto.
Qed.

Lemma tc_tab_cons_same (c : t T) (it : ttlItem T) (l : list (ttlItem T)) :
  tab (set_ll c (it :: l)) (key it) = Some it.
Proof. unfold tab. simpl. rewrite filter_cons. by case_decide. Qed.

Lemma tc_others_length (l : list (ttlItem T)) (k : string) :
  NoDup (key <$> l) -> (∃ it, it ∈ l ∧ key it = k) ->
  S (length (others k l)) = length l.
Proof.
  unfold others. induction l as [|e l IH]; intros Hnd [it [Hin Hk]].
  - by apply elem_of_nil in Hin.
  - rewrite fmap_cons in Hnd. apply NoDup_cons in Hnd as [Hnotin Hnd].
    rewrite filter_cons. case_decide as Hne.
    + simpl. f_equal. apply IH; [done|].
      apply elem_of_cons in Hin as [->|Hin]; [congruence|]. eauto.
    + simpl. f_equal.
      clear IH Hin. induction l as [|e' l IH]; [done|].
      rewrite filter_cons. rewrite fmap_cons in Hnotin, Hnd.
      apply not_elem_of_cons in Hnotin as [Hne' Hnotin].
      apply NoDup_cons in Hnd as [_ Hnd].
      case_decide; [simpl; f_equal; by apply IH|congruence].
Qed.

(** [Set] never panics when the capacity is not negative, and then leaves
    the new item at the front whenever the capacity is at least one. *)
Lemma tc_Set_front (now : Time) (c : t T) (k : string) (v : T) :
  1 <= cap c ->
  ∃ l, Set_ now c k v
       = Some (set_ll c ({| key := k; val := v; expires := Time_Add now (ttl c) |} :: l)).
Proof.
  intros Hcap. unfold Set_. destruct (tab c k); [eauto|].
  rewrite evictLoop_take by lia.
  destruct (Z.to_nat (cap c)) as [|n] eqn:En; [lia|]. simpl. eauto.
Qed.
End TtlCacheFacts.

(** C9.  [ttlCache.Set] on a key that has an entry replaces the value,
    sets the expiry to the clock plus the TTL and moves the entry to the
    front, the number of entries staying the same.  Hence, on a cache of
    capacity at least one, after [Set(a, v1)] at [t0] and [Set(a, v2)] at
    [t1], [Get(a)] at any [t2] before [t1 + ttl] returns [v2]; for a TTL of
    [100 q] this covers [t1 = t0 + 0.98 ttl] and [t2 = t0 + 1.5 ttl].  A
    [Get] is a hit only if the expiry of the entry is strictly after the
    clock. *)
Theorem ttlCache_Set_renews_expiry {T : Type} (c : ttlCache.t T) (a : string)
    (v1 v2 : T) (t0 : Time) :
  (∀ now k v it, ttlCache.tab c k = Some it →
     ∃ c', ttlCache.Set_ now c k v = Some c'
           ∧ ttlCache.ll c'
             = {| ttlCache.key := k; ttlCache.val := v;
                  ttlCache.expires := Time_Add now (ttlCache.ttl c) |}
               :: ttlCache.others k (ttlCache.ll c)
           ∧ ttlCache.cap c' = ttlCache.cap c
           ∧ ttlCache.ttl c' = ttlCache.ttl c
           ∧ (ttlCache.wf c → length (ttlCache.ll c') = length (ttlCache.ll c)))
  ∧ (∀ t1 t2, 1 <= ttlCache.cap c → t2 < t1 + ttlCache.ttl c →
     ∃ c1 c2 c3, ttlCache.Set_ t0 c a v1 = Some c1
                 ∧ ttlCache.Set_ t1 c1 a v2 = Some c2
                 ∧ ttlCache.Get t2 c2 a = (Some v2, c3))
  ∧ (∀ q, 1 <= ttlCache.cap c → 0 < q → ttlCache.ttl c = 100 * q →
     ∃ c1 c2 c3, ttlCache.Set_ t0 c a v1 = Some c1
                 ∧ ttlCache.Set_ (t0 + 98 * q) c1 a v2 = Some c2
                 ∧ ttlCache.Get (t0 + 150 * q) c2 a = (Some v2, c3))
  ∧ (∀ now k it, ttlCache.tab c k = Some it → ttlCache.expires it <= now →
     fst (ttlCache.Get now c k) = None)
  ∧ (∀ now k v c', ttlCache.Get now c k = (Some v, c') →
     ∃ it, ttlCache.tab c k = Some it ∧ now < ttlCache.expires it
           ∧ v = ttlCache.val it).
Proof.
  assert (Hscen : ∀ t1 t2, 1 <= ttlCache.cap c → t2 < t1 + ttlCache.ttl c →
     ∃ c1 c2 c3, ttlCache.Set_ t0 c a v1 = Some c1
                 ∧ ttlCache.Set_ t1 c1 a v2 = Some c2
                 ∧ ttlCache.Get t2 c2 a = (Some v2, c3)).
  { intros t1 t2 Hcap Hlt.
    destruct (tc_Set_front t0 c a v1 Hcap) as [l1 E1].
    set (it1 := {| ttlCache.key := a; ttlCache.val := v1;
                   ttlCache.expires := Time_Add t0 (ttlCache.ttl c) |}) in E1.
    set (c1 := ttlCache.set_ll c (it1 :: l1)) in E1.
    assert (Htab1 : ttlCache.tab c1 a = Some it1)
      by apply (tc_tab_cons_same c it1 l1).
    set (it2 := {| ttlCache.key := a; ttlCache.val := v2;
                   ttlCache.expires := Time_Add t1 (ttlCache.ttl c1) |}).
    set (c2 := ttlCache.set_ll c1 (it2 :: ttlCache.others a (ttlCache.ll c1))).
    exists c1, c2. eexists. split; [done|]. split.
    - unfold ttlCache.Set_. by rewrite Htab1.
    - unfold ttlCache.Get.
      rewrite (tc_tab_cons_same c1 it2 _ : ttlCache.tab c2 a = Some it2).
      unfold Time_Before, it2, Time_Add. simpl.
      rewrite bool_decide_true by lia. done. }
  split; [|split; [done|split; [|split]]].
  - intros now k v it Htab. eexists. split.
    { unfold ttlCache.Set_. by rewrite Htab. }
    simpl. repeat split. intros Hwf.
    destruct (tc_tab_Some_key _ _ _ Htab) as [Hk Hin].
    f_equal. apply tc_others_length; eauto.
  - intros q Hcap Hq Httl. apply Hscen; lia.
  - intros now k it Htab Hexp. unfold ttlCache.Get, Time_Before.
    rewrite Htab. by rewrite bool_decide_false by lia.
  - intros now k v c' Hget. unfold ttlCache.Get, Time_Before in Hget.
    destruct (ttlCache.tab c k) as [it|]; [|done].
    case_bool_decide; [|done]. inversion Hget; subst. eauto.
Qed.

(** The scenario of C9 on a fresh cache of capacity 2 and TTL 100. *)
Lemma ttlCache_Set_renews_expiry_witness :
  1 <= ttlCache.cap (ttlCache.newTTLCache (T:=Z) 100 2)
  ∧ 0 < 1
  ∧ ttlCache.ttl (ttlCache.newTTLCache (T:=Z) 100 2) = 100 * 1
  ∧ ∃ c1 c2 c3,
      ttlCache.Set_ 1000 (ttlCache.newTTLCache 100 2) "a" 1 = Some c1
      ∧ ttlCache.Set_ (1000 + 98 * 1) c1 "a" 2 = Some c2
      ∧ ttlCache.Get (1000 + 150 * 1) c2 "a" = (Some 2, c3).
Proof.
  split; [simpl; lia|]. split; [lia|]. split; [reflexivity|].
  apply (ttlCache_Set_renews_expiry (ttlCache.newTTLCache 100 2) "a" 1 2 1000);
    [simpl; lia | lia | reflexivity].
Defined.

(** Witness of C10: a cache of capacity 1 holding the one entry [x]. *)
Lemma respCache_meta_stores_exceed_capacity_witness :
  respCache.tab Example.fullCache "y" = None
  ∧ Z.of_nat (length (respCache.ll Example.fullCache)) = respCache.cap Example.fullCache
  ∧ Z.of_nat (length (respCache.ll
        (respCache.StoreNegative Example.noon Example.fullCache "y" (5 * Minute))))
    = respCache.cap Example.fullCache + 1
  ∧ Z.of_nat (length (respCache.ll
        (respCache.StoreMeta (rt:=Example.exampleRuntime) Example.noon
           Example.fullCache "y" ∅)))
    = respCache.cap Example.fullCache + 1.
Proof.
  split; [reflexivity|]. split; [reflexivity|].
  pose proof (respCache_meta_stores_exceed_capacity (rt:=Example.exampleRuntime)
                Example.noon Example.fullCache "y" eq_refl eq_refl) as (Hneg & Hmeta & _).
  split; [apply (Hneg (5 * Minute)) | apply (Hmeta ∅)].
Defined.

(** ** Retry-After *)

(** C7.  [retryAfter] returns the header's value when it parses as a
    duration in seconds strictly between 0 and 10 seconds; failing that,
    the time left until the header's RFC 1123 date when that is strictly
    between 0 and 10 seconds; and the fallback in every other case: no
    header, neither form parses, or the value parsed is zero, negative or
    10 seconds or more. *)
Theorem retryAfter_window `{rt : Runtime} (wall : Time) (h : Header)
    (fallback : Duration) :
  let v := Header_Get h "Retry-After" in
  let seconds := time_ParseDuration (strings_TrimSpace v +:+ "s") in
  let date := time_Parse RFC1123 v in
  let inWindow (d : Duration) := 0 < d ∧ d < 10 * Second in
  let secondsHonoured := ∃ sec, seconds = Some sec ∧ inWindow sec in
  let dateHonoured := ∃ t, date = Some t ∧ inWindow (Time_Sub t wall) in
  (∀ sec, v ≠ EmptyString → seconds = Some sec → inWindow sec →
      retryAfter wall h fallback = sec)
  ∧ (∀ t, v ≠ EmptyString → ¬ secondsHonoured → date = Some t →
      inWindow (Time_Sub t wall) →
      retryAfter wall h fallback = Time_Sub t wall
      ∧ Time_Sub t wall = t - wall)
  ∧ (v = EmptyString → retryAfter wall h fallback = fallback)
  ∧ (¬ secondsHonoured → ¬ dateHonoured → retryAfter wall h fallback = fallback).
Proof.
  intros v seconds date inWindow secondsHonoured dateHonoured.
  unfold retryAfter. fold v. fold seconds. fold date.
  split; [|split; [|split]].
  - intros sec Hv -> [Hlo Hhi].
    rewrite bool_decide_true by done.
    by rewrite !bool_decide_true by done.
  - intros t Hv Hsec -> [Hlo Hhi].
    rewrite bool_decide_true by done.
    assert (Hnot : match seconds with
                   | Some sec => if bool_decide (0 < sec) && bool_decide (sec < 10 * Second)
                                 then Some sec else None
                   | None => None
                   end = None).
    { destruct seconds as [sec|]; [|done].
      repeat case_bool_decide; simpl; try done.
      exfalso. apply Hsec. exists sec. by split. }
    rewrite Hnot. rewrite !bool_decide_true by done. simpl.
    split; [done|].
    unfold Time_Sub, int64_max, int64_min, Second in *.
    repeat case_bool_decide; lia.
  - intros ->. by rewrite bool_decide_false by (intros Hne; by apply Hne).
  - intros Hsec Hdate. case_bool_decide; [|done].
    assert (Hnot : match seconds with
                   | Some sec => if bool_decide (0 < sec) && bool_decide (sec < 10 * Second)
                                 then Some sec else None
                   | None => None
                   end = None).
    { destruct seconds as [sec|]; [|done].
      repeat case_bool_decide; simpl; try done.
      exfalso. apply Hsec. exists sec. by split. }
    rewrite Hnot. destruct date as [t|]; [|done].
    repeat case_bool_decide; simpl; try done.
    exfalso. apply Hdate. exists t. by split.
Qed.

(** The three cases of the package's own test: [3], a date five seconds
    ahead, and [999]. *)
Lemma retryAfter_window_witness :
  retryAfter (rt:=Example.exampleRuntime) Example.noon
    (Header_Set ∅ "Retry-After" "3") (7 * Second) = 3 * Second
  ∧ retryAfter (rt:=Example.exampleRuntime) Example.noon
      (Header_Set ∅ "Retry-After" "Mon, 03 Mar 2025 12:00:05 GMT") (7 * Second)
    = 5 * Second
  ∧ retryAfter (rt:=Example.exampleRuntime) Example.noon
      (Header_Set ∅ "Retry-After" "999") (7 * Second) = 7 * Second.
Proof.
  pose proof (retryAfter_window (rt:=Example.exampleRuntime) Example.noon
                (Header_Set ∅ "Retry-After" "3") (7 * Second)) as (H1 & _).
  pose proof (retryAfter_window (rt:=Example.exampleRuntime) Example.noon
                (Header_Set ∅ "Retry-After" "Mon, 03 Mar 2025 12:00:05 GMT")
                (7 * Second)) as (_ & H2 & _).
  pose proof (retryAfter_window (rt:=Example.exampleRuntime) Example.noon
                (Header_Set ∅ "Retry-After" "999") (7 * Second)) as (_ & _ & _ & H3).
  split; [|split].
  - apply (H1 (3 * Second)); [discriminate | reflexivity | by vm_compute].
  - refine (proj1 (H2 (Example.noon + 5 * Second) _ _ _ _)).
    + discriminate.
    + intros (sec & Hsec & _). vm_compute in Hsec. discriminate.
    + reflexivity.
    + by vm_compute.
  - apply H3.
    + intros (sec & Hsec & _ & Hhi). vm_compute in Hsec.
      injection Hsec as <-. by vm_compute in Hhi.
    + intros (t & Ht & _). vm_compute in Ht. discriminate.
Defined.

(** ** Expiry derivation *)



Lemma append_nil_l (s : string) : EmptyString +:+ s = s.
Proof. reflexivity. Qed.

Lemma append_cons (c : ascii) (p s : string) :
  String c p +:+ s = String c (p +:+ s).
Proof. reflexivity. Qed.


Lemma dropBytes_app (p s : string) : dropBytes (String.length p) (p +:+ s) = s.
Proof. induction p as [|c p IH]; [done|]. rewrite append_cons. apply IH. Qed.




Section ExpiryFacts.
Context {rt : Runtime}.




End ExpiryFacts.


Section ExpiryParts.
Context {rt : Runtime}.

End ExpiryParts.



(** ** Merging metadata *)

(** Counterexample to C3 as stated: [mergeMeta] copies [negUntil] from the
    previous metadata, and [StoreMeta] stores its result as it is, so an
    entry that is negative stays negative; only [UpdateFreshness] resets
    the field. *)
Lemma mergeMeta_keeps_negUntil :
  negUntil (mergeMeta (rt:=Example.exampleRuntime)
              {| ETag := "v1"; LastModified := zeroTime;
                 expiresAt := Example.noon + 10 * Minute;
                 negUntil := Example.noon + 60 * Minute |}
              (Header_Set ∅ "ETag" "v2") (10 * Minute) (Example.noon + Second))
  ≠ zeroTime
  ∧ (negUntil <$> respCache.Meta
       (respCache.StoreMeta (rt:=Example.exampleRuntime) (Example.noon + Second)
          Example.negativeCache "u" (Header_Set ∅ "ETag" "v2")) "u")
    = Some (Example.noon + 60 * Minute)
  ∧ (negUntil <$> respCache.Meta
       (respCache.UpdateFreshness (rt:=Example.exampleRuntime) (Example.noon + Second)
          Example.negativeCache "u" (Header_Set ∅ "ETag" "v2")) "u")
    = Some zeroTime.
Proof.
  split; [vm_compute; discriminate|].
  split; vm_compute; reflexivity.
Qed.

(** C3, amended.  [mergeMeta] takes the [ETag] header when it is not empty
    and keeps the stored one otherwise; takes the [Last-Modified] header
    when it is not empty and parses as an HTTP date and keeps the stored
    one otherwise; recomputes the positive expiry from the headers; and
    leaves negative-until as it was.  On an existing entry
    [UpdateFreshness] stores that result with negative-until reset to zero,
    [StoreMeta] stores it unchanged; both move the entry to the front. *)
Theorem mergeMeta_merge `{rt : Runtime} (h : Header) (now : Time) :
  let et := Header_Get h "ETag" in
  let lm := Header_Get h "Last-Modified" in
  (∀ prev defTTL,
     let m := mergeMeta prev h defTTL now in
     (et ≠ EmptyString → ETag m = et)
     ∧ (et = EmptyString → ETag m = ETag prev)
     ∧ (∀ t, lm ≠ EmptyString → time_Parse TimeFormat lm = Some t →
          LastModified m = t)
     ∧ (lm = EmptyString ∨ time_Parse TimeFormat lm = None →
          LastModified m = LastModified prev)
     ∧ expiresAt m = Time_Add now (expiryFromHeaders h defTTL now)
     ∧ negUntil m = negUntil prev)
  ∧ (∀ c u it, respCache.tab c u = Some it →
       let m := mergeMeta (meta it) h (respCache.defTTL c) now in
       respCache.ll (respCache.UpdateFreshness now c u h)
         = {| url := u; body := body it; meta := set_negUntil m zeroTime |}
           :: respCache.others u (respCache.ll c)
       ∧ respCache.ll (respCache.StoreMeta now c u h)
         = {| url := u; body := body it; meta := m |}
           :: respCache.others u (respCache.ll c)).
Proof.
  intros et lm. split.
  - intros prev defTTL m. unfold m, mergeMeta, lastModifiedFrom. simpl.
    fold et. fold lm. repeat split.
    + intros Het. by rewrite bool_decide_true.
    + intros Het. by rewrite bool_decide_false by (intros Hne; by apply Hne).
    + intros t Hlm Hparse. by rewrite bool_decide_true, Hparse.
    + intros [Hlm | Hparse].
      * by rewrite bool_decide_false by (intros Hne; by apply Hne).
      * rewrite Hparse. by case_bool_decide.
  - intros c u it Htab m.
    destruct (rc_tab_Some_url _ _ _ Htab) as [Hu _].
    unfold respCache.UpdateFreshness, respCache.StoreMeta. rewrite Htab.
    unfold respCache.putFront, set_meta. simpl. rewrite Hu. done.
Qed.

(** Witness of C3 on the negative entry of [Example.negativeCache]. *)
Lemma mergeMeta_merge_witness :
  respCache.tab Example.negativeCache "u"
  = Some {| url := "u"; body := "{}";
            meta := {| ETag := "v1"; LastModified := zeroTime;
                       expiresAt := Example.noon + 10 * Minute;
                       negUntil := Example.noon + 60 * Minute |} |}
  ∧ respCache.ll (respCache.StoreMeta (rt:=Example.exampleRuntime)
       (Example.noon + Second) Example.negativeCache "u"
       (Header_Set ∅ "ETag" "v2"))
    = [ {| url := "u"; body := "{}";
           meta := {| ETag := "v2"; LastModified := zeroTime;
                      expiresAt := Example.noon + Second + 10 * Minute;
                      negUntil := Example.noon + 60 * Minute |} |} ].
Proof.
  split; [vm_compute; reflexivity|].
  pose proof (mergeMeta_merge (rt:=Example.exampleRuntime)
                (Header_Set ∅ "ETag" "v2") (Example.noon + Second)) as Hm.
  cbv zeta in Hm. destruct Hm as [_ Hm].
  destruct (Hm Example.negativeCache "u"%string _ eq_refl) as [_ Hmeta].
  rewrite Hmeta. vm_compute. reflexivity.
Defined.

(** ** The object decoder *)

Lemma decodeCase_inr `{rt : Runtime} {V : Type} (unmarshal : string -> goerror + V)
    (validate : V -> bool) (wrap : V -> Object) (class : string)
    (mm : gmap string any) (o : Object) :
  decodeCase unmarshal validate wrap class mm = inr o ->
  ∃ v, o = wrap v ∧ validate v = true.
Proof.
  unfold decodeCase. destruct (decodeInto unmarshal mm) as [e|v]; [done|].
  destruct (validate v) eqn:Hv; [|done]. intros [= <-]. eauto.
Qed.

(** Counterexample to C2 as stated: the guard of [ParseObject] is
    [m == nil]; an empty map that is not nil passes it, has the class name
    [""], and ends in the default case of the switch. *)
Lemma ParseObject_empty_map_is_unknown :
  ParseObject (rt:=Example.exampleRuntime) (Some ∅)
  = inl (errors_New "unknown RDAP objectClassName: ")
  ∧ ParseObject (rt:=Example.exampleRuntime) (Some ∅)
    ≠ inl (errors_New "nil RDAP object").
Proof. split; [vm_compute; reflexivity | vm_compute; discriminate]. Qed.

(** C2, amended.  [ParseObject] rejects the nil map with the error
    [nil RDAP object]; an empty map that is not nil gets the unknown-class
    error with an empty name.  For a map that is not nil it lower-cases
    [objectClassName] and takes the case of the canonical name it equals,
    so dispatch is case-insensitive; any other name yields the error
    [unknown RDAP objectClassName: ] followed by the name as written.  An
    object it returns is of the variant dispatched to, and its own class
    name lower-cases to the canonical name. *)
Theorem ParseObject_dispatch `{rt : Runtime} :
  ParseObject None = inl (errors_New "nil RDAP object")
  ∧ ParseObject (Some ∅) = inl (errors_New "unknown RDAP objectClassName: ")
  ∧ ∀ mm : gmap string any,
      let ocn := classNameOf mm in
      (lower ocn = "entity"%string →
         ParseObject (Some mm)
         = decodeCase json_Unmarshal_Entity Entity_Validate ObjEntity "entity" mm)
      ∧ (lower ocn = "domain"%string →
         ParseObject (Some mm)
         = decodeCase json_Unmarshal_Domain Domain_Validate ObjDomain "domain" mm)
      ∧ (lower ocn = "nameserver"%string →
         ParseObject (Some mm)
         = decodeCase json_Unmarshal_Nameserver Nameserver_Validate ObjNameserver
             "nameserver" mm)
      ∧ (lower ocn = "ip network"%string →
         ParseObject (Some mm)
         = decodeCase json_Unmarshal_IPNetwork IPNetwork_Validate ObjIPNetwork
             "ip network" mm)
      ∧ (lower ocn = "autnum"%string →
         ParseObject (Some mm)
         = decodeCase json_Unmarshal_Autnum Autnum_Validate ObjAutnum "autnum" mm)
      ∧ (lower ocn ∉ canonicalNames →
         ParseObject (Some mm)
         = inl (errors_New ("unknown RDAP objectClassName: " +:+ ocn)))
      ∧ (∀ o, ParseObject (Some mm) = inr o →
         lower ocn = canonicalName o
         ∧ lower (GetObjectClassName o) = canonicalName o).
Proof.
  split; [done|]. split.
  { unfold ParseObject, classNameOf. rewrite lookup_empty. reflexivity. }
  intros mm ocn. unfold ParseObject. fold ocn.
  split; [|split; [|split; [|split; [|split; [|split]]]]].
  - intros ->. reflexivity.
  - intros ->. reflexivity.
  - intros ->. reflexivity.
  - intros ->. reflexivity.
  - intros ->. reflexivity.
  - intros Hnot. unfold canonicalNames in Hnot.
    rewrite !not_elem_of_cons in Hnot.
    destruct Hnot as (H1 & H2 & H3 & H4 & H5 & _).
    by rewrite !bool_decide_false.
  - intros o Ho. revert Ho.
    repeat case_bool_decide; try done; intros Ho;
      apply decodeCase_inr in Ho as (v & -> & Hv); simpl;
      (split; [done|]);
      unfold Entity_Validate, Domain_Validate, Nameserver_Validate,
        IPNetwork_Validate, Autnum_Validate in Hv;
      by apply bool_decide_eq_true in Hv.
Qed.

(** Witness of C2: the class name [DoMaIn] is dispatched to the domain
    case, and the object keeps the spelling. *)
Lemma ParseObject_dispatch_witness :
  lower (rt:=Example.exampleRuntime)
    (classNameOf {[ "objectClassName"%string := JString "DoMaIn" ]})
  = "domain"%string
  ∧ ParseObject (rt:=Example.exampleRuntime)
      (Some {[ "objectClassName"%string := JString "DoMaIn" ]})
    = inr (ObjDomain
             {| Domain_Common := {| ObjectClassName := "DoMaIn"; commonMembers := ∅ |};
                Domain_members := ∅ |}).
Proof.
  split; [vm_compute; reflexivity|].
  pose proof (ParseObject_dispatch (rt:=Example.exampleRuntime)) as (_ & _ & Hd).
  destruct (Hd {[ "objectClassName"%string := JString "DoMaIn" ]})
    as (_ & Hdomain & _).
  rewrite Hdomain by (vm_compute; reflexivity).
  vm_compute. reflexivity.
Defined.

(** ** The fetch engine *)

Lemma set_respCache_same (c : Client) : set_respCache c (respCache c) = c.
Proof. by destruct c. Qed.

Lemma respCache_Get_miss (now : Time) (rc : respCache.t) (u : string) :
  fst (respCache.Get now rc u) = None -> respCache.Get now rc u = (None, rc).
Proof.
  unfold respCache.Get. destruct (respCache.tab rc u) as [it|]; [|done].
  destruct (_ && _); [done|]. by destruct (_ && _).
Qed.

Lemma respCache_Get_no_body (now : Time) (rc : respCache.t) (u : string) :
  respCache.FreshBody rc u = EmptyString -> fst (respCache.Get now rc u) = None.
Proof.
  unfold respCache.FreshBody, respCache.Get.
  destruct (respCache.tab rc u) as [it|]; [|done]. intros ->. simpl.
  rewrite andb_false_r. by destruct (_ && _).
Qed.

Lemma respCache_tab_StoreNegative (now : Time) (rc : respCache.t) (u : string)
    (d : Duration) :
  ∃ it, respCache.tab (respCache.StoreNegative now rc u d) u = Some it
        ∧ negUntil (meta it) = Time_Add now d
        ∧ body it = respCache.FreshBody rc u.
Proof.
  unfold respCache.StoreNegative, respCache.FreshBody.
  destruct (respCache.tab rc u) as [it|] eqn:Htab.
  - destruct (rc_tab_Some_url _ _ _ Htab) as [Hu _].
    exists (set_meta it (set_negUntil (meta it) (Time_Add now d))).
    split; [|done]. rewrite <- Hu.
    apply (rc_tab_putFront rc (set_meta it (set_negUntil (meta it) _))).
  - exists {| url := u; body := EmptyString;
              meta := {| ETag := EmptyString; LastModified := zeroTime;
                         expiresAt := zeroTime; negUntil := Time_Add now d |} |}.
    split; [|done].
    apply (rc_tab_cons_same rc {| url := u; body := EmptyString; meta := _ |}).
Qed.

Section FetchFacts.
Context {rt : Runtime} {W : Type} {world : World W}.

(** With no fresh body in the cache [getJSON] goes straight into the
    loop, the cache as it was. *)
Lemma getJSON_miss (fuel : nat) (c : Client) (w : W) (u : string) :
  fst (respCache.Get (respNow w) (respCache c) u) = None ->
  getJSON fuel c w u
  = loop fuel c w u
      {| attempt := 1; useValidators := true; didUnconditional := false |}.
Proof.
  intros Hmiss. unfold getJSON.
  rewrite (respCache_Get_miss _ _ _ Hmiss). by rewrite set_respCache_same.
Qed.

Lemma cachedDecoded_no_body (c : Client) (u : string) :
  respCache.FreshBody (respCache c) u = EmptyString -> cachedDecoded c u = None.
Proof.
  intros Hb. unfold cachedDecoded. rewrite Hb.
  by rewrite bool_decide_false by (intros Hne; by apply Hne).
Qed.
End FetchFacts.

(** C8.  When the response to a request of [getJSON] has status 404, the
    engine stores a negative entry for the URL that lasts 5 minutes from
    the reading of the cache clock, and fails with an error that names the
    status.  From then on a [Get] of the URL is a miss at any instant
    before those 5 minutes are over (the clock not reading before the zero
    instant), and at any instant at all when the entry carries no body. *)
Theorem getJSON_404_stores_negative `{rt : Runtime} `{world : World W}
    (c : Client) (w w1 : W) (u : string) (st : loopState) (resp : Response)
    (Hurl : validURL w u = true)
    (Hdo : hc_Do w (buildRequest c u (useValidators st)) = (inr resp, w1))
    (H404 : StatusCode resp = StatusNotFound) :
  let rc' := respCache.StoreNegative (respNow w1) (respCache c) u (5 * Minute) in
  let err := errors_New ("rdap GET " +:+ u +:+ ": " +:+ Status resp +:+ ": "
                         +:+ fst (readAllLimit (resp_Body resp) (512 * 2 ^ 10))) in
  (∀ fuel, loop (S fuel) c w u st = Some (inl err, set_respCache c rc', w1))
  ∧ (∀ fuel, useValidators st = true →
       fst (respCache.Get (respNow w) (respCache c) u) = None →
       getJSON (S fuel) c w u = Some (inl err, set_respCache c rc', w1))
  ∧ (∃ it, respCache.tab rc' u = Some it
           ∧ negUntil (meta it) = Time_Add (respNow w1) (5 * Minute))
  ∧ (∀ t', zeroTime <= respNow w1 → t' < Time_Add (respNow w1) (5 * Minute) →
       fst (respCache.Get t' rc' u) = None)
  ∧ (∀ t', respCache.FreshBody (respCache c) u = EmptyString →
       fst (respCache.Get t' rc' u) = None).
Proof.
  intros rc' err.
  assert (Hloop : ∀ fuel st', useValidators st' = useValidators st →
            loop (S fuel) c w u st' = Some (inl err, set_respCache c rc', w1)).
  { intros fuel st' Hst. simpl. unfold loopStep, loopBody.
    rewrite Hurl, Hst, Hdo. simpl. unfold onResponse.
    rewrite H404. unfold StatusNotFound, StatusNotModified, StatusOK.
    rewrite !(bool_decide_false (404 = _)) by lia.
    change (isRetryStatus 404) with false. cbn iota.
    rewrite bool_decide_true by done. done. }
  destruct (respCache_tab_StoreNegative (respNow w1) (respCache c) u (5 * Minute))
    as (it & Htab & Hneg & Hbody).
  split; [|split; [|split; [|split]]].
  - intros fuel. by apply Hloop.
  - intros fuel Huv Hmiss. rewrite getJSON_miss by done. by apply Hloop.
  - eauto.
  - intros t' Hclock Hlt. unfold respCache.Get, rc'. rewrite Htab, Hneg.
    unfold Time_IsZero, Time_Before, Time_Add, zeroTime, Minute, Second in *.
    rewrite bool_decide_false by lia. by rewrite bool_decide_true by lia.
  - intros t' Hnobody. apply respCache_Get_no_body.
    unfold respCache.FreshBody, rc'. rewrite Htab. congruence.
Qed.

(** Witness of C8: the default client against a server that answers 404,
    the cache read again one minute and one hour later. *)
Lemma getJSON_404_stores_negative_witness :
  (fst ∘ fst) <$> getJSON (rt:=Example.exampleRuntime) (world:=Example.scriptedWorld)
                    1 (Example.newClient 2) Example.world_404 Example.exampleURL
  = Some (inl (errors_New
       "rdap GET https://rdap.example/domain/example.com: 404 Not Found: not found"))
  ∧ fst (respCache.Get (Example.noon + 1 * Minute)
           (respCache.StoreNegative Example.noon
              (respCache (Example.newClient 2)) Example.exampleURL (5 * Minute))
           Example.exampleURL) = None
  ∧ fst (respCache.Get (Example.noon + 60 * Minute)
           (respCache.StoreNegative Example.noon
              (respCache (Example.newClient 2)) Example.exampleURL (5 * Minute))
           Example.exampleURL) = None.
Proof.
  pose proof (getJSON_404_stores_negative (rt:=Example.exampleRuntime)
                (world:=Example.scriptedWorld)
                (Example.newClient 2) Example.world_404
                (snd (Example.scriptedDo Example.world_404
                        (buildRequest (rt:=Example.exampleRuntime)
                           (Example.newClient 2) Example.exampleURL true)))
                Example.exampleURL Example.firstPass
                (Example.response 404 "404 Not Found" ∅ "not found")
                eq_refl eq_refl eq_refl) as Hw.
  cbv zeta in Hw. destruct Hw as (_ & Hget & _ & Hin & Hout).
  split; [|split].
  - rewrite (Hget 0%nat eq_refl eq_refl). vm_compute. reflexivity.
  - apply (Hin (Example.noon + 1 * Minute)); vm_compute; [discriminate | reflexivity].
  - apply (Hout (Example.noon + 60 * Minute)). vm_compute. reflexivity.
Defined.

(** Counterexample to C1 as stated: the pass that receives the 304
    leaves the loop body by [continue], and the post statement [attempt++]
    of the [for] runs as after every other [continue].  With one retry
    allowed, a server that answers 304, 503, 200 shows it: the 503 arrives
    in attempt 2, which is past the budget, so [getJSON] fails after two
    requests and never asks for the 200. *)
Lemma getJSON_304_retry_counts_as_attempt :
  (fst ∘ fst) <$> loopStep (rt:=Example.exampleRuntime) (world:=Example.scriptedWorld)
                    (Example.newClient 1) Example.world_304_503_200
                    Example.exampleURL Example.firstPass
  = Some (inl {| attempt := 2; useValidators := false; didUnconditional := true |})
  ∧ attempt Example.firstPass ≠ 2
  ∧ (fst ∘ fst) <$> getJSON (rt:=Example.exampleRuntime) (world:=Example.scriptedWorld)
                      10 (Example.newClient 1) Example.world_304_503_200
                      Example.exampleURL
    = Some (inl (errors_New
         "rdap GET https://rdap.example/domain/example.com: 503 Service Unavailable"))
  ∧ (length ∘ Example.sent ∘ snd)
      <$> getJSON (rt:=Example.exampleRuntime) (world:=Example.scriptedWorld)
            10 (Example.newClient 1) Example.world_304_503_200 Example.exampleURL
    = Some 2%nat.
Proof.
  split; [vm_compute; reflexivity|].
  split; [vm_compute; discriminate|].
  split; vm_compute; reflexivity.
Qed.

(** C1, amended.  When a 304 arrives and the cache holds no body that
    decodes for the URL: if no unconditional attempt has been made, the
    pass ends with validators switched off, the unconditional attempt
    marked as made, and the attempt counter incremented like after any
    other pass, the caches untouched; if one has been made, [getJSON]
    fails with the error [304 but no cached body].  Hence two 304 responses
    in a row end [getJSON] with that error after two requests, the second
    one built without validators. *)
Theorem getJSON_304_without_body `{rt : Runtime} `{world : World W}
    (c : Client) (w w1 : W) (u : string) (st : loopState) (resp : Response)
    (Hurl : validURL w u = true)
    (Hdo : hc_Do w (buildRequest c u (useValidators st)) = (inr resp, w1))
    (H304 : StatusCode resp = StatusNotModified)
    (Hnobody : cachedDecoded c u = None) :
  let err := errors_New ("rdap GET " +:+ u +:+ ": 304 but no cached body") in
  (didUnconditional st = false →
     loopStep c w u st
     = Some (inl {| attempt := int_add (attempt st) 1;
                    useValidators := false; didUnconditional := true |}, c, w1)
     ∧ (int64_min <= attempt st < int64_max →
        int_add (attempt st) 1 = attempt st + 1))
  ∧ (didUnconditional st = true →
     ∀ fuel, loop (S fuel) c w u st = Some (inl err, c, w1))
  ∧ (∀ fuel resp2 w2,
       didUnconditional st = false →
       validURL w1 u = true →
       hc_Do w1 (buildRequest c u false) = (inr resp2, w2) →
       StatusCode resp2 = StatusNotModified →
       loop (S (S fuel)) c w u st = Some (inl err, c, w2))
  ∧ (∀ fuel resp2 w2,
       st = {| attempt := 1; useValidators := true; didUnconditional := false |} →
       fst (respCache.Get (respNow w) (respCache c) u) = None →
       validURL w1 u = true →
       hc_Do w1 (buildRequest c u false) = (inr resp2, w2) →
       StatusCode resp2 = StatusNotModified →
       getJSON (S (S fuel)) c w u = Some (inl err, c, w2)).
Proof.
  intros err.
  assert (Hstep : ∀ w0 w0' st0 r,
            validURL w0 u = true →
            hc_Do w0 (buildRequest c u (useValidators st0)) = (inr r, w0') →
            StatusCode r = StatusNotModified →
            loopStep c w0 u st0
            = if didUnconditional st0
              then Some (inr (inl err), c, w0')
              else Some (inl {| attempt := int_add (attempt st0) 1;
                                useValidators := false;
                                didUnconditional := true |}, c, w0')).
  { intros w0 w0' st0 r Hu0 Hd0 Hr. unfold loopStep, loopBody.
    rewrite Hu0, Hd0. simpl. unfold onResponse.
    rewrite bool_decide_true by done. rewrite Hnobody.
    by destruct (didUnconditional st0). }
  assert (Htwo : ∀ fuel resp2 w2,
            didUnconditional st = false →
            validURL w1 u = true →
            hc_Do w1 (buildRequest c u false) = (inr resp2, w2) →
            StatusCode resp2 = StatusNotModified →
            loop (S (S fuel)) c w u st = Some (inl err, c, w2)).
  { intros fuel resp2 w2 Hdid Hurl1 Hdo2 H2.
    change (loop (S (S fuel)) c w u st)
      with ('(e, c', w') ← loopStep c w u st;
            match e with
            | inl st' => loop (S fuel) c' w' u st'
            | inr r => Some (r, c', w')
            end).
    rewrite (Hstep w w1 st resp Hurl Hdo H304), Hdid. simpl.
    rewrite (Hstep w1 w2 {| attempt := int_add (attempt st) 1;
                            useValidators := false; didUnconditional := true |}
               resp2 Hurl1 Hdo2 H2). done. }
  split; [|split; [|split]].
  - intros Hdid. split.
    + by rewrite (Hstep w w1 st resp Hurl Hdo H304), Hdid.
    + intros Hrange. unfold int_add. apply wrap64_small.
      unfold int64_min, int64_max in *. lia.
  - intros Hdid fuel. simpl.
    by rewrite (Hstep w w1 st resp Hurl Hdo H304), Hdid.
  - exact Htwo.
  - intros fuel resp2 w2 -> Hmiss Hurl1 Hdo2 H2.
    rewrite getJSON_miss by done. by eapply Htwo.
Qed.

(** Witness of C1: the default client against a server that always
    answers 304; the second request carries no validators. *)
Lemma getJSON_304_without_body_witness :
  (fst ∘ fst) <$> getJSON (rt:=Example.exampleRuntime) (world:=Example.scriptedWorld)
                    2 (Example.newClient 2) Example.world_304_304 Example.exampleURL
  = Some (inl (errors_New
       "rdap GET https://rdap.example/domain/example.com: 304 but no cached body")).
Proof.
  pose proof (getJSON_304_without_body (rt:=Example.exampleRuntime)
                (world:=Example.scriptedWorld)
                (Example.newClient 2) Example.world_304_304
                (snd (Example.scriptedDo Example.world_304_304
                        (buildRequest (rt:=Example.exampleRuntime)
                           (Example.newClient 2) Example.exampleURL true)))
                Example.exampleURL Example.firstPass
                (Example.response 304 "304 Not Modified" ∅ EmptyString)
                eq_refl eq_refl eq_refl eq_refl) as Hw.
  cbv zeta in Hw. destruct Hw as (_ & _ & _ & Hget).
  rewrite (Hget 0%nat (Example.response 304 "304 Not Modified" ∅ EmptyString)
             (snd (Example.scriptedDo
                     (snd (Example.scriptedDo Example.world_304_304
                             (buildRequest (rt:=Example.exampleRuntime)
                                (Example.newClient 2) Example.exampleURL true)))
                     (buildRequest (rt:=Example.exampleRuntime)
                        (Example.newClient 2) Example.exampleURL false)))
             eq_refl eq_refl eq_refl eq_refl eq_refl).
  reflexivity.
Defined.

(** ** Bootstrap resolution for IP space *)

Section PickFacts.
Context {rt : Runtime}.

(** A match that does not beat the best so far leaves it. *)
Lemma foldl_pick_keep (l : list (string * Z)) (b : string * Z) :
  (∀ y, y ∈ l → snd y <= snd b) -> foldl pick b l = b.
Proof.
  revert b. induction l as [|y l IH]; intros b Hall; [done|]. simpl.
  unfold pick at 2. rewrite bool_decide_false.
  - apply IH. intros z Hz. apply Hall. by apply list_elem_of_further.
  - specialize (Hall y (list_elem_of_here _ _)). lia.
Qed.

Lemma foldl_pick_below (l : list (string * Z)) (b : string * Z) (n : Z) :
  snd b < n -> (∀ y, y ∈ l → snd y < n) -> snd (foldl pick b l) < n.
Proof.
  revert b. induction l as [|y l IH]; intros b Hb Hall; [done|]. simpl.
  apply IH.
  - unfold pick. case_bool_decide; [|done].
    apply Hall. apply list_elem_of_here.
  - intros z Hz. apply Hall. by apply list_elem_of_further.
Qed.

(** The loops end on the first match of greatest prefix length. *)
Lemma foldl_pick_first_max (l1 l2 : list (string * Z)) (x b : string * Z) :
  snd b < snd x ->
  (∀ y, y ∈ l1 → snd y < snd x) ->
  (∀ y, y ∈ l2 → snd y <= snd x) ->
  foldl pick b (l1 ++ x :: l2) = x.
Proof.
  intros Hb H1 H2. rewrite foldl_app. simpl.
  pose proof (foldl_pick_below l1 b (snd x) Hb H1) as Hlt.
  unfold pick at 2. rewrite bool_decide_true by lia.
  by apply foldl_pick_keep.
Qed.

(** Every list of matches that is not empty has such a first maximum. *)
Lemma first_max_exists (l : list (string * Z)) :
  l ≠ [] ->
  ∃ l1 x l2, l = l1 ++ x :: l2
             ∧ (∀ y, y ∈ l1 → snd y < snd x)
             ∧ (∀ y, y ∈ l2 → snd y <= snd x).
Proof.
  induction l as [|y l IH]; [done|]. intros _.
  destruct l as [|z l].
  { exists [], y, []. repeat split; intros ? Hin; by apply elem_of_nil in Hin. }
  destruct IH as (l1 & x & l2 & Heq & H1 & H2); [done|].
  destruct (decide (snd x <= snd y)) as [Hle|Hgt].
  - exists [], y, (z :: l). split; [done|]. split.
    + intros ? Hin. by apply elem_of_nil in Hin.
    + intros v Hv. rewrite Heq in Hv.
      apply elem_of_app in Hv as [Hv|Hv]; [specialize (H1 v Hv); lia|].
      apply elem_of_cons in Hv as [->|Hv]; [done|].
      specialize (H2 v Hv). lia.
  - exists (y :: l1), x, l2. split; [by rewrite Heq|]. split; [|done].
    intros v Hv. apply elem_of_cons in Hv as [->|Hv]; [lia|by apply H1].
Qed.

Lemma scanCIDRs_fold (addr : Addr) (is6 : bool) (base : string)
    (cidrs : list string) (best : string * Z) :
  scanCIDRs addr is6 base cidrs best
  = foldl pick best (cidrMatches addr is6 base cidrs).
Proof.
  revert best. unfold cidrMatches.
  induction cidrs as [|raw cidrs IH]; intros best; [done|]. simpl.
  destruct (netip_ParsePrefix (strings_TrimSpace raw)) as [e|pfx]; [apply IH|].
  destruct (eqb (Addr_Is6 (Prefix_Addr pfx)) is6); simpl; [|apply IH].
  destruct (Prefix_Contains pfx addr); simpl; [|apply IH].
  unfold pick at 2. simpl. case_bool_decide; apply IH.
Qed.

Lemma scanServices_fold (addr : Addr) (is6 : bool) (svcs : list (list any))
    (best : string * Z) :
  scanServices addr is6 svcs best = foldl pick best (matches addr is6 svcs).
Proof.
  revert best. unfold matches.
  induction svcs as [|svc svcs IH]; intros best; [done|].
  cbn [flat_map]. rewrite foldl_app. unfold serviceMatches at 2.
  destruct svc as [|ks [|us [|more svc]]]; simpl; try apply IH.
  destruct (toStringSlice us) as [|u0 urls]; simpl; [apply IH|].
  rewrite IH. by rewrite scanCIDRs_fold.
Qed.

Lemma matches_bits_nonneg (addr : Addr) (is6 : bool) (svcs : list (list any))
    (y : string * Z) :
  y ∈ matches addr is6 svcs -> 0 <= snd y.
Proof.
  unfold matches. rewrite list_elem_of_In, in_flat_map.
  intros (svc & _ & Hy). apply list_elem_of_In in Hy.
  unfold serviceMatches in Hy.
  destruct svc as [|ks [|us [|more svc]]]; try by apply elem_of_nil in Hy.
  destruct (toStringSlice us) as [|u0 urls]; [by apply elem_of_nil in Hy|].
  unfold cidrMatches in Hy. apply list_elem_of_omap in Hy as (raw & _ & Hraw).
  destruct (netip_ParsePrefix _) as [e|pfx]; [done|].
  destruct (_ && _); [|done]. injection Hraw as <-. simpl.
  unfold Prefix_Bits. lia.
Qed.
End PickFacts.

Section BootstrapFacts.
Context {rt : Runtime} {W : Type} {world : World W}.

(** Fetching a bootstrap file does not touch the base cache. *)
Lemma fetchBootstrapGeneric_baseCache (c c1 : Client) (w w1 : W) (u : string)
    (r : goerror + bootstrapServices) :
  fetchBootstrapGeneric c w u = Some (r, c1, w1) ->
  rdapBaseCache c1 = rdapBaseCache c.
Proof.
  unfold fetchBootstrapGeneric.
  destruct (validURL w u); simpl; [|done].
  destruct (hc_Do w _) as [[e|resp] w'].
  { by intros [= _ <- _]. }
  repeat case_bool_decide; try by intros [= _ <- _].
  destruct (readAllLimit _ _) as [b [e|]]; [by intros [= _ <- _]|].
  destruct (json_Unmarshal_bootstrap b); by intros [= _ <- _].
Qed.
End BootstrapFacts.

(** Counterexample to C4 as stated: for the CIDR [10.1.2.3/8] the resolver
    looks up the address as written, [10.1.2.3], and returns the base of
    [10.1.0.0/16]; the network address of that CIDR is [10.0.0.0], whose
    longest match is [10.0.0.0/8] with another base. *)
Lemma resolveBaseFromBootstrapIP_cidr_not_masked :
  (fst ∘ fst) <$> resolveBaseFromBootstrapIP (rt:=Example.exampleRuntime)
                    (world:=Example.scriptedWorld) (Example.newClient 2)
                    Example.world_bootstrap "10.1.2.3/8"
  = Some (inr "https://b.example/rdap"%string)
  ∧ match netip_ParsePrefix (Runtime:=Example.exampleRuntime) "10.1.2.3/8" with
    | inr p => Some (Addr_String (Runtime:=Example.exampleRuntime)
                       (Prefix_Addr (Prefix_Masked p)))
    | inl _ => None
    end = Some "10.0.0.0"%string
  ∧ (fst ∘ fst) <$> resolveBaseFromBootstrapIP (rt:=Example.exampleRuntime)
                      (world:=Example.scriptedWorld) (Example.newClient 2)
                      Example.world_bootstrap "10.0.0.0"
    = Some (inr "https://a.example"%string)
  ∧ (fst ∘ fst) <$> resolveBaseFromBootstrapIP (rt:=Example.exampleRuntime)
                      (world:=Example.scriptedWorld) (Example.newClient 2)
                      Example.world_bootstrap "10.1.2.3/8"
    ≠ (fst ∘ fst) <$> resolveBaseFromBootstrapIP (rt:=Example.exampleRuntime)
                        (world:=Example.scriptedWorld) (Example.newClient 2)
                        Example.world_bootstrap "10.0.0.0".
Proof.
  split; [vm_compute; reflexivity|].
  split; [vm_compute; reflexivity|].
  split; [vm_compute; reflexivity|].
  vm_compute. discriminate.
Qed.

(** C4, amended.  The resolver looks up the address given, or for a CIDR
    the address written before the slash (host bits are not cleared).
    When the base cache has nothing under [ip:<addr>] and the bootstrap
    file chosen for the family of the address is fetched, consider the
    matches: the CIDR keys of the file that parse to a prefix of that
    family containing the address, each with the first URL of its entry,
    trailing slashes stripped.  With no match the result is the default
    base.  Otherwise the first match of greatest prefix length wins: its
    URL is returned and cached under [ip:<addr>], unless that URL is empty,
    in which case the default base is returned and nothing is cached. *)
Theorem resolveBaseFromBootstrapIP_longest_prefix `{rt : Runtime} `{world : World W}
    (c c1 : Client) (w w1 : W) (ipOrCIDR : string) (addr : Addr)
    (bc : ttlCache.t string) (bs : bootstrapServices)
    (Haddr : normalizeAddr ipOrCIDR = inr addr)
    (Hmiss : ttlCache.Get (baseNow w) (rdapBaseCache c) (ipKey addr) = (None, bc))
    (Hfetch : fetchBootstrapGeneric (set_rdapBaseCache c bc) w
                (selectFile (ipBootstrapURL c) (Addr_Is6 addr))
              = Some (inr bs, c1, w1)) :
  let cands := matches addr (Addr_Is6 addr) (Services bs) in
  (∀ p, netip_ParsePrefix ipOrCIDR = inr p → addr = Prefix_Addr p)
  ∧ (cands = [] →
       resolveBaseFromBootstrapIP c w ipOrCIDR = Some (inr fallbackBase, c1, w1))
  ∧ (cands ≠ [] →
       ∃ l1 base n l2, cands = l1 ++ (base, n) :: l2
                       ∧ (∀ y, y ∈ l1 → snd y < n)
                       ∧ (∀ y, y ∈ l2 → snd y <= n))
  ∧ (∀ l1 base n l2,
       cands = l1 ++ (base, n) :: l2 →
       (∀ y, y ∈ l1 → snd y < n) →
       (∀ y, y ∈ l2 → snd y <= n) →
       (base = EmptyString →
          resolveBaseFromBootstrapIP c w ipOrCIDR = Some (inr fallbackBase, c1, w1))
       ∧ (base ≠ EmptyString → 0 <= ttlCache.cap bc →
          ∃ bc', ttlCache.Set_ (baseNow w1) bc (ipKey addr) base = Some bc'
                 ∧ resolveBaseFromBootstrapIP c w ipOrCIDR
                   = Some (inr base, set_rdapBaseCache c1 bc', w1)
                 ∧ (1 <= ttlCache.cap bc →
                    ttlCache.tab bc' (ipKey addr)
                    = Some {| ttlCache.key := ipKey addr; ttlCache.val := base;
                              ttlCache.expires
                                := Time_Add (baseNow w1) (ttlCache.ttl bc) |}))).
Proof.
  intros cands.
  pose proof (fetchBootstrapGeneric_baseCache _ _ _ _ _ _ Hfetch) as Hbc.
  simpl in Hbc.
  assert (Hres : resolveBaseFromBootstrapIP c w ipOrCIDR
            = let best := foldl pick (EmptyString, -1) cands in
              if bool_decide (fst best ≠ EmptyString) then
                bc' ← ttlCache.Set_ (baseNow w1) bc (ipKey addr) (fst best);
                Some (inr (fst best), set_rdapBaseCache c1 bc', w1)
              else Some (inr fallbackBase, c1, w1)).
  { unfold resolveBaseFromBootstrapIP. rewrite Haddr, Hmiss, Hfetch. simpl.
    rewrite scanServices_fold, Hbc. done. }
  split; [|split; [|split]].
  - intros p Hp. unfold normalizeAddr in Haddr. rewrite Hp in Haddr.
    by injection Haddr as <-.
  - intros Hnil. rewrite Hres, Hnil. reflexivity.
  - intros Hne. destruct (first_max_exists cands Hne) as (l1 & [base n] & l2 & Hd).
    by exists l1, base, n, l2.
  - intros l1 base n l2 Hcands H1 H2.
    assert (Hn : -1 < n).
    { assert (Hin : (base, n) ∈ cands)
        by (rewrite Hcands; apply elem_of_app; right; apply list_elem_of_here).
      apply matches_bits_nonneg in Hin. simpl in Hin. lia. }
    assert (Hbest : foldl pick (EmptyString, -1) cands = (base, n))
      by (rewrite Hcands; by apply foldl_pick_first_max).
    rewrite Hres, Hbest. simpl. split.
    + intros ->. by rewrite bool_decide_false by (intros Hne; by apply Hne).
    + intros Hbase Hcap. rewrite bool_decide_true by done.
      destruct (ttlCache.Set_ (baseNow w1) bc (ipKey addr) base) as [bc'|] eqn:Hset.
      * exists bc'. split; [done|]. split; [done|]. intros Hcap1.
        destruct (tc_Set_front (baseNow w1) bc (ipKey addr) base Hcap1) as [l Hl].
        rewrite Hl in Hset. injection Hset as <-.
        apply (tc_tab_cons_same bc
                 {| ttlCache.key := ipKey addr; ttlCache.val := base;
                    ttlCache.expires := Time_Add (baseNow w1) (ttlCache.ttl bc) |} l).
      * exfalso. unfold ttlCache.Set_ in Hset.
        destruct (ttlCache.tab bc (ipKey addr)); [done|].
        by rewrite evictLoop_take in Hset.
Qed.

(** Witness of C4, the example of the specification: with the services
    [10.0.0.0/8 -> a] and [10.1.0.0/16 -> b], the lookup of [10.1.2.3]
    returns [b] and caches it under [ip:10.1.2.3]. *)
Lemma resolveBaseFromBootstrapIP_longest_prefix_witness :
  (fst ∘ fst) <$> resolveBaseFromBootstrapIP (rt:=Example.exampleRuntime)
                    (world:=Example.scriptedWorld) (Example.newClient 2)
                    Example.world_bootstrap "10.1.2.3"
  = Some (inr "https://b.example/rdap"%string)
  ∧ (fmap (M:=list) (fun it => (ttlCache.key it, ttlCache.val it))
       ∘ ttlCache.ll ∘ rdapBaseCache ∘ snd ∘ fst)
      <$> resolveBaseFromBootstrapIP (rt:=Example.exampleRuntime)
            (world:=Example.scriptedWorld) (Example.newClient 2)
            Example.world_bootstrap "10.1.2.3"
    = Some [("ip:10.1.2.3"%string, "https://b.example/rdap"%string)].
Proof.
  pose proof (resolveBaseFromBootstrapIP_longest_prefix
                (rt:=Example.exampleRuntime) (world:=Example.scriptedWorld)
                (Example.newClient 2)
                (set_respCache (Example.newClient 2)
                   (respCache.StoreMeta (rt:=Example.exampleRuntime) Example.noon
                      (respCache (Example.newClient 2))
                      "https://data.iana.org/rdap/ipv4.json" ∅))
                Example.world_bootstrap
                (snd (Example.scriptedDo Example.world_bootstrap
                        {| req_Method := "GET";
                           req_URL := "https://data.iana.org/rdap/ipv4.json";
                           req_Header := Header_Set ∅ "User-Agent"
                                           (ua (Example.newClient 2));
                           req_deadline := 10 * Second |}))
                "10.1.2.3"
                {| addr_is6 := false; addr_val := 167838211; addr_zone := EmptyString |}
                (rdapBaseCache (Example.newClient 2))
                Example.bootstrapValue
                eq_refl eq_refl eq_refl) as Hw.
  cbv zeta in Hw. destruct Hw as (_ & _ & _ & Hwin).
  destruct (Hwin [("https://a.example"%string, 8)] "https://b.example/rdap"%string
              16 [] eq_refl) as [_ Hcached].
  { intros y Hy. apply list_elem_of_singleton in Hy as ->. vm_compute. reflexivity. }
  { intros y Hy. by apply elem_of_nil in Hy. }
  destruct Hcached as (bc' & Hset & Hres & _);
    [discriminate | vm_compute; discriminate |].
  rewrite Hres. vm_compute in Hset. injection Hset as <-.
  split; vm_compute; reflexivity.
Defined.

(** ** The lists of both caches keep their keys distinct

    This is what lets the table [tab] be read off the list. *)

Lemma NoDup_fmap_filter {A B} (f : A -> B) (P : A -> Prop) `{∀ x, Decision (P x)}
    (l : list A) :
  NoDup (f <$> l) -> NoDup (f <$> filter P l).
Proof.
  induction l as [|x l IH]; [done|]. rewrite fmap_cons.
  intros [Hx Hl]%NoDup_cons. rewrite filter_cons.
  case_decide; [|by apply IH]. rewrite fmap_cons. apply NoDup_cons.
  split; [|by apply IH]. intros Hin. apply Hx.
  apply list_elem_of_fmap in Hin as (y & -> & Hy).
  apply list_elem_of_filter in Hy as [_ Hy].
  apply list_elem_of_fmap. eauto.
Qed.

Lemma NoDup_fmap_take {A B} (f : A -> B) (n : nat) (l : list A) :
  NoDup (f <$> l) -> NoDup (f <$> take n l).
Proof.
  intros Hnd. rewrite fmap_take.
  eapply sublist_NoDup; [exact Hnd|apply sublist_take].
Qed.

Lemma evictLoop_NoDup {A B} (f : A -> B) (capacity : Z) (l l' : list A) :
  evictLoop capacity l = Some l' -> NoDup (f <$> l) -> NoDup (f <$> l').
Proof.
  intros Hev Hnd. destruct (decide (0 <= capacity)) as [Hc|Hc].
  - rewrite evictLoop_take in Hev by done. injection Hev as <-.
    by apply NoDup_fmap_take.
  - rewrite evictLoop_negative in Hev by lia. done.
Qed.

Section RespCacheWf.
Import respCache.

Lemma rc_wf_putFront (c : t) (it : cachedResponse) : wf c -> wf (putFront c it).
Proof.
  unfold wf, putFront, others. simpl. intros Hnd. apply NoDup_cons. split.
  - intros Hin. apply list_elem_of_fmap in Hin as (y & Hy & Hin).
    apply list_elem_of_filter in Hin as [Hne _]. congruence.
  - by apply NoDup_fmap_filter.
Qed.

Lemma rc_wf_cons (c : t) (it : cachedResponse) :
  tab c (url it) = None -> wf c -> wf (set_ll c (it :: ll c)).
Proof.
  unfold wf, tab. simpl. intros Htab Hnd. apply NoDup_cons. split; [|done].
  intros Hin. apply list_elem_of_fmap in Hin as (y & Hy & Hin).
  assert (Hf : y ∈ filter (fun e => url e = url it) (ll c))
    by (apply list_elem_of_filter; split; [congruence|done]).
  destruct (filter _ (ll c)); [by apply elem_of_nil in Hf|done].
Qed.

(** X1.  Every operation of the response cache keeps the URLs of its
    entries distinct: [Get], [UpdateFreshness], [Store], [StoreMeta],
    [StoreNegative] and [Resize] map a cache without duplicates to a cache
    without duplicates. *)
Lemma respCache_wf_preserved `{rt : Runtime} (now : Time) (c : t) (u : string) :
  wf c ->
  wf (snd (Get now c u))
  ∧ (∀ hdr, wf (UpdateFreshness now c u hdr))
  ∧ (∀ b hdr c', Store now c u b hdr = Some c' → wf c')
  ∧ (∀ hdr, wf (StoreMeta now c u hdr))
  ∧ (∀ d, wf (StoreNegative now c u d))
  ∧ (∀ n c', Resize c n = Some c' → wf c').
Proof.
  intros Hwf. split; [|split; [|split; [|split; [|split]]]].
  - unfold Get. destruct (tab c u) as [it|]; [|done].
    destruct (_ && _); [done|]. destruct (_ && _); [|done].
    by apply rc_wf_putFront.
  - intros hdr. unfold UpdateFreshness. destruct (tab c u) as [it|]; [|done].
    by apply rc_wf_putFront.
  - intros b hdr c'. unfold Store. destruct (tab c u) as [it|] eqn:Htab.
    + intros [= <-]. by apply rc_wf_putFront.
    + destruct (evictLoop _ _) as [l|] eqn:Hev; [|done]. intros [= <-].
      unfold wf. simpl. eapply evictLoop_NoDup; [exact Hev|].
      by apply (rc_wf_cons c (Build_cachedResponse u b (makeMeta hdr (defTTL c) now))).
  - intros hdr. unfold StoreMeta. destruct (tab c u) as [it|] eqn:Htab.
    + by apply rc_wf_putFront.
    + by apply (rc_wf_cons c (Build_cachedResponse u EmptyString
                                 (makeMeta hdr (defTTL c) now))).
  - intros d. unfold StoreNegative. destruct (tab c u) as [it|] eqn:Htab.
    + by apply rc_wf_putFront.
    + by apply (rc_wf_cons c (Build_cachedResponse u EmptyString
                                 (Build_cachedMeta EmptyString zeroTime zeroTime
                                    (Time_Add now d)))).
  - intros n c'. unfold Resize.
    destruct (evictLoop _ _) as [l|] eqn:Hev; [|done]. intros [= <-].
    unfold wf. simpl. by eapply evictLoop_NoDup.
Qed.
End RespCacheWf.

Section TtlCacheWf.
Context {T : Type}.
Import ttlCache.

(** X6.  Both operations of the TTL cache keep the keys of its items
    distinct: [Get] and [Set] map a cache without duplicates to a cache
    without duplicates. *)
Lemma ttlCache_wf_preserved (now : Time) (c : t T) (k : string) :
  wf c ->
  wf (snd (Get now c k)) ∧ (∀ v c', Set_ now c k v = Some c' → wf c').
Proof.
  intros Hwf.
  assert (Hfront : ∀ it, key it = k → NoDup (key <$> it :: others k (ll c))).
  { intros it Hk. rewrite fmap_cons. apply NoDup_cons. split.
    - intros Hin. apply list_elem_of_fmap in Hin as (y & Hy & Hin).
      apply list_elem_of_filter in Hin as [Hne _]. congruence.
    - by apply NoDup_fmap_filter. }
  split.
  - unfold Get. destruct (tab c k) as [it|] eqn:Htab; [|done].
    destruct (tc_tab_Some_key _ _ _ Htab) as [Hk _].
    destruct (Time_Before _ _);
      [by apply (Hfront it) | by apply NoDup_fmap_filter].
  - intros v c'. unfold Set_. destruct (tab c k) as [it|] eqn:Htab.
    + intros [= <-].
      by apply (Hfront {| key := k; val := v; expires := Time_Add now (ttl c) |}).
    + destruct (evictLoop _ _) as [l|] eqn:Hev; [|done]. intros [= <-].
      unfold wf. simpl. eapply evictLoop_NoDup; [exact Hev|].
      rewrite fmap_cons. apply NoDup_cons. split; [|done]. cbn [key].
      intros Hin. apply list_elem_of_fmap in Hin as (y & Hy & Hin).
      unfold tab in Htab.
      assert (Hf : y ∈ filter (fun e => key e = k) (ll c))
        by (apply list_elem_of_filter; split; [congruence|done]).
      destruct (filter _ (ll c)); [by apply elem_of_nil in Hf|done].
Qed.
End TtlCacheWf.

(** * Further properties *)

(** ** Response cache: eviction, round trips, negative entries *)

Lemma head_filter_take {A} (P : A -> Prop) `{∀ x, Decision (P x)} (n : nat)
    (l : list A) (x : A) :
  head (filter P (take n l)) = Some x -> head (filter P l) = Some x.
Proof.
  revert n. induction l as [|y l IH]; intros [|n]; simpl; try done.
  rewrite !filter_cons. case_decide; [done|]. apply IH.
Qed.

Lemma removelast_cons_take {A} (x : A) (l : list A) :
  l ≠ [] -> take (length l) (x :: l) = x :: removelast l.
Proof.
  destruct l as [|y l]; [done|]. intros _.
  rewrite removelast_take. simpl. by rewrite Nat.sub_0_r.
Qed.

Lemma bool_decide_length_pos (s : string) :
  bool_decide (0 < String.length s)%nat = bool_decide (s ≠ EmptyString).
Proof. apply bool_decide_ext, string_length_pos. Qed.

(** Witness of X1: a negative entry added to [Example.fullCache]. *)
Lemma respCache_wf_preserved_witness :
  respCache.wf Example.fullCache
  ∧ respCache.wf (respCache.StoreNegative Example.noon Example.fullCache "y" (5 * Minute)).
Proof.
  assert (Hwf : respCache.wf Example.fullCache).
  { unfold respCache.wf. simpl. apply NoDup_singleton. }
  split; [exact Hwf|].
  pose proof (respCache_wf_preserved (rt:=Example.exampleRuntime) Example.noon
                Example.fullCache "y" Hwf) as (_ & _ & _ & _ & Hneg & _).
  apply Hneg.
Defined.

(** X2.  [respCache.Resize(n)] with [n >= 0] sets the capacity and keeps
    the [n] most recently used entries, in their order and unaltered; with
    [n < 0] it panics, the list running empty before the loop ends. *)
Theorem respCache_Resize_keeps_mru (c : respCache.t) (n : Z) :
  (0 <= n →
     respCache.Resize c n
     = Some {| respCache.cap := n;
               respCache.ll := take (Z.to_nat n) (respCache.ll c);
               respCache.defTTL := respCache.defTTL c |})
  ∧ (n < 0 → respCache.Resize c n = None)
  ∧ (∀ c' u it, respCache.Resize c n = Some c' →
       respCache.tab c' u = Some it → respCache.tab c u = Some it).
Proof.
  split; [|split].
  - intros Hn. unfold respCache.Resize. by rewrite evictLoop_take.
  - intros Hn. unfold respCache.Resize. by rewrite evictLoop_negative.
  - intros c' u it. unfold respCache.Resize.
    destruct (decide (0 <= n)) as [Hn|Hn].
    + rewrite evictLoop_take by done. simpl. intros [= <-].
      unfold respCache.tab. simpl. apply head_filter_take.
    + by rewrite evictLoop_negative by lia.
Qed.

(** Witness of X2: a cache of three entries shrunk to one. *)
Lemma respCache_Resize_keeps_mru_witness :
  0 <= 1
  ∧ (respCache.ll <$> respCache.Resize
       (respCache.set_ll Example.negativeCache
          (respCache.ll Example.fullCache ++ respCache.ll Example.negativeCache
           ++ respCache.ll Example.fullCache)) 1)
    = Some (respCache.ll Example.fullCache).
Proof.
  split; [lia|].
  rewrite (proj1 (respCache_Resize_keeps_mru _ 1)) by lia. reflexivity.
Defined.

(** X3.  On a cache of capacity at least one, [Store] followed by [Get] of
    the same URL returns the stored body exactly while the clock is before
    the instant of the store plus the TTL derived from the headers, and
    the body is not empty; [Store] also ends any negative state of the
    URL. *)
Theorem respCache_Store_then_Get `{rt : Runtime} (now : Time) (c : respCache.t)
    (u b : string) (hdr : Header) (Hcap : 1 <= respCache.cap c) :
  ∃ c', respCache.Store now c u b hdr = Some c'
        ∧ respCache.tab c' u
          = Some {| url := u; body := b;
                    meta := makeMeta hdr (respCache.defTTL c) now |}
        ∧ ∀ now',
            fst (respCache.Get now' c' u)
            = if bool_decide
                   (now' < Time_Add now
                             (expiryFromHeaders hdr (respCache.defTTL c) now))
                 && bool_decide (b ≠ EmptyString)
              then Some b else None.
Proof.
  set (resp := {| url := u; body := b;
                  meta := makeMeta hdr (respCache.defTTL c) now |}).
  assert (Hstore : ∃ l, respCache.Store now c u b hdr
                        = Some (respCache.set_ll c (resp :: l))).
  { unfold respCache.Store. fold resp.
    destruct (respCache.tab c u); [by eexists|].
    rewrite evictLoop_take by lia.
    destruct (Z.to_nat (respCache.cap c)) as [|k] eqn:Ek; [lia|]. simpl.
    by eexists. }
  destruct Hstore as [l Hstore]. eexists. split; [exact Hstore|].
  assert (Htab : respCache.tab (respCache.set_ll c (resp :: l)) u = Some resp).
  { unfold respCache.tab. simpl. rewrite filter_cons. by case_decide. }
  split; [exact Htab|]. intros now'. unfold respCache.Get. rewrite Htab.
  unfold resp, makeMeta, Time_IsZero, Time_Before. simpl.
  rewrite bool_decide_length_pos.
  by destruct (bool_decide (now' < _)), (bool_decide (b ≠ EmptyString)).
Qed.

(** Witness of X3: a body stored at noon under [max-age=60]. *)
Lemma respCache_Store_then_Get_witness :
  1 <= respCache.cap Example.fullCache
  ∧ ∃ c', respCache.Store (rt:=Example.exampleRuntime) Example.noon
            Example.fullCache "u" "{}" (Header_Set ∅ "Cache-Control" "max-age=60")
          = Some c'
          ∧ fst (respCache.Get (Example.noon + 59 * Second) c' "u") = Some "{}"%string
          ∧ fst (respCache.Get (Example.noon + 60 * Second) c' "u") = None.
Proof.
  split; [vm_compute; discriminate|].
  destruct (respCache_Store_then_Get (rt:=Example.exampleRuntime) Example.noon
              Example.fullCache "u" "{}" (Header_Set ∅ "Cache-Control" "max-age=60"))
    as (c' & Hstore & _ & Hget); [vm_compute; discriminate|].
  exists c'. split; [exact Hstore|]. rewrite !Hget.
  split; vm_compute; reflexivity.
Defined.

(** X4.  [Store] on a URL that has an entry replaces it in place and
    evicts nothing.  On a URL without an entry it puts the new entry at
    the front and then keeps the first [cap] entries: nothing is dropped
    below capacity, exactly the least recently used entry is dropped at
    capacity, and a negative capacity panics. *)
Theorem respCache_Store_evicts_lru `{rt : Runtime} (now : Time) (c : respCache.t)
    (u b : string) (hdr : Header) :
  let resp := {| url := u; body := b;
                 meta := makeMeta hdr (respCache.defTTL c) now |} in
  (∀ it, respCache.tab c u = Some it →
     respCache.Store now c u b hdr
     = Some (respCache.set_ll c (resp :: respCache.others u (respCache.ll c))))
  ∧ (respCache.tab c u = None → 0 <= respCache.cap c →
     respCache.Store now c u b hdr
     = Some (respCache.set_ll c
               (take (Z.to_nat (respCache.cap c)) (resp :: respCache.ll c))))
  ∧ (respCache.tab c u = None →
     Z.of_nat (length (respCache.ll c)) < respCache.cap c →
     respCache.Store now c u b hdr
     = Some (respCache.set_ll c (resp :: respCache.ll c)))
  ∧ (respCache.tab c u = None →
     1 <= respCache.cap c →
     Z.of_nat (length (respCache.ll c)) = respCache.cap c →
     respCache.Store now c u b hdr
     = Some (respCache.set_ll c (resp :: removelast (respCache.ll c))))
  ∧ (respCache.tab c u = None → respCache.cap c < 0 →
     respCache.Store now c u b hdr = None).
Proof.
  intros resp. split; [|split; [|split; [|split]]].
  - intros it Htab. unfold respCache.Store. by rewrite Htab.
  - intros Htab Hcap. unfold respCache.Store. rewrite Htab.
    by rewrite evictLoop_take.
  - intros Htab Hlen. unfold respCache.Store. rewrite Htab.
    rewrite evictLoop_take by lia. rewrite take_ge; [done|]. simpl. lia.
  - intros Htab Hcap Hlen. unfold respCache.Store. rewrite Htab.
    rewrite evictLoop_take by lia. fold resp.
    replace (Z.to_nat (respCache.cap c)) with (length (respCache.ll c)) by lia.
    rewrite removelast_cons_take; [done|].
    intros Hnil. rewrite Hnil in Hlen. simpl in Hlen. lia.
  - intros Htab Hcap. unfold respCache.Store. rewrite Htab.
    by rewrite evictLoop_negative.
Qed.

(** Witness of X4: storing [y] on the full cache of capacity 1 drops [x]. *)
Lemma respCache_Store_evicts_lru_witness :
  respCache.tab Example.fullCache "y" = None
  ∧ 1 <= respCache.cap Example.fullCache
  ∧ Z.of_nat (length (respCache.ll Example.fullCache)) = respCache.cap Example.fullCache
  ∧ (fmap (M:=list) url ∘ respCache.ll)
      <$> respCache.Store (rt:=Example.exampleRuntime) Example.noon
            Example.fullCache "y" "Y" ∅
    = Some ["y"%string].
Proof.
  split; [reflexivity|]. split; [vm_compute; discriminate|]. split; [reflexivity|].
  pose proof (respCache_Store_evicts_lru (rt:=Example.exampleRuntime) Example.noon
                Example.fullCache "y" "Y" ∅) as Hs.
  cbv zeta in Hs. destruct Hs as (_ & _ & _ & Hfull & _).
  rewrite Hfull; [reflexivity | reflexivity | vm_compute; discriminate | reflexivity].
Defined.

(** X5.  [StoreNegative] on an entry that has a body keeps the body and
    the validators; [Get] misses until the negative window is over and
    from then on returns the body again for as long as the positive expiry
    lasts. *)
Theorem respCache_negative_window_ends (now : Time) (c : respCache.t) (u : string)
    (d : Duration) (it : cachedResponse)
    (Htab : respCache.tab c u = Some it)
    (Hbody : body it ≠ EmptyString)
    (Hnz : Time_Add now d ≠ zeroTime) :
  let c' := respCache.StoreNegative now c u d in
  respCache.FreshBody c' u = body it
  ∧ respCache.Meta c' u = Some (set_negUntil (meta it) (Time_Add now d))
  ∧ ∀ t', fst (respCache.Get t' c' u)
          = if bool_decide (t' < Time_Add now d) then None
            else if bool_decide (t' < expiresAt (meta it)) then Some (body it)
            else None.
Proof.
  intros c'.
  destruct (rc_tab_Some_url _ _ _ Htab) as [Hu _].
  assert (Htab' : respCache.tab c' u
            = Some (set_meta it (set_negUntil (meta it) (Time_Add now d)))).
  { unfold c', respCache.StoreNegative. rewrite Htab. simpl. rewrite <- Hu.
    apply (rc_tab_putFront c (set_meta it (set_negUntil (meta it) _))). }
  split; [|split].
  - unfold respCache.FreshBody. by rewrite Htab'.
  - unfold respCache.Meta. by rewrite Htab'.
  - intros t'. unfold respCache.Get. rewrite Htab'. simpl.
    unfold Time_IsZero, Time_Before.
    rewrite (bool_decide_false (Time_Add now d = zeroTime)) by done. simpl.
    destruct (bool_decide (t' < Time_Add now d)); [done|].
    destruct (bool_decide (t' < expiresAt (meta it))); [|done]. simpl.
    apply string_length_pos in Hbody. by rewrite bool_decide_true.
Qed.

(** Witness of X5 on the negative entry of [Example.negativeCache]'s
    positive twin: a fresh entry made negative for one minute. *)
Lemma respCache_negative_window_ends_witness :
  respCache.tab Example.fullCache "x"
  = Some {| url := "x"; body := "X";
            meta := {| ETag := EmptyString; LastModified := zeroTime;
                       expiresAt := Example.noon + 10 * Minute;
                       negUntil := zeroTime |} |}
  ∧ fst (respCache.Get (Example.noon + 30 * Second)
           (respCache.StoreNegative Example.noon Example.fullCache "x" Minute) "x")
    = None
  ∧ fst (respCache.Get (Example.noon + 2 * Minute)
           (respCache.StoreNegative Example.noon Example.fullCache "x" Minute) "x")
    = Some "X"%string.
Proof.
  split; [reflexivity|].
  pose proof (respCache_negative_window_ends Example.noon Example.fullCache "x"
                Minute _ eq_refl) as Hn.
  cbv zeta in Hn. destruct Hn as (_ & _ & Hget);
    [discriminate | vm_compute; discriminate |].
  rewrite !Hget. split; vm_compute; reflexivity.
Defined.

(** ** TTL-LRU cache: expiry, eviction, deferred resize *)

Section TtlCacheMore.
Context {T : Type}.
Import ttlCache.

Lemma tc_tab_others (c : t T) (k : string) :
  tab (set_ll c (others k (ll c))) k = None.
Proof.
  unfold tab, others. simpl. induction (ll c) as [|e l IH]; [done|].
  rewrite filter_cons. case_decide; [|done].
  rewrite filter_cons. by case_decide.
Qed.

Lemma tc_tab_Resize (c : t T) (n : Z) (k : string) :
  tab (Resize c n) k = tab c k.
Proof. done. Qed.
End TtlCacheMore.

(** Witness of X6: a first item set in a fresh cache. *)
Lemma ttlCache_wf_preserved_witness :
  ttlCache.wf (ttlCache.newTTLCache (T:=Z) 100 2)
  ∧ ∀ c', ttlCache.Set_ 1000 (ttlCache.newTTLCache (T:=Z) 100 2) "a" 1 = Some c' →
          ttlCache.wf c'.
Proof.
  assert (Hwf : ttlCache.wf (ttlCache.newTTLCache (T:=Z) 100 2))
    by apply NoDup_nil_2.
  split; [exact Hwf|].
  apply (proj2 (ttlCache_wf_preserved 1000 (ttlCache.newTTLCache 100 2) "a" Hwf) 1).
Defined.

(** X7.  On a cache of capacity at least one, [Set(k, v)] at [t] makes
    [Get(k)] return [v] at every instant strictly before [t + ttl] and miss
    from [t + ttl] on; such a miss also removes the entry. *)
Theorem ttlCache_Set_Get_expiry {T : Type} (c : ttlCache.t T) (k : string) (v : T)
    (t0 : Time) (Hcap : 1 <= ttlCache.cap c) :
  ∃ c1, ttlCache.Set_ t0 c k v = Some c1
        ∧ (∀ t', fst (ttlCache.Get t' c1 k)
                 = if bool_decide (t' < t0 + ttlCache.ttl c) then Some v else None)
        ∧ (∀ t', t0 + ttlCache.ttl c <= t' →
                 ttlCache.tab (snd (ttlCache.Get t' c1 k)) k = None).
Proof.
  destruct (tc_Set_front t0 c k v Hcap) as [l Hset].
  set (it := {| ttlCache.key := k; ttlCache.val := v;
                ttlCache.expires := Time_Add t0 (ttlCache.ttl c) |}) in Hset.
  set (c1 := ttlCache.set_ll c (it :: l)) in Hset.
  assert (Htab : ttlCache.tab c1 k = Some it) by apply (tc_tab_cons_same c it l).
  exists c1. split; [done|]. split.
  - intros t'. unfold ttlCache.Get. rewrite Htab. unfold Time_Before. simpl.
    unfold Time_Add. by destruct (bool_decide _).
  - intros t' Hle. unfold ttlCache.Get. rewrite Htab. unfold Time_Before. simpl.
    unfold Time_Add. rewrite bool_decide_false by lia. simpl.
    apply (tc_tab_others c1 k).
Qed.

(** Witness of X7 on a fresh cache with TTL 100. *)
Lemma ttlCache_Set_Get_expiry_witness :
  1 <= ttlCache.cap (ttlCache.newTTLCache (T:=Z) 100 2)
  ∧ ∃ c1, ttlCache.Set_ 1000 (ttlCache.newTTLCache (T:=Z) 100 2) "a" 7 = Some c1
          ∧ fst (ttlCache.Get 1099 c1 "a") = Some 7
          ∧ fst (ttlCache.Get 1100 c1 "a") = None.
Proof.
  split; [vm_compute; discriminate|].
  destruct (ttlCache_Set_Get_expiry (ttlCache.newTTLCache (T:=Z) 100 2) "a" 7 1000)
    as (c1 & Hset & Hget & _); [vm_compute; discriminate|].
  exists c1. split; [exact Hset|]. rewrite !Hget. split; reflexivity.
Defined.

(** X8.  [Set] on a key that has an entry evicts nothing.  On a key without
    an entry it puts the new item at the front and keeps the first [cap]
    items: nothing is dropped below capacity and exactly the least recently
    used item is dropped at capacity, after which its key misses. *)
Theorem ttlCache_Set_evicts_lru {T : Type} (now : Time) (c : ttlCache.t T)
    (k : string) (v : T) :
  let it := {| ttlCache.key := k; ttlCache.val := v;
               ttlCache.expires := Time_Add now (ttlCache.ttl c) |} in
  (ttlCache.tab c k = None → 0 <= ttlCache.cap c →
     ttlCache.Set_ now c k v
     = Some (ttlCache.set_ll c
               (take (Z.to_nat (ttlCache.cap c)) (it :: ttlCache.ll c))))
  ∧ (ttlCache.tab c k = None →
     Z.of_nat (length (ttlCache.ll c)) < ttlCache.cap c →
     ttlCache.Set_ now c k v = Some (ttlCache.set_ll c (it :: ttlCache.ll c)))
  ∧ (∀ l lru, ttlCache.tab c k = None → ttlCache.wf c →
     ttlCache.ll c = l ++ [lru] →
     Z.of_nat (length (ttlCache.ll c)) = ttlCache.cap c →
     ttlCache.Set_ now c k v = Some (ttlCache.set_ll c (it :: l))
     ∧ ttlCache.tab (ttlCache.set_ll c (it :: l)) (ttlCache.key lru) = None).
Proof.
  intros it. split; [|split].
  - intros Htab Hcap. unfold ttlCache.Set_. rewrite Htab.
    by rewrite evictLoop_take.
  - intros Htab Hlen. unfold ttlCache.Set_. rewrite Htab.
    rewrite evictLoop_take by lia. rewrite take_ge; [done|]. simpl. lia.
  - intros l lru Htab Hwf Hll Hlen. unfold ttlCache.Set_. rewrite Htab.
    rewrite evictLoop_take by lia. fold it. rewrite Hll in *.
    rewrite length_app in Hlen. simpl in Hlen.
    replace (Z.to_nat (ttlCache.cap c)) with (S (length l)) by lia.
    simpl. rewrite take_app_length. split; [done|].
    unfold ttlCache.wf in Hwf. rewrite Hll, fmap_app in Hwf.
    apply NoDup_app in Hwf as (_ & Hdisj & _).
    unfold ttlCache.tab. simpl. rewrite filter_cons.
    assert (Hk : ttlCache.key lru ≠ k).
    { intros Hk. unfold ttlCache.tab in Htab. rewrite Hll, filter_app in Htab.
      rewrite filter_cons in Htab. rewrite decide_True in Htab by done.
      by destruct (filter _ l). }
    rewrite decide_False by (simpl; congruence).
    destruct (filter _ l) as [|e l'] eqn:Hf; [done|]. exfalso.
    assert (He : e ∈ filter (λ e, ttlCache.key e = ttlCache.key lru) l)
      by (rewrite Hf; apply list_elem_of_here).
    apply list_elem_of_filter in He as [Hke He].
    apply (Hdisj (ttlCache.key lru)).
    + apply list_elem_of_fmap. eauto.
    + simpl. apply list_elem_of_here.
Qed.

(** Witness of X8, the eviction law: capacity 2, [Set a; Set b; Get a;
    Set c] leaves [c; a] and [b] misses. *)
Lemma ttlCache_Set_evicts_lru_witness :
  ∃ c1 c2 c4,
    ttlCache.Set_ 1000 (ttlCache.newTTLCache (T:=Z) 100 2) "a" 1 = Some c1
    ∧ ttlCache.Set_ 1000 c1 "b" 2 = Some c2
    ∧ ttlCache.tab (snd (ttlCache.Get 1000 c2 "a")) "c" = None
    ∧ ttlCache.wf (snd (ttlCache.Get 1000 c2 "a"))
    ∧ ttlCache.Set_ 1000 (snd (ttlCache.Get 1000 c2 "a")) "c" 3 = Some c4
    ∧ ttlCache.tab c4 "b" = None
    ∧ fst (ttlCache.Get 1000 c4 "a") = Some 1.
Proof.
  eexists _, _, _. split; [reflexivity|]. split; [reflexivity|].
  split; [reflexivity|].
  assert (Hwf : ttlCache.wf
            (snd (ttlCache.Get 1000
               (ttlCache.set_ll (ttlCache.newTTLCache (T:=Z) 100 2)
                  [ {| ttlCache.key := "b"; ttlCache.val := 2;
                       ttlCache.expires := 1100 |};
                    {| ttlCache.key := "a"; ttlCache.val := 1;
                       ttlCache.expires := 1100 |} ]) "a"))).
  { apply (bool_decide_unpack _). vm_compute. exact I. }
  split; [exact Hwf|].
  pose proof (ttlCache_Set_evicts_lru 1000
                (snd (ttlCache.Get 1000
                   (ttlCache.set_ll (ttlCache.newTTLCache (T:=Z) 100 2)
                      [ {| ttlCache.key := "b"; ttlCache.val := 2;
                           ttlCache.expires := 1100 |};
                        {| ttlCache.key := "a"; ttlCache.val := 1;
                           ttlCache.expires := 1100 |} ]) "a")) "c" 3) as Hs.
  cbv zeta in Hs. destruct Hs as (_ & _ & Hfull).
  destruct (Hfull [ {| ttlCache.key := "a"; ttlCache.val := 1;
                       ttlCache.expires := 1100 |} ]
                  {| ttlCache.key := "b"; ttlCache.val := 2;
                     ttlCache.expires := 1100 |}
                  eq_refl Hwf eq_refl eq_refl) as [Hset Hgone].
  split; [exact Hset|]. split; [exact Hgone|]. reflexivity.
Defined.

(** X9.  [ttlCache.Resize] only records the new capacity: it drops no item
    and cannot panic.  The next [Set] of a key without an entry brings the
    list down to the new capacity, or panics if that capacity is
    negative. *)
Theorem ttlCache_Resize_defers_eviction {T : Type} (now : Time) (c : ttlCache.t T)
    (n : Z) (k : string) (v : T) :
  ttlCache.ll (ttlCache.Resize c n) = ttlCache.ll c
  ∧ (∀ t' k', fst (ttlCache.Get t' (ttlCache.Resize c n) k')
              = fst (ttlCache.Get t' c k'))
  ∧ (ttlCache.tab c k = None → 0 <= n →
     ∃ c', ttlCache.Set_ now (ttlCache.Resize c n) k v = Some c'
           ∧ ttlCache.ll c'
             = take (Z.to_nat n)
                 ({| ttlCache.key := k; ttlCache.val := v;
                     ttlCache.expires := Time_Add now (ttlCache.ttl c) |}
                  :: ttlCache.ll c)
           ∧ Z.of_nat (length (ttlCache.ll c')) <= n)
  ∧ (ttlCache.tab c k = None → n < 0 →
     ttlCache.Set_ now (ttlCache.Resize c n) k v = None).
Proof.
  split; [done|]. split; [|split].
  - intros t' k'. unfold ttlCache.Get. rewrite tc_tab_Resize.
    destruct (ttlCache.tab c k'); [|done]. by destruct (Time_Before _ _).
  - intros Htab Hn. unfold ttlCache.Set_. rewrite tc_tab_Resize, Htab. simpl.
    rewrite evictLoop_take by done. simpl. eexists. split; [done|]. simpl.
    split; [done|]. rewrite length_take. simpl. lia.
  - intros Htab Hn. unfold ttlCache.Set_. rewrite tc_tab_Resize, Htab. simpl.
    by rewrite evictLoop_negative.
Qed.

(** Witness of X9: a cache of two items resized to one keeps both until
    the next new key. *)
Lemma ttlCache_Resize_defers_eviction_witness :
  length (ttlCache.ll (ttlCache.Resize
            (ttlCache.set_ll (ttlCache.newTTLCache (T:=Z) 100 2)
               [ {| ttlCache.key := "b"; ttlCache.val := 2; ttlCache.expires := 1100 |};
                 {| ttlCache.key := "a"; ttlCache.val := 1; ttlCache.expires := 1100 |} ])
            1)) = 2%nat
  ∧ ∃ c', ttlCache.Set_ 1000
            (ttlCache.Resize
               (ttlCache.set_ll (ttlCache.newTTLCache (T:=Z) 100 2)
                  [ {| ttlCache.key := "b"; ttlCache.val := 2; ttlCache.expires := 1100 |};
                    {| ttlCache.key := "a"; ttlCache.val := 1; ttlCache.expires := 1100 |} ])
               1) "c" 3 = Some c'
          ∧ Z.of_nat (length (ttlCache.ll c')) <= 1.
Proof.
  split; [reflexivity|].
  pose proof (ttlCache_Resize_defers_eviction 1000
                (ttlCache.set_ll (ttlCache.newTTLCache (T:=Z) 100 2)
                   [ {| ttlCache.key := "b"; ttlCache.val := 2; ttlCache.expires := 1100 |};
                     {| ttlCache.key := "a"; ttlCache.val := 1; ttlCache.expires := 1100 |} ])
                1 "c" 3) as (_ & _ & Hset & _).
  destruct Hset as (c' & Hc' & _ & Hlen); [reflexivity | lia |].
  exists c'. by split.
Defined.

(** ** Helpers: headers, string slices, labels, Retry-After *)

Lemma foldl_Header_Add (i : string) (vs : list string) (h : Header) (k : string) :
  CanonicalMIMEHeaderKey i = i ->
  foldl (fun a v => Header_Add a i v) h vs !! k
  = if decide (k = i)
    then match vs with
         | [] => h !! i
         | _ :: _ => Some (default [] (h !! i) ++ vs)
         end
    else h !! k.
Proof.
  intros Hi. revert h. induction vs as [|v vs IH]; intros h; simpl.
  - case_decide; by subst.
  - rewrite IH. unfold Header_Add. rewrite Hi. case_decide as Hk.
    + subst k. rewrite lookup_insert_eq. simpl.
      destruct vs; [done|]. by rewrite <- app_assoc.
    + by rewrite lookup_insert_ne.
Qed.

Lemma copyHeaders_lookup (dst src : Header) :
  (∀ k vs, src !! k = Some vs → CanonicalMIMEHeaderKey k = k) ->
  ∀ k, copyHeaders dst src !! k
       = match src !! k with
         | Some (v :: vs) => Some (default [] (dst !! k) ++ v :: vs)
         | _ => dst !! k
         end.
Proof.
  unfold copyHeaders.
  apply (map_fold_weak_ind
           (fun r (m : Header) =>
              (∀ k vs, m !! k = Some vs → CanonicalMIMEHeaderKey k = k) →
              ∀ k, r !! k = match m !! k with
                            | Some (v :: vs) => Some (default [] (dst !! k) ++ v :: vs)
                            | _ => dst !! k
                            end)).
  - intros _ k. by rewrite lookup_empty.
  - intros i x m r Hnone IH Hcanon k.
    assert (Hi : CanonicalMIMEHeaderKey i = i)
      by (apply (Hcanon i x); by rewrite lookup_insert_eq).
    assert (Hm : ∀ k vs, m !! k = Some vs → CanonicalMIMEHeaderKey k = k).
    { intros k' vs' Hk'. apply (Hcanon k' vs').
      rewrite lookup_insert_ne; [done|]. intros <-. congruence. }
    rewrite foldl_Header_Add by done. case_decide as Hk.
    + subst k. rewrite lookup_insert_eq, (IH Hm i), Hnone. by destruct x.
    + rewrite lookup_insert_ne by done. by apply IH.
Qed.

(** X10.  [copyHeaders] adds to the destination and never replaces: when
    the keys of the source are in canonical form, a key that already has a
    value in the destination still reads as that value (so the
    [User-Agent] and [Accept] the client sets first win over extra headers
    of the same name), and a key without one reads as the first value of
    the source. *)
Theorem copyHeaders_keeps_first (dst src : Header) (key : string)
    (Hcanon : ∀ k vs, src !! k = Some vs → CanonicalMIMEHeaderKey k = k) :
  (∀ v vs, dst !! CanonicalMIMEHeaderKey key = Some (v :: vs) →
     Header_Get (copyHeaders dst src) key = v)
  ∧ (dst !! CanonicalMIMEHeaderKey key = None
     ∨ dst !! CanonicalMIMEHeaderKey key = Some [] →
     Header_Get (copyHeaders dst src) key = Header_Get src key).
Proof.
  split.
  - intros v vs Hdst. unfold Header_Get.
    rewrite (copyHeaders_lookup dst src Hcanon), Hdst.
    by destruct (src !! _) as [[|??]|].
  - intros Hdst. unfold Header_Get.
    rewrite (copyHeaders_lookup dst src Hcanon).
    destruct Hdst as [-> | ->]; by destruct (src !! _) as [[|??]|].
Qed.

(** Witness of X10: an extra [User-Agent] does not displace the client's. *)
Lemma copyHeaders_keeps_first_witness :
  Header_Get (copyHeaders (Header_Set ∅ "User-Agent" "rdapclient/0.1")
                {[ "User-Agent"%string := ["custom"%string] ]}) "user-agent"
  = "rdapclient/0.1"%string.
Proof.
  refine (proj1 (copyHeaders_keeps_first (Header_Set ∅ "User-Agent" "rdapclient/0.1")
                   {[ "User-Agent"%string := ["custom"%string] ]} "user-agent" _)
            "rdapclient/0.1"%string [] _).
  - intros k vs Hk. apply lookup_singleton_Some in Hk as [<- _]. reflexivity.
  - reflexivity.
Defined.

(** X11.  [toStringSlice] keeps the strings of an array in their order and
    drops every other member; a value that is not an array gives the empty
    slice.  In particular it is the inverse of wrapping strings into an
    array. *)
Theorem toStringSlice_keeps_strings :
  (∀ l : list string, toStringSlice (JArray (JString <$> l)) = l)
  ∧ (∀ a b, toStringSlice (JArray (a ++ b))
            = toStringSlice (JArray a) ++ toStringSlice (JArray b))
  ∧ (∀ arr s, s ∈ toStringSlice (JArray arr) ↔ JString s ∈ arr)
  ∧ (∀ arr, (length (toStringSlice (JArray arr)) <= length arr)%nat)
  ∧ (∀ v, match v with JArray _ => True | _ => toStringSlice v = [] end).
Proof.
  split; [|split; [|split; [|split]]].
  - intros l. induction l as [|s l IH]; [done|]. cbn. f_equal. exact IH.
  - intros a b. simpl. apply omap_app.
  - intros arr s. simpl. rewrite list_elem_of_omap. split.
    + intros (x & Hx & Hs). destruct x; try done. by injection Hs as <-.
    + intros Hin. exists (JString s). by split.
  - intros arr. unfold toStringSlice.
    induction arr as [|x arr IH]; [done|].
    change (x :: arr) with ([x] ++ arr). rewrite omap_app, length_app.
    destruct x; simpl in *; lia.
  - by intros [].
Qed.

(** X12.  [retryAfter] never lets the server impose a wait of ten seconds
    or more, nor a wait that is not positive: whatever the header says, the
    result is either the caller's fallback or strictly between 0 and 10
    seconds. *)
Theorem retryAfter_bounded `{rt : Runtime} (wall : Time) (h : Header)
    (fallback : Duration) :
  retryAfter wall h fallback = fallback
  ∨ (0 < retryAfter wall h fallback ∧ retryAfter wall h fallback < 10 * Second).
Proof.
  unfold retryAfter. case_bool_decide; [|by left].
  destruct (time_ParseDuration _) as [sec|].
  - destruct (bool_decide (0 < sec)) eqn:Hlo;
      destruct (bool_decide (sec < 10 * Second)) eqn:Hhi; simpl.
    { right. apply bool_decide_eq_true in Hlo, Hhi. done. }
    all: destruct (time_Parse RFC1123 _) as [t|]; [|by left];
      destruct (bool_decide (0 < Time_Sub t wall)) eqn:Hlo';
      destruct (bool_decide (Time_Sub t wall < 10 * Second)) eqn:Hhi'; simpl;
      try (by left);
      right; apply bool_decide_eq_true in Hlo', Hhi'; done.
  - destruct (time_Parse RFC1123 _) as [t|]; [|by left].
    destruct (bool_decide (0 < Time_Sub t wall)) eqn:Hlo';
      destruct (bool_decide (Time_Sub t wall < 10 * Second)) eqn:Hhi'; simpl;
      try (by left).
    right. apply bool_decide_eq_true in Hlo', Hhi'. done.
Qed.

(** ** The last label of a domain name *)

Lemma string_of_list_ascii_snoc (l : list ascii) (a : ascii) :
  string_of_list_ascii (l ++ [a]) = string_of_list_ascii l +:+ String a EmptyString.
Proof. induction l as [|x l IH]; [done|]. simpl. by rewrite IH. Qed.

Lemma string_rev_cons (a : ascii) (s : string) :
  string_rev (String a s) = string_rev s +:+ String a EmptyString.
Proof. unfold string_rev. simpl. apply string_of_list_ascii_snoc. Qed.

Lemma append_nil_r (s : string) : s +:+ EmptyString = s.
Proof. induction s as [|a s IH]; [done|]. by rewrite append_cons, IH. Qed.

Lemma append_assoc (a b c : string) : (a +:+ b) +:+ c = a +:+ (b +:+ c).
Proof. induction a as [|x a IH]; [done|]. by rewrite !append_cons, IH. Qed.

Lemma string_rev_nil_inv (s : string) : string_rev s = EmptyString -> s = EmptyString.
Proof.
  destruct s as [|a s]; [done|]. rewrite string_rev_cons.
  by destruct (string_rev s).
Qed.

Lemma HasPrefix_nil (s : string) : strings_HasPrefix s EmptyString = true.
Proof. by destruct s. Qed.

(** Whether a string ends with the byte [c]. *)
Lemma HasSuffix_byte_cons (a c : ascii) (s : string) :
  strings_HasSuffix (String a s) (String c EmptyString)
  = if bool_decide (s = EmptyString) then bool_decide (c = a)
    else strings_HasSuffix s (String c EmptyString).
Proof.
  unfold strings_HasSuffix. rewrite string_rev_cons.
  change (string_rev (String c EmptyString)) with (String c EmptyString).
  destruct (string_rev s) as [|x r] eqn:Hr.
  - apply string_rev_nil_inv in Hr. subst s.
    rewrite append_nil_l. simpl. by rewrite andb_true_r.
  - rewrite bool_decide_false by (intros ->; done).
    rewrite append_cons. simpl. by rewrite !HasPrefix_nil.
Qed.

Lemma HasSuffix_byte_no (c : ascii) (s : string) :
  strings_IndexByte s c = None -> strings_HasSuffix s (String c EmptyString) = false.
Proof.
  induction s as [|a s IH]; [done|]. simpl.
  case_bool_decide as Hac; [done|]. intros Hs.
  rewrite HasSuffix_byte_cons. case_bool_decide.
  - rewrite bool_decide_false; [done|]. congruence.
  - apply IH. by destruct (strings_IndexByte s c).
Qed.

Lemma HasSuffix_byte_app (c : ascii) (pre lab : string) :
  lab ≠ EmptyString ->
  strings_HasSuffix (pre +:+ lab) (String c EmptyString)
  = strings_HasSuffix lab (String c EmptyString).
Proof.
  intros Hlab. induction pre as [|a pre IH]; [done|].
  rewrite append_cons, HasSuffix_byte_cons.
  rewrite bool_decide_false; [done|].
  destruct pre; [done|]. by rewrite append_cons.
Qed.

Lemma takeBytes_app (a b : string) : takeBytes (String.length a) (a +:+ b) = a.
Proof. induction a as [|x a IH]; [by destruct b|]. rewrite append_cons. simpl. by rewrite IH. Qed.

Lemma length_append (a b : string) :
  String.length (a +:+ b) = (String.length a + String.length b)%nat.
Proof. induction a as [|x a IH]; [done|]. rewrite append_cons. simpl. by rewrite IH. Qed.

Lemma TrimSuffix_byte_snoc (c : ascii) (s : string) :
  strings_TrimSuffix (s +:+ String c EmptyString) (String c EmptyString) = s.
Proof.
  unfold strings_TrimSuffix.
  rewrite HasSuffix_byte_app by done.
  rewrite HasSuffix_byte_cons. simpl. rewrite bool_decide_true by done.
  rewrite length_append. simpl.
  replace (String.length s + 1 - 1)%nat with (String.length s) by lia.
  apply takeBytes_app.
Qed.

Lemma Split_nonempty (s : string) (c : ascii) : strings_Split s c ≠ [].
Proof.
  induction s as [|a s IH]; [done|]. simpl. case_bool_decide; [done|].
  by destruct (strings_Split s c).
Qed.

Lemma Split_no_sep (s : string) (c : ascii) :
  strings_IndexByte s c = None -> strings_Split s c = [s].
Proof.
  induction s as [|a s IH]; [done|]. simpl. case_bool_decide; [done|].
  intros Hs. rewrite IH; [done|]. by destruct (strings_IndexByte s c).
Qed.

Lemma Split_app (a b : string) (c : ascii) :
  strings_Split (a +:+ String c b) c = strings_Split a c ++ strings_Split b c.
Proof.
  induction a as [|x a IH].
  - rewrite append_nil_l. simpl. by rewrite bool_decide_true.
  - rewrite append_cons. simpl. case_bool_decide; [by rewrite IH|].
    rewrite IH. pose proof (Split_nonempty a c).
    by destruct (strings_Split a c).
Qed.

Lemma last_Split_app (pre lab : string) (c : ascii) :
  strings_IndexByte lab c = None ->
  List.last (strings_Split (pre +:+ String c lab) c) EmptyString = lab.
Proof.
  intros Hlab. rewrite Split_app, (Split_no_sep lab c Hlab). apply last_last.
Qed.

(** X13.  [lastLabel] returns, lower-cased, the text after the last dot of
    the name, one trailing dot set aside; a name without a dot is its own
    last label. *)
Theorem lastLabel_after_last_dot `{rt : Runtime} :
  (∀ pre lab, lab ≠ EmptyString → strings_IndexByte lab "."%char = None →
     lastLabel (pre +:+ "." +:+ lab) = strings_ToLower lab
     ∧ lastLabel (pre +:+ "." +:+ lab +:+ ".") = strings_ToLower lab)
  ∧ (∀ lab, strings_IndexByte lab "."%char = None →
     lastLabel lab = strings_ToLower lab
     ∧ lastLabel (lab +:+ ".") = strings_ToLower lab).
Proof.
  set (lastOf := fun d : string =>
         match strings_Split d "."%char with
         | [] => EmptyString
         | _ :: _ => strings_ToLower (List.last (strings_Split d "."%char) EmptyString)
         end).
  assert (Hplain : ∀ pre lab, strings_IndexByte lab "."%char = None →
            lastOf (pre +:+ "." +:+ lab) = strings_ToLower lab).
  { intros pre lab Hlab. unfold lastOf.
    change ("." +:+ lab) with (String "."%char lab).
    pose proof (Split_nonempty (pre +:+ String "."%char lab) "."%char).
    destruct (strings_Split _ _) eqn:Hs; [done|]. rewrite <- Hs.
    by rewrite last_Split_app. }
  assert (Hnodot : ∀ lab, strings_IndexByte lab "."%char = None →
            lastOf lab = strings_ToLower lab).
  { intros lab Hlab. unfold lastOf. by rewrite (Split_no_sep _ _ Hlab). }
  assert (Hkeep : ∀ pre lab, lab ≠ EmptyString →
            strings_IndexByte lab "."%char = None →
            strings_TrimSuffix (pre +:+ "." +:+ lab) "." = pre +:+ "." +:+ lab).
  { intros pre lab Hne Hlab. unfold strings_TrimSuffix.
    change ("." +:+ lab) with (String "."%char lab).
    rewrite (HasSuffix_byte_app "."%char pre (String "."%char lab)) by done.
    rewrite HasSuffix_byte_cons, bool_decide_false by done.
    by rewrite (HasSuffix_byte_no _ _ Hlab). }
  split.
  - intros pre lab Hne Hlab. split.
    + unfold lastLabel. fold (lastOf (strings_TrimSuffix (pre +:+ "." +:+ lab) ".")).
      rewrite Hkeep by done. by apply Hplain.
    + unfold lastLabel.
      replace (pre +:+ "." +:+ lab +:+ ".") with ((pre +:+ "." +:+ lab) +:+ ".")
        by (by rewrite !append_assoc).
      rewrite (TrimSuffix_byte_snoc "."%char).
      by apply Hplain.
  - intros lab Hlab. split.
    + unfold lastLabel, strings_TrimSuffix.
      rewrite (HasSuffix_byte_no _ _ Hlab). by apply Hnodot.
    + unfold lastLabel. rewrite (TrimSuffix_byte_snoc "."%char).
      by apply Hnodot.
Qed.

(** Witness of X13, the package's own test. *)
Lemma lastLabel_after_last_dot_witness :
  lastLabel (rt:=Example.exampleRuntime) "Sub.Example.COM." = "com"%string.
Proof.
  pose proof (lastLabel_after_last_dot (rt:=Example.exampleRuntime)) as [Hdot _].
  destruct (Hdot "Sub.Example"%string "COM"%string) as [_ Htrail];
    [discriminate | reflexivity |].
  exact Htrail.
Defined.

(** ** The fetch engine: failing fast, cancellation, exhaustion, caching *)

Lemma isRetryStatus_codes (code : Z) :
  isRetryStatus code = true ->
  code ≠ StatusNotModified ∧ code ≠ StatusOK ∧ code ≠ StatusNotFound.
Proof.
  unfold isRetryStatus, StatusTooManyRequests, StatusServiceUnavailable,
    StatusBadGateway, StatusGatewayTimeout, StatusInternalServerError,
    StatusNotModified, StatusOK, StatusNotFound.
  repeat case_bool_decide; simpl; try done; intros _; lia.
Qed.

Section FetchMore.
Context {rt : Runtime} {W : Type} {world : World W}.

(** The pass on a response whose status is one of the five that are
    retried. *)
Lemma onResponse_retry (c : Client) (w : W) (u : string) (st : loopState)
    (resp : Response) :
  isRetryStatus (StatusCode resp) = true ->
  onResponse c w u st resp
  = let wait := retryAfter (time_Now w) (resp_Header resp) (backoff c (attempt st)) in
    if bool_decide (attempt st <= maxRetries c) then
      match sleepOrDone w wait with
      | (None, w') => Some (Continue (useValidators st) (didUnconditional st), c, w')
      | (Some cerr, w') => Some (Return (inl cerr), c, w')
      end
    else Some (Return (inl (errors_New
                 ("rdap GET " +:+ u +:+ ": " +:+ Status resp))), c, w).
Proof.
  intros Hcode. destruct (isRetryStatus_codes _ Hcode) as (H304 & H200 & _).
  unfold onResponse. rewrite !bool_decide_false by done. by rewrite Hcode.
Qed.

(** Against a server that keeps answering with a retried status, the loop
    in attempt [a] makes one request per attempt up to [maxRetries + 1] and
    then fails with the status. *)
Lemma loop_exhausts (c : Client) (u : string) (code : Z) (status : string)
    (Inv : W -> Prop) (cnt : W -> nat)
    (Hdo : ∀ w req, Inv w →
       ∃ resp w', hc_Do w req = (inr resp, w') ∧ StatusCode resp = code
                  ∧ Status resp = status ∧ Inv w' ∧ cnt w' = S (cnt w))
    (Hsleep : ∀ w d, Inv w →
       ∃ w', sleepOrDone w d = (None, w') ∧ Inv w' ∧ cnt w' = cnt w)
    (Hvalid : ∀ w, Inv w → validURL w u = true)
    (Hcode : isRetryStatus code = true)
    (Hmax : maxRetries c < int64_max) :
  ∀ (k : nat) (st : loopState) (w : W) (fuel : nat),
    Inv w → int64_min <= attempt st →
    k = Z.to_nat (maxRetries c + 1 - attempt st) →
    (k < fuel)%nat →
    ∃ w', loop fuel c w u st
          = Some (inl (errors_New ("rdap GET " +:+ u +:+ ": " +:+ status)), c, w')
          ∧ cnt w' = (cnt w + k + 1)%nat.
Proof.
  induction k as [|k IH]; intros st w fuel Hinv Hmin Hk Hfuel;
    (destruct fuel as [|fuel]; [lia|]);
    destruct (Hdo w (buildRequest c u (useValidators st)) Hinv)
      as (resp & w1 & Hd & Hc & Hs & Hinv1 & Hcnt1);
    simpl; unfold loopStep, loopBody; rewrite (Hvalid w Hinv), Hd; simpl;
    rewrite onResponse_retry by (by rewrite Hc); cbv zeta.
  - rewrite bool_decide_false by lia. simpl. rewrite Hs.
    exists w1. split; [done|]. lia.
  - rewrite bool_decide_true by lia.
    destruct (Hsleep w1 (retryAfter (time_Now w1) (resp_Header resp)
                           (backoff c (attempt st))) Hinv1)
      as (w2 & Hsl & Hinv2 & Hcnt2).
    rewrite Hsl. simpl.
    assert (Hadd : int_add (attempt st) 1 = attempt st + 1).
    { unfold int_add. apply wrap64_small.
      unfold int64_min, int64_max in *. lia. }
    rewrite Hadd.
    destruct (IH {| attempt := attempt st + 1;
                    useValidators := useValidators st;
                    didUnconditional := didUnconditional st |} w2 fuel Hinv2)
      as (w' & Hloop & Hcnt).
    + simpl. unfold int64_min in *. lia.
    + simpl. lia.
    + lia.
    + exists w'. split; [exact Hloop|]. lia.
Qed.
End FetchMore.

(** X14.  Retry exhaustion.  Against a server that answers every request
    with one of the retried statuses (429, 500, 502, 503, 504), with sleeps
    that are not cancelled and no fresh body in the cache, [getJSON] makes
    exactly [maxRetries + 1] requests (one if [maxRetries] is negative),
    then fails with an error that names the status; the caches are left as
    they were. *)
Theorem getJSON_retry_exhaustion `{rt : Runtime} `{world : World W}
    (c : Client) (w0 : W) (u : string) (code : Z) (status : string)
    (Inv : W -> Prop) (cnt : W -> nat)
    (Hdo : ∀ w req, Inv w →
       ∃ resp w', hc_Do w req = (inr resp, w') ∧ StatusCode resp = code
                  ∧ Status resp = status ∧ Inv w' ∧ cnt w' = S (cnt w))
    (Hsleep : ∀ w d, Inv w →
       ∃ w', sleepOrDone w d = (None, w') ∧ Inv w' ∧ cnt w' = cnt w)
    (Hvalid : ∀ w, Inv w → validURL w u = true)
    (Hcode : isRetryStatus code = true)
    (Hmax : maxRetries c < int64_max)
    (Hinv : Inv w0)
    (Hmiss : fst (respCache.Get (respNow w0) (respCache c) u) = None) :
  ∀ fuel, (Z.to_nat (maxRetries c) < fuel)%nat →
    ∃ w', getJSON fuel c w0 u
          = Some (inl (errors_New ("rdap GET " +:+ u +:+ ": " +:+ status)), c, w')
          ∧ cnt w' = (cnt w0 + Z.to_nat (maxRetries c) + 1)%nat.
Proof.
  intros fuel Hfuel. rewrite getJSON_miss by done.
  apply (loop_exhausts c u code status Inv cnt Hdo Hsleep Hvalid Hcode Hmax
           (Z.to_nat (maxRetries c))); simpl; try done.
  f_equal. lia.
Qed.

(** Witness of X14, the package's own test: two retries against
    continuous 502 give three requests and an error naming 502. *)
Lemma getJSON_retry_exhaustion_witness :
  ∃ n, getJSON (rt:=Example.exampleRuntime) (world:=Scenario.stubborn) 3
         (Example.newClient 2) 0%nat Example.exampleURL
       = Some (inl (errors_New
            "rdap GET https://rdap.example/domain/example.com: 502 Bad Gateway"),
               Example.newClient 2, n)
       ∧ n = 3%nat.
Proof.
  destruct (getJSON_retry_exhaustion (rt:=Example.exampleRuntime)
              (world:=Scenario.stubborn) (Example.newClient 2) 0%nat
              Example.exampleURL 502 "502 Bad Gateway" (fun _ => True) (fun n => n))
    with (fuel := 3%nat) as (n & Hget & Hn).
  - intros w req _. eexists _, _. repeat split.
  - intros w d _. eexists. repeat split.
  - done.
  - reflexivity.
  - vm_compute. reflexivity.
  - exact I.
  - reflexivity.
  - vm_compute. lia.
  - exists n. split; [exact Hget|]. rewrite Hn. reflexivity.
Defined.

(** X15.  [getJSON] fails fast where a retry cannot help.  A transport
    error that is not retryable, or any transport error once the attempt
    number exceeds [maxRetries], is returned as it is after that one
    request; a status other than 200, 304, 404 and the five retried ones
    fails with an error carrying the status and the body read.  In both
    cases the caches stay as they were: only a 404 leaves a negative
    entry. *)
Theorem getJSON_fails_fast `{rt : Runtime} `{world : World W}
    (c : Client) (w w1 : W) (u : string) (st : loopState)
    (Hurl : validURL w u = true) :
  (∀ err fuel,
     hc_Do w (buildRequest c u (useValidators st)) = (inl err, w1) →
     isRetryableNetErr err = false ∨ maxRetries c < attempt st →
     loop (S fuel) c w u st = Some (inl err, c, w1))
  ∧ (∀ resp fuel,
     hc_Do w (buildRequest c u (useValidators st)) = (inr resp, w1) →
     StatusCode resp ≠ StatusOK → StatusCode resp ≠ StatusNotModified →
     StatusCode resp ≠ StatusNotFound → isRetryStatus (StatusCode resp) = false →
     loop (S fuel) c w u st
     = Some (inl (errors_New
          ("rdap GET " +:+ u +:+ ": " +:+ Status resp +:+ ": "
           +:+ fst (readAllLimit (resp_Body resp) (512 * 2 ^ 10)))), c, w1)).
Proof.
  split.
  - intros err fuel Hdo Hno. simpl. unfold loopStep, loopBody.
    rewrite Hurl, Hdo. simpl.
    destruct Hno as [Hno | Hno].
    + rewrite Hno, andb_false_r. done.
    + rewrite bool_decide_false by lia. done.
  - intros resp fuel Hdo H200 H304 H404 Hretry. simpl. unfold loopStep, loopBody.
    rewrite Hurl, Hdo. simpl. unfold onResponse.
    rewrite (bool_decide_false (StatusCode resp = StatusNotModified)) by done.
    rewrite (bool_decide_false (StatusCode resp = StatusOK)) by done.
    rewrite (bool_decide_false (StatusCode resp = StatusNotFound)) by done.
    by rewrite Hretry.
Qed.

(** Witness of X15: a 403 ends [getJSON] after one request and leaves the
    response cache empty. *)
Lemma getJSON_fails_fast_witness :
  (fst ∘ fst) <$> getJSON (rt:=Example.exampleRuntime) (world:=Example.scriptedWorld)
                    1 (Example.newClient 2) Scenario.world_403 Example.exampleURL
  = Some (inl (errors_New
       "rdap GET https://rdap.example/domain/example.com: 403 Forbidden: no"))
  ∧ (respCache.ll ∘ respCache ∘ snd ∘ fst)
      <$> getJSON (rt:=Example.exampleRuntime) (world:=Example.scriptedWorld)
            1 (Example.newClient 2) Scenario.world_403 Example.exampleURL
    = Some [].
Proof.
  pose proof (getJSON_fails_fast (rt:=Example.exampleRuntime)
                (world:=Example.scriptedWorld) (Example.newClient 2)
                Scenario.world_403
                (snd (Example.scriptedDo Scenario.world_403
                        (buildRequest (rt:=Example.exampleRuntime)
                           (Example.newClient 2) Example.exampleURL true)))
                Example.exampleURL Example.firstPass eq_refl) as [_ Hstatus].
  specialize (Hstatus (Example.response 403 "403 Forbidden" ∅ "no") 0%nat eq_refl).
  rewrite (getJSON_miss (rt:=Example.exampleRuntime) (world:=Example.scriptedWorld))
    by reflexivity.
  change {| attempt := 1; useValidators := true; didUnconditional := false |}
    with Example.firstPass.
  rewrite Hstatus; [split; reflexivity | discriminate | discriminate
                   | discriminate | reflexivity].
Defined.

(** X16.  Cancellation.  When the caller's context is done during the
    sleep that follows a retried status or a retryable transport error,
    [getJSON] returns the context's error at once: no further request is
    made and the caches stay as they were. *)
Theorem getJSON_cancelled_during_backoff `{rt : Runtime} `{world : World W}
    (c : Client) (w w1 w2 : W) (u : string) (st : loopState) (cerr : goerror)
    (Hurl : validURL w u = true)
    (Hbudget : attempt st <= maxRetries c) :
  (∀ resp fuel,
     hc_Do w (buildRequest c u (useValidators st)) = (inr resp, w1) →
     isRetryStatus (StatusCode resp) = true →
     sleepOrDone w1 (retryAfter (time_Now w1) (resp_Header resp)
                       (backoff c (attempt st))) = (Some cerr, w2) →
     loop (S fuel) c w u st = Some (inl cerr, c, w2))
  ∧ (∀ err fuel,
     hc_Do w (buildRequest c u (useValidators st)) = (inl err, w1) →
     isRetryableNetErr err = true →
     sleepOrDone w1 (backoff c (attempt st)) = (Some cerr, w2) →
     loop (S fuel) c w u st = Some (inl cerr, c, w2)).
Proof.
  split.
  - intros resp fuel Hdo Hcode Hsleep. simpl. unfold loopStep, loopBody.
    rewrite Hurl, Hdo. simpl. rewrite onResponse_retry by done. cbv zeta.
    rewrite bool_decide_true by done. by rewrite Hsleep.
  - intros err fuel Hdo Hretry Hsleep. simpl. unfold loopStep, loopBody.
    rewrite Hurl, Hdo. simpl.
    rewrite bool_decide_true by done. rewrite Hretry. simpl. by rewrite Hsleep.
Qed.

(** Witness of X16, the package's own test: five retries allowed, the
    context cancelled in the first back-off; one request was made. *)
Lemma getJSON_cancelled_during_backoff_witness :
  getJSON (rt:=Example.exampleRuntime) (world:=Scenario.impatient) 6
    (Example.newClient 5) 0%nat Example.exampleURL
  = Some (inl (errors_New "context canceled"), Example.newClient 5, 1%nat).
Proof.
  pose proof (getJSON_cancelled_during_backoff (rt:=Example.exampleRuntime)
                (world:=Scenario.impatient) (Example.newClient 5)
                0%nat 1%nat 1%nat Example.exampleURL Example.firstPass
                (errors_New "context canceled") eq_refl) as [Hstatus _].
  { vm_compute. discriminate. }
  rewrite (getJSON_miss (rt:=Example.exampleRuntime) (world:=Scenario.impatient))
    by reflexivity.
  change {| attempt := 1; useValidators := true; didUnconditional := false |}
    with Example.firstPass.
  apply (Hstatus (Example.response 502 "502 Bad Gateway" ∅ EmptyString) 5%nat);
    reflexivity.
Defined.

(** [Store] on a cache of capacity at least one leaves the new entry at
    the front. *)
Lemma respCache_Store_front `{rt : Runtime} (now : Time) (c : respCache.t)
    (u b : string) (hdr : Header) :
  1 <= respCache.cap c ->
  ∃ l, respCache.Store now c u b hdr
       = Some (respCache.set_ll c
                 ({| url := u; body := b;
                     meta := makeMeta hdr (respCache.defTTL c) now |} :: l)).
Proof.
  intros Hcap. unfold respCache.Store.
  destruct (respCache.tab c u); [by eexists|].
  rewrite evictLoop_take by lia.
  destruct (Z.to_nat (respCache.cap c)) as [|k] eqn:Ek; [lia|]. simpl.
  by eexists.
Qed.

(** X17.  A body fetched with status 200 is served from the cache
    afterwards.  When [getJSON] receives a 200 whose body decodes, on a
    response cache of capacity at least one, it returns the decoded map
    with the response headers; and every later [getJSON] of the URL made
    before the instant of the store plus the TTL derived from those
    headers returns the same map, with nil headers, without any request
    (the world is left as it is, even with no fuel). *)
Theorem getJSON_200_then_cache_hit `{rt : Runtime} `{world : World W}
    (c : Client) (w w1 : W) (u b : string) (resp : Response) (m : jsonMap)
    (Hurl : validURL w u = true)
    (Hmiss : fst (respCache.Get (respNow w) (respCache c) u) = None)
    (Hdo : hc_Do w (buildRequest c u true) = (inr resp, w1))
    (H200 : StatusCode resp = StatusOK)
    (Hread : readAllLimit (resp_Body resp) (2 ^ 20) = (b, None))
    (Hjson : json_Unmarshal b = inr m)
    (Hbody : b ≠ EmptyString)
    (Hcap : 1 <= respCache.cap (respCache c)) :
  ∃ c1, (∀ fuel, getJSON (S fuel) c w u = Some (inr (m, resp_Header resp), c1, w1))
        ∧ ∀ w2 fuel,
            respNow w2 < Time_Add (respNow w1)
                           (expiryFromHeaders (resp_Header resp)
                              (respCache.defTTL (respCache c)) (respNow w1)) →
            ∃ c2, getJSON fuel c1 w2 u = Some (inr (m, ∅), c2, w2).
Proof.
  destruct (respCache_Store_front (respNow w1) (respCache c) u b
              (resp_Header resp) Hcap) as [l Hstore].
  set (it := {| url := u; body := b;
                meta := makeMeta (resp_Header resp)
                          (respCache.defTTL (respCache c)) (respNow w1) |}) in Hstore.
  set (rc1 := respCache.set_ll (respCache c) (it :: l)) in Hstore.
  exists (set_respCache c rc1). split.
  - intros fuel. rewrite getJSON_miss by done. simpl.
    unfold loopStep, loopBody. rewrite Hurl. simpl. rewrite Hdo. simpl.
    unfold onResponse. rewrite H200.
    rewrite (bool_decide_false (StatusOK = StatusNotModified)) by done.
    rewrite (bool_decide_true (StatusOK = StatusOK)) by done.
    rewrite Hread, Hjson, Hstore. done.
  - intros w2 fuel Hfresh. unfold getJSON. simpl.
    assert (Htab : respCache.tab rc1 u = Some it).
    { unfold respCache.tab, rc1. simpl. rewrite filter_cons. by case_decide. }
    unfold respCache.Get. rewrite Htab. unfold it at 1 2 3. simpl.
    unfold Time_IsZero, Time_Before.
    rewrite bool_decide_true by done.
    rewrite bool_decide_length_pos, bool_decide_true by done. simpl.
    rewrite Hjson. by eexists.
Qed.

(** Witness of X17: a domain fetched at noon under [max-age=60] is served
    from the cache 59 seconds later by a world that has no server. *)
Lemma getJSON_200_then_cache_hit_witness :
  ∃ c1 w1,
    getJSON (rt:=Example.exampleRuntime) (world:=Example.scriptedWorld) 1
      (Example.newClient 2) Scenario.world_200_304 Example.exampleURL
    = Some (inr (Some {[ "objectClassName"%string := JString "domain" ]},
                 Header_Set (Header_Set ∅ "Cache-Control" "max-age=60") "ETag" "v1"),
            c1, w1)
    ∧ ∃ c2, getJSON (rt:=Example.exampleRuntime) (world:=Example.scriptedWorld) 0
              c1 {| Example.script := []; Example.sent := [];
                    Example.clock := Example.noon + 59 * Second |}
              Example.exampleURL
            = Some (inr (Some {[ "objectClassName"%string := JString "domain" ]}, ∅),
                    c2,
                    {| Example.script := []; Example.sent := [];
                       Example.clock := Example.noon + 59 * Second |}).
Proof.
  destruct (getJSON_200_then_cache_hit (rt:=Example.exampleRuntime)
              (world:=Example.scriptedWorld) (Example.newClient 2)
              Scenario.world_200_304
              (snd (Example.scriptedDo Scenario.world_200_304
                      (buildRequest (rt:=Example.exampleRuntime)
                         (Example.newClient 2) Example.exampleURL true)))
              Example.exampleURL (Example.classDoc "domain")
              (Example.response 200 "200 OK"
                 (Header_Set (Header_Set ∅ "Cache-Control" "max-age=60") "ETag" "v1")
                 (Example.classDoc "domain"))
              (Some {[ "objectClassName"%string := JString "domain" ]})
              eq_refl eq_refl eq_refl eq_refl eq_refl eq_refl)
    as (c1 & Hfirst & Hsecond); [discriminate | vm_compute; discriminate |].
  eexists c1, _. split; [exact (Hfirst 0%nat)|].
  apply (Hsecond {| Example.script := []; Example.sent := [];
                    Example.clock := Example.noon + 59 * Second |} 0%nat).
  vm_compute. reflexivity.
Defined.

(** X18.  Revalidation.  When a 304 arrives and the cache holds a body for
    the URL that decodes, [getJSON] returns the decoded cached body with
    the headers of the 304, and the entry is fresh again: [Get] returns the
    body at every instant before the instant of the 304 plus the TTL
    derived from its headers, any negative state being cleared. *)
Theorem getJSON_304_revalidates `{rt : Runtime} `{world : World W}
    (c : Client) (w w1 : W) (u : string) (st : loopState) (resp : Response)
    (m : jsonMap)
    (Hurl : validURL w u = true)
    (Hdo : hc_Do w (buildRequest c u (useValidators st)) = (inr resp, w1))
    (H304 : StatusCode resp = StatusNotModified)
    (Hcached : cachedDecoded c u = Some m) :
  let rc' := respCache.UpdateFreshness (respNow w1) (respCache c) u
               (resp_Header resp) in
  (∀ fuel, loop (S fuel) c w u st
           = Some (inr (m, resp_Header resp), set_respCache c rc', w1))
  ∧ json_Unmarshal (respCache.FreshBody (respCache c) u) = inr m
  ∧ ∀ t', fst (respCache.Get t' rc' u)
          = if bool_decide
                 (t' < Time_Add (respNow w1)
                         (expiryFromHeaders (resp_Header resp)
                            (respCache.defTTL (respCache c)) (respNow w1)))
            then Some (respCache.FreshBody (respCache c) u) else None.
Proof.
  intros rc'.
  assert (Hbody : respCache.FreshBody (respCache c) u ≠ EmptyString
                  ∧ json_Unmarshal (respCache.FreshBody (respCache c) u) = inr m).
  { unfold cachedDecoded in Hcached. case_bool_decide; [|done].
    destruct (json_Unmarshal _) as [e|m']; [done|]. by injection Hcached as ->. }
  destruct Hbody as [Hne Hjson].
  split; [|split; [done|]].
  - intros fuel. simpl. unfold loopStep, loopBody. rewrite Hurl, Hdo. simpl.
    unfold onResponse. rewrite bool_decide_true by done. by rewrite Hcached.
  - intros t'. unfold respCache.FreshBody in *.
    destruct (respCache.tab (respCache c) u) as [it|] eqn:Htab; [|done].
    destruct (rc_tab_Some_url _ _ _ Htab) as [Hu _].
    assert (Htab' : respCache.tab rc' u
              = Some (set_meta it (set_negUntil
                        (mergeMeta (meta it) (resp_Header resp)
                           (respCache.defTTL (respCache c)) (respNow w1)) zeroTime))).
    { unfold rc', respCache.UpdateFreshness. rewrite Htab. rewrite <- Hu.
      apply (rc_tab_putFront (respCache c) (set_meta it _)). }
    unfold respCache.Get. rewrite Htab'. simpl.
    unfold Time_IsZero, Time_Before.
    rewrite bool_decide_length_pos, (bool_decide_true (body it ≠ EmptyString)) by done.
    rewrite andb_true_r. by destruct (bool_decide _).
Qed.

(** Witness of X18: the entry of [Example.negativeCache], stale and
    negative, revalidated at 12:30 under [max-age=120]. *)
Lemma getJSON_304_revalidates_witness :
  ∃ c1 w1,
    loop (rt:=Example.exampleRuntime) (world:=Example.scriptedWorld) 1
      (set_respCache (Example.newClient 2)
         (respCache.set_ll Example.negativeCache
            [ {| url := "u"; body := Example.classDoc "domain";
                 meta := {| ETag := "v1"; LastModified := zeroTime;
                            expiresAt := Example.noon + 10 * Minute;
                            negUntil := Example.noon + 60 * Minute |} |} ]))
      {| Example.script := [ Example.respond 304 "304 Not Modified"
                               (Header_Set ∅ "Cache-Control" "max-age=120")
                               EmptyString ];
         Example.sent := []; Example.clock := Example.noon + 30 * Minute |}
      "u" Example.firstPass
    = Some (inr (Some {[ "objectClassName"%string := JString "domain" ]},
                 Header_Set ∅ "Cache-Control" "max-age=120"), c1, w1)
    ∧ fst (respCache.Get (Example.noon + 31 * Minute) (respCache c1) "u")
      = Some (Example.classDoc "domain").
Proof.
  pose proof (getJSON_304_revalidates (rt:=Example.exampleRuntime)
                (world:=Example.scriptedWorld)
                (set_respCache (Example.newClient 2)
                   (respCache.set_ll Example.negativeCache
                      [ {| url := "u"; body := Example.classDoc "domain";
                           meta := {| ETag := "v1"; LastModified := zeroTime;
                                      expiresAt := Example.noon + 10 * Minute;
                                      negUntil := Example.noon + 60 * Minute |} |} ]))
                {| Example.script := [ Example.respond 304 "304 Not Modified"
                                         (Header_Set ∅ "Cache-Control" "max-age=120")
                                         EmptyString ];
                   Example.sent := []; Example.clock := Example.noon + 30 * Minute |}
                _ "u" Example.firstPass
                (Example.response 304 "304 Not Modified"
                   (Header_Set ∅ "Cache-Control" "max-age=120") EmptyString)
                (Some {[ "objectClassName"%string := JString "domain" ]})
                eq_refl eq_refl eq_refl eq_refl) as Hw.
  cbv zeta in Hw. destruct Hw as (Hloop & _ & Hget).
  eexists _, _. split; [exact (Hloop 0%nat)|].
  simpl. rewrite Hget. vm_compute. reflexivity.
Defined.

(** ** Bootstrap resolution *)

Lemma parseUintLoop_ok (s : string) (n v : Z) :
  0 <= n <= uint64_max -> parseUintLoop s n = UintOk v ->
  allDigits s = true ∧ 0 <= v <= uint64_max.
Proof.
  revert n. induction s as [|ch r IH]; intros n Hn; simpl.
  - by intros [= <-].
  - destruct (isDigit ch) eqn:Hd; [|done]. case_bool_decide; [done|].
    pose proof (Z.mod_pos_bound (n * 10 + (byte_val ch - 48)) (2 ^ 64)) as Hmod.
    destruct (bool_decide (_ < _)) eqn:E1; [done|].
    destruct (bool_decide (_ > _)) eqn:E2; [done|]. simpl.
    apply bool_decide_eq_false in E2. intros Hloop.
    apply IH in Hloop; [done|]. lia.
Qed.

Lemma ParseUint_range (s : string) (v : Z) :
  strconv_ParseUint s = UintOk v -> 0 <= v <= uint64_max.
Proof.
  unfold strconv_ParseUint. case_bool_decide; [done|].
  intros Hloop. apply parseUintLoop_ok in Hloop; [tauto|].
  unfold uint64_max. lia.
Qed.

(** X19.  A range that [parseASNRange] accepts is a range of unsigned
    64-bit numbers with its ends in order. *)
Theorem parseASNRange_bounds `{rt : Runtime} (s : string) (lo hi : Z)
    (Hok : parseASNRange s = Some (lo, hi)) :
  0 <= lo ∧ lo <= hi ∧ hi <= uint64_max.
Proof.
  unfold parseASNRange in Hok. case_bool_decide; [done|].
  destruct (strings_IndexByte _ _) as [i|].
  - destruct (strconv_ParseUint (strings_TrimSpace (takeBytes i _))) as [l| |] eqn:Hl;
      [|done|done].
    destruct (strconv_ParseUint (strings_TrimSpace (dropBytes (S i) _))) as [h| |] eqn:Hh;
      [|done|done].
    case_bool_decide; [done|]. injection Hok as <- <-.
    apply ParseUint_range in Hl, Hh. lia.
  - destruct (strconv_ParseUint _) as [x| |] eqn:Hx; [|done|done].
    injection Hok as <- <-. apply ParseUint_range in Hx. lia.
Qed.

(** Witness of X19: the range [" 1-1876 "]. *)
Lemma parseASNRange_bounds_witness :
  parseASNRange (rt:=Example.exampleRuntime) " 1-1876 " = Some (1, 1876)
  ∧ 0 <= 1 ∧ 1 <= 1876 ∧ 1876 <= uint64_max.
Proof.
  split; [vm_compute; reflexivity|].
  apply (parseASNRange_bounds (rt:=Example.exampleRuntime) " 1-1876 " 1 1876).
  vm_compute. reflexivity.
Defined.

Section ResolverFacts.
Context {rt : Runtime} {W : Type} {world : World W}.

Lemma tc_Get_params {T : Type} (now : Time) (c : ttlCache.t T) (k : string) :
  ttlCache.cap (snd (ttlCache.Get now c k)) = ttlCache.cap c
  ∧ ttlCache.ttl (snd (ttlCache.Get now c k)) = ttlCache.ttl c.
Proof.
  unfold ttlCache.Get. destruct (ttlCache.tab c k); [|done].
  by destruct (Time_Before _ _).
Qed.

(** A key that was just set is served until the TTL has passed. *)
Lemma tc_Set_then_Get {T : Type} (t0 t' : Time) (c c1 : ttlCache.t T)
    (k : string) (v : T) :
  1 <= ttlCache.cap c -> ttlCache.Set_ t0 c k v = Some c1 ->
  t' < t0 + ttlCache.ttl c ->
  fst (ttlCache.Get t' c1 k) = Some v.
Proof.
  intros Hcap Hset Hfresh.
  destruct (tc_Set_front t0 c k v Hcap) as [l Hfront].
  rewrite Hfront in Hset. injection Hset as <-.
  set (it := {| ttlCache.key := k; ttlCache.val := v;
                ttlCache.expires := Time_Add t0 (ttlCache.ttl c) |}).
  assert (Htab : ttlCache.tab (ttlCache.set_ll c (it :: l)) k = Some it)
    by apply (tc_tab_cons_same c it l).
  unfold ttlCache.Get. rewrite Htab.
  unfold Time_Before, Time_Add. simpl. by rewrite bool_decide_true by done.
Qed.

Lemma rangesHold_true (asn : Z) (ranges : list string) (r : string) (lo hi : Z) :
  r ∈ ranges -> parseASNRange r = Some (lo, hi) -> lo <= asn <= hi ->
  rangesHold asn ranges = true.
Proof.
  intros Hr Hp Hin. induction ranges as [|r0 rest IH]; [by apply elem_of_nil in Hr|].
  simpl. apply elem_of_cons in Hr as [<-|Hr].
  - rewrite Hp. by rewrite !bool_decide_true by lia.
  - destruct (parseASNRange r0) as [[l h]|]; [|by apply IH].
    destruct (_ && _); [done|by apply IH].
Qed.

Lemma rangesHold_false (asn : Z) (ranges : list string) :
  (∀ r lo hi, r ∈ ranges -> parseASNRange r = Some (lo, hi) -> ¬ (lo <= asn <= hi)) ->
  rangesHold asn ranges = false.
Proof.
  induction ranges as [|r0 rest IH]; intros Hno; [done|]. simpl.
  destruct (parseASNRange r0) as [[l h]|] eqn:Hp.
  - pose proof (Hno r0 l h (list_elem_of_here _ _) Hp) as Hout.
    destruct (bool_decide (l <= asn)) eqn:E1; destruct (bool_decide (asn <= h)) eqn:E2;
      simpl; try (apply IH; intros; eapply Hno; eauto using list_elem_of_further).
    apply bool_decide_eq_true in E1, E2. lia.
  - apply IH. intros; eapply Hno; eauto using list_elem_of_further.
Qed.

Lemma scanASN_skip (asn : Z) (pre rest : list (list any)) :
  (∀ ks us r lo hi, [ks; us] ∈ pre -> toStringSlice us ≠ [] ->
     r ∈ toStringSlice ks -> parseASNRange r = Some (lo, hi) ->
     ¬ (lo <= asn <= hi)) ->
  scanASN asn (pre ++ rest) = scanASN asn rest.
Proof.
  induction pre as [|svc pre IH]; intros Hno; [done|].
  assert (Hrest : scanASN asn (pre ++ rest) = scanASN asn rest).
  { apply IH. intros; eapply Hno; eauto using list_elem_of_further. }
  simpl. destruct svc as [|ks [|us [|x l]]]; try done.
  destruct (toStringSlice us) as [|u0 urls] eqn:Hus; [done|].
  rewrite rangesHold_false; [done|].
  intros r lo hi Hr Hp. eapply (Hno ks us); eauto using list_elem_of_here.
  by rewrite Hus.
Qed.
End ResolverFacts.

(** X20.  The AS-number resolver takes the first match.  When the base
    cache has nothing under [asn:<n>] and the bootstrap file is fetched,
    the answer is the first URL, trailing slashes stripped, of the first
    entry that has a URL and a range holding the number, whatever later
    entries say and even when that URL is empty; it is stored under
    [asn:<n>], and until the TTL has passed the next lookup of the number
    answers the same without any request. *)
Theorem resolveBaseFromBootstrapASN_first_match `{rt : Runtime} `{world : World W}
    (c c1 : Client) (w w1 : W) (asn : Z) (bc : ttlCache.t string)
    (bs : bootstrapServices) (pre post : list (list any)) (ks us : any)
    (u0 : string) (urls : list string) (r : string) (lo hi : Z)
    (Hmiss : ttlCache.Get (baseNow w) (rdapBaseCache c) (asnKey asn) = (None, bc))
    (Hfetch : fetchBootstrapGeneric (set_rdapBaseCache c bc) w (asnBootstrapURL c)
              = Some (inr bs, c1, w1))
    (Hsvcs : Services bs = pre ++ [ks; us] :: post)
    (Hpre : ∀ ks' us' r' lo' hi',
        [ks'; us'] ∈ pre → toStringSlice us' ≠ [] → r' ∈ toStringSlice ks' →
        parseASNRange r' = Some (lo', hi') → ¬ (lo' <= asn <= hi'))
    (Hurls : toStringSlice us = u0 :: urls)
    (Hr : r ∈ toStringSlice ks)
    (Hrange : parseASNRange r = Some (lo, hi))
    (Hin : lo <= asn <= hi)
    (Hcap : 1 <= ttlCache.cap bc) :
  ∃ c2, resolveBaseFromBootstrapASN c w asn
        = Some (inr (strings_TrimRight u0 "/"), c2, w1)
        ∧ ∀ w2, baseNow w2 < baseNow w1 + ttlCache.ttl bc →
            ∃ c3, resolveBaseFromBootstrapASN c2 w2 asn
                  = Some (inr (strings_TrimRight u0 "/"), c3, w2).
Proof.
  pose proof (fetchBootstrapGeneric_baseCache _ _ _ _ _ _ Hfetch) as Hbc.
  simpl in Hbc.
  assert (Hscan : scanASN asn (Services bs) = Some (strings_TrimRight u0 "/")).
  { rewrite Hsvcs, scanASN_skip by done. simpl. rewrite Hurls.
    by rewrite (rangesHold_true asn _ r lo hi). }
  destruct (tc_Set_front (baseNow w1) bc (asnKey asn) (strings_TrimRight u0 "/") Hcap)
    as [l Hset].
  exists (set_rdapBaseCache c1
            (ttlCache.set_ll bc
               ({| ttlCache.key := asnKey asn; ttlCache.val := strings_TrimRight u0 "/";
                   ttlCache.expires := Time_Add (baseNow w1) (ttlCache.ttl bc) |} :: l))).
  split.
  - unfold resolveBaseFromBootstrapASN. rewrite Hmiss, Hfetch. simpl.
    rewrite Hscan, Hbc, Hset. done.
  - intros w2 Hfresh. unfold resolveBaseFromBootstrapASN. simpl.
    pose proof (tc_Set_then_Get (baseNow w1) (baseNow w2) bc _ (asnKey asn)
                  (strings_TrimRight u0 "/") Hcap Hset Hfresh) as Hhit.
    destruct (ttlCache.Get (baseNow w2) _ (asnKey asn)) as [o bc2].
    simpl in Hhit. subst o. by eexists.
Qed.

(** A result is its three parts. *)
Lemma result_parts {A B C : Type} (res : option (A * B * C)) (a : A) (b0 : B) (c0 : C) :
  (fst ∘ fst) <$> res = Some a ->
  res = Some (a, from_option (snd ∘ fst) b0 res, from_option snd c0 res).
Proof. destruct res as [[[a' b'] c']|]; [|done]. simpl. by intros [= ->]. Qed.

(** Witness of X20: AS 1500 lies in [1-1876] of the first entry and in
    [1000-3000] of the second; the first entry answers, and an hour later
    the answer comes from the cache of a client that is offline. *)
Lemma resolveBaseFromBootstrapASN_first_match_witness :
  ∃ c2 w1,
    resolveBaseFromBootstrapASN (rt:=Scenario.bootstrapRuntime)
      (world:=Example.scriptedWorld) (Example.newClient 2) Scenario.world_asn 1500
    = Some (inr "https://arin.example"%string, c2, w1)
    ∧ ∃ c3, resolveBaseFromBootstrapASN (rt:=Scenario.bootstrapRuntime)
              (world:=Example.scriptedWorld) c2
              {| Example.script := []; Example.sent := [];
                 Example.clock := Example.noon + 60 * Minute |} 1500
            = Some (inr "https://arin.example"%string, c3,
                    {| Example.script := []; Example.sent := [];
                       Example.clock := Example.noon + 60 * Minute |}).
Proof.
  pose (res := fetchBootstrapGeneric (rt:=Scenario.bootstrapRuntime)
                (world:=Example.scriptedWorld)
                (set_rdapBaseCache (Example.newClient 2)
                   (rdapBaseCache (Example.newClient 2)))
                Scenario.world_asn (asnBootstrapURL (Example.newClient 2))).
  destruct (resolveBaseFromBootstrapASN_first_match (rt:=Scenario.bootstrapRuntime)
              (world:=Example.scriptedWorld) (Example.newClient 2)
              (from_option (snd ∘ fst) (Example.newClient 2) res)
              Scenario.world_asn (from_option snd Scenario.world_asn res)
              1500 (rdapBaseCache (Example.newClient 2)) Scenario.asnValue
              []
              [ [JArray [JString "1000-3000"];
                 JArray [JString "https://ripe.example/rdap/"]] ]
              (JArray [JString "1-1876"; JString "1877"])
              (JArray [JString "https://arin.example/"])
              "https://arin.example/" [] "1-1876" 1 1876)
    as (c2 & Hfirst & Hsecond).
  - vm_compute. reflexivity.
  - apply result_parts. vm_compute. reflexivity.
  - reflexivity.
  - intros ks' us' r' lo' hi' Hin. by apply elem_of_nil in Hin.
  - reflexivity.
  - apply list_elem_of_here.
  - vm_compute. reflexivity.
  - lia.
  - vm_compute. discriminate.
  - exists c2, (from_option snd Scenario.world_asn res). split; [exact Hfirst|].
    apply (Hsecond {| Example.script := []; Example.sent := [];
                      Example.clock := Example.noon + 60 * Minute |}).
    vm_compute. reflexivity.
Defined.

(** X21.  The AS-number resolver never reports an error.  Whenever the
    bootstrap file cannot be had (the transport fails, the server answers
    304 or another status, the body cannot be read or parsed) the answer is
    the default base, and nothing is stored in the base cache. *)
Theorem resolveBaseFromBootstrapASN_never_fails `{rt : Runtime} `{world : World W}
    (c : Client) (w : W) (asn : Z) :
  (∀ r c' w', resolveBaseFromBootstrapASN c w asn = Some (r, c', w') →
              ∃ base, r = inr base)
  ∧ (∀ bc err c1 w1,
       ttlCache.Get (baseNow w) (rdapBaseCache c) (asnKey asn) = (None, bc) →
       fetchBootstrapGeneric (set_rdapBaseCache c bc) w (asnBootstrapURL c)
       = Some (inl err, c1, w1) →
       resolveBaseFromBootstrapASN c w asn = Some (inr fallbackBase, c1, w1)
       ∧ rdapBaseCache c1 = bc).
Proof.
  split.
  - intros r c' w'. unfold resolveBaseFromBootstrapASN.
    destruct (ttlCache.Get _ _ _) as [[base|] bc]; [intros [= <- _ _]; eauto|].
    destruct (fetchBootstrapGeneric _ _ _) as [[[r1 c1] w1]|]; [|done]. simpl.
    destruct r1 as [e|bs]; [intros [= <- _ _]; eauto|].
    destruct (scanASN _ _) as [base|]; [|intros [= <- _ _]; eauto].
    destruct (ttlCache.Set_ _ _ _ _); [|done]. simpl. intros [= <- _ _]; eauto.
  - intros bc err c1 w1 Hmiss Hfetch.
    pose proof (fetchBootstrapGeneric_baseCache _ _ _ _ _ _ Hfetch) as Hbc.
    unfold resolveBaseFromBootstrapASN. by rewrite Hmiss, Hfetch.
Qed.

(** Witness of X21: a client that is offline. *)
Lemma resolveBaseFromBootstrapASN_never_fails_witness :
  ∃ c1 w1,
    resolveBaseFromBootstrapASN (rt:=Example.exampleRuntime)
      (world:=Example.scriptedWorld) (Example.newClient 2) Scenario.offline 15169
    = Some (inr "https://rdap.org"%string, c1, w1)
    ∧ rdapBaseCache c1 = rdapBaseCache (Example.newClient 2).
Proof.
  pose (res := fetchBootstrapGeneric (rt:=Example.exampleRuntime)
                (world:=Example.scriptedWorld)
                (set_rdapBaseCache (Example.newClient 2)
                   (rdapBaseCache (Example.newClient 2)))
                Scenario.offline (asnBootstrapURL (Example.newClient 2))).
  destruct (resolveBaseFromBootstrapASN_never_fails (rt:=Example.exampleRuntime)
              (world:=Example.scriptedWorld) (Example.newClient 2)
              Scenario.offline 15169) as [_ Hfb].
  exists (from_option (snd ∘ fst) (Example.newClient 2) res),
         (from_option snd Scenario.offline res).
  apply (Hfb (rdapBaseCache (Example.newClient 2))
             (errors_New "connection refused")).
  - vm_compute. reflexivity.
  - apply result_parts. vm_compute. reflexivity.
Defined.

(** X22.  The IP resolver reports an error only for an input that parses
    neither as a prefix nor as an address; the error is that of
    [netip.ParseAddr], and no request is made.  Whenever the bootstrap file
    cannot be had, the answer is the default base and nothing is stored in
    the base cache. *)
Theorem resolveBaseFromBootstrapIP_error_only_unparsable `{rt : Runtime}
    `{world : World W} (c : Client) (w : W) (ipOrCIDR : string) :
  (∀ err c' w',
      resolveBaseFromBootstrapIP c w ipOrCIDR = Some (inl err, c', w')
      ↔ (∃ e, netip_ParsePrefix ipOrCIDR = inl e)
        ∧ netip_ParseAddr ipOrCIDR = inl err ∧ c' = c ∧ w' = w)
  ∧ (∀ addr bc err c1 w1,
       normalizeAddr ipOrCIDR = inr addr →
       ttlCache.Get (baseNow w) (rdapBaseCache c) (ipKey addr) = (None, bc) →
       fetchBootstrapGeneric (set_rdapBaseCache c bc) w
         (selectFile (ipBootstrapURL c) (Addr_Is6 addr))
       = Some (inl err, c1, w1) →
       resolveBaseFromBootstrapIP c w ipOrCIDR = Some (inr fallbackBase, c1, w1)
       ∧ rdapBaseCache c1 = bc).
Proof.
  split.
  - intros err c' w'. unfold resolveBaseFromBootstrapIP, normalizeAddr. split.
    + destruct (netip_ParsePrefix ipOrCIDR) as [e|p] eqn:Hp.
      * destruct (netip_ParseAddr ipOrCIDR) as [e'|addr] eqn:Ha.
        { intros [= <- <- <-]. eauto. }
        destruct (ttlCache.Get _ _ _) as [[base|] bc]; [done|].
        destruct (fetchBootstrapGeneric _ _ _) as [[[r1 c1] w1]|]; [|done]. simpl.
        destruct r1 as [e1|bs]; [done|].
        case_bool_decide; [|done]. by destruct (ttlCache.Set_ _ _ _ _).
      * destruct (ttlCache.Get _ _ _) as [[base|] bc]; [done|].
        destruct (fetchBootstrapGeneric _ _ _) as [[[r1 c1] w1]|]; [|done]. simpl.
        destruct r1 as [e1|bs]; [done|].
        case_bool_decide; [|done]. by destruct (ttlCache.Set_ _ _ _ _).
    + intros ([e He] & Ha & -> & ->). by rewrite He, Ha.
  - intros addr bc err c1 w1 Haddr Hmiss Hfetch.
    pose proof (fetchBootstrapGeneric_baseCache _ _ _ _ _ _ Hfetch) as Hbc.
    unfold resolveBaseFromBootstrapIP. by rewrite Haddr, Hmiss, Hfetch.
Qed.

(** Witness of X22: a host name is refused without a request, and an
    address is answered with the default base by a client that is
    offline. *)
Lemma resolveBaseFromBootstrapIP_error_only_unparsable_witness :
  resolveBaseFromBootstrapIP (rt:=Example.exampleRuntime)
    (world:=Example.scriptedWorld) (Example.newClient 2) Example.world_bootstrap
    "example.com"
  = Some (inl Example.addrError, Example.newClient 2, Example.world_bootstrap)
  ∧ ∃ c1 w1,
      resolveBaseFromBootstrapIP (rt:=Example.exampleRuntime)
        (world:=Example.scriptedWorld) (Example.newClient 2) Scenario.offline
        "10.1.2.3"
      = Some (inr "https://rdap.org"%string, c1, w1)
      ∧ rdapBaseCache c1 = rdapBaseCache (Example.newClient 2).
Proof.
  split.
  - apply (proj1 (resolveBaseFromBootstrapIP_error_only_unparsable
                    (rt:=Example.exampleRuntime) (world:=Example.scriptedWorld)
                    (Example.newClient 2) Example.world_bootstrap "example.com")).
    split; [eexists; vm_compute; reflexivity|]. split; [vm_compute; reflexivity|done].
  - pose (res := fetchBootstrapGeneric (rt:=Example.exampleRuntime)
                  (world:=Example.scriptedWorld)
                  (set_rdapBaseCache (Example.newClient 2)
                     (rdapBaseCache (Example.newClient 2)))
                  Scenario.offline (ipBootstrapURL (Example.newClient 2))).
    exists (from_option (snd ∘ fst) (Example.newClient 2) res),
           (from_option snd Scenario.offline res).
    apply (proj2 (resolveBaseFromBootstrapIP_error_only_unparsable
                    (rt:=Example.exampleRuntime) (world:=Example.scriptedWorld)
                    (Example.newClient 2) Scenario.offline "10.1.2.3")
             {| addr_is6 := false; addr_val := 167838211; addr_zone := EmptyString |}
             (rdapBaseCache (Example.newClient 2))
             (errors_New "connection refused")).
    + vm_compute. reflexivity.
    + vm_compute. reflexivity.
    + apply result_parts. vm_compute. reflexivity.
Defined.

(** X23.  An answer the IP resolver takes from the bootstrap file is served
    from the base cache afterwards.  When a lookup that missed the cache
    returns a base other than the default one, on a base cache of capacity
    at least one, every lookup of the same text made before the TTL has
    passed returns that base without any request. *)
Theorem resolveBaseFromBootstrapIP_second_lookup_cached `{rt : Runtime}
    `{world : World W} (c c1 : Client) (w w1 : W) (ipOrCIDR base : string)
    (Hmiss : ∀ addr, normalizeAddr ipOrCIDR = inr addr →
               fst (ttlCache.Get (baseNow w) (rdapBaseCache c) (ipKey addr)) = None)
    (Hres : resolveBaseFromBootstrapIP c w ipOrCIDR = Some (inr base, c1, w1))
    (Hbase : base ≠ fallbackBase)
    (Hcap : 1 <= ttlCache.cap (rdapBaseCache c)) :
  ∀ w2, baseNow w2 < baseNow w1 + ttlCache.ttl (rdapBaseCache c) →
        ∃ c2, resolveBaseFromBootstrapIP c1 w2 ipOrCIDR = Some (inr base, c2, w2).
Proof.
  intros w2 Hfresh. unfold resolveBaseFromBootstrapIP in *.
  destruct (normalizeAddr ipOrCIDR) as [e|addr] eqn:Haddr; [done|].
  specialize (Hmiss addr eq_refl).
  pose proof (tc_Get_params (baseNow w) (rdapBaseCache c) (ipKey addr)) as [Hc Ht].
  destruct (ttlCache.Get (baseNow w) (rdapBaseCache c) (ipKey addr)) as [o bc].
  simpl in Hmiss, Hc, Ht. subst o.
  destruct (fetchBootstrapGeneric _ w _) as [[[r c'] w']|] eqn:Hfetch; [|done].
  pose proof (fetchBootstrapGeneric_baseCache _ _ _ _ _ _ Hfetch) as Hbc.
  simpl in Hbc, Hres.
  destruct r as [e|bs]; [injection Hres as <- _ _; done|].
  case_bool_decide as Hbest; [|injection Hres as <- _ _; done].
  destruct (ttlCache.Set_ _ _ _ _) as [bc'|] eqn:Hset; [|done].
  simpl in Hres. injection Hres as <- <- <-. simpl.
  rewrite Hbc in Hset.
  assert (Hhit : fst (ttlCache.Get (baseNow w2) bc' (ipKey addr))
                 = Some (fst (scanServices addr (Addr_Is6 addr) (Services bs)
                                (EmptyString, -1)))).
  { apply (tc_Set_then_Get (baseNow w') (baseNow w2) bc); [lia|done|lia]. }
  destruct (ttlCache.Get (baseNow w2) bc' (ipKey addr)) as [o bc2].
  simpl in Hhit. subst o. by eexists.
Qed.

(** Witness of X23: [10.1.2.3] resolved from the bootstrap file at noon
    and again five hours later, offline. *)
Lemma resolveBaseFromBootstrapIP_second_lookup_cached_witness :
  ∃ c1 w1,
    resolveBaseFromBootstrapIP (rt:=Example.exampleRuntime)
      (world:=Example.scriptedWorld) (Example.newClient 2) Example.world_bootstrap
      "10.1.2.3"
    = Some (inr "https://b.example/rdap"%string, c1, w1)
    ∧ ∃ c2, resolveBaseFromBootstrapIP (rt:=Example.exampleRuntime)
              (world:=Example.scriptedWorld) c1
              {| Example.script := []; Example.sent := [];
                 Example.clock := Example.noon + 300 * Minute |} "10.1.2.3"
            = Some (inr "https://b.example/rdap"%string, c2,
                    {| Example.script := []; Example.sent := [];
                       Example.clock := Example.noon + 300 * Minute |}).
Proof.
  pose (res := resolveBaseFromBootstrapIP (rt:=Example.exampleRuntime)
                (world:=Example.scriptedWorld) (Example.newClient 2)
                Example.world_bootstrap "10.1.2.3").
  exists (from_option (snd ∘ fst) (Example.newClient 2) res),
         (from_option snd Example.world_bootstrap res).
  assert (Hres : res = Some (inr "https://b.example/rdap"%string,
                             from_option (snd ∘ fst) (Example.newClient 2) res,
                             from_option snd Example.world_bootstrap res))
    by (apply result_parts; vm_compute; reflexivity).
  split; [exact Hres|].
  apply (resolveBaseFromBootstrapIP_second_lookup_cached (rt:=Example.exampleRuntime)
           (world:=Example.scriptedWorld) (Example.newClient 2) _
           Example.world_bootstrap (from_option snd Example.world_bootstrap res)
           "10.1.2.3" "https://b.example/rdap").
  - intros addr Haddr. vm_compute in Haddr. injection Haddr as <-.
    vm_compute. reflexivity.
  - exact Hres.
  - discriminate.
  - vm_compute. discriminate.
  - vm_compute. reflexivity.
Defined.

(** X24.  "Select file" never leaves the file of the other family: the
    URL it returns does not end in [/ipv4.json] for an IPv6 address nor in
    [/ipv6.json] for an IPv4 address, and a configured URL that does not
    end so is kept as it is. *)
Theorem selectFile_family (configured : string) (is6 : bool) :
  strings_HasSuffix (selectFile configured is6)
    (if is6 then "/ipv4.json" else "/ipv6.json") = false
  ∧ (strings_HasSuffix configured (if is6 then "/ipv4.json" else "/ipv6.json") = false →
     selectFile configured is6 = configured).
Proof.
  unfold selectFile. destruct is6; simpl.
  - destruct (strings_HasSuffix configured "/ipv4.json") eqn:E; [|done].
    split; [vm_compute; reflexivity|done].
  - destruct (strings_HasSuffix configured "/ipv6.json") eqn:E; [|done].
    split; [vm_compute; reflexivity|done].
Qed.

(** Witness of X24: the default of [New()] serves IPv4 as it is and is
    redirected for IPv6. *)
Lemma selectFile_family_witness :
  selectFile "https://data.iana.org/rdap/ipv4.json" false
  = "https://data.iana.org/rdap/ipv4.json"%string
  ∧ selectFile "https://data.iana.org/rdap/ipv4.json" true
    = "https://data.iana.org/rdap/ipv6.json"%string.
Proof.
  split; [|vm_compute; reflexivity].
  apply (proj2 (selectFile_family "https://data.iana.org/rdap/ipv4.json" false)).
  vm_compute. reflexivity.
Defined.

(** ** The DNS bootstrap *)

Section DnsFacts.
Context {T : Type}.

(** [Set] with room left evicts nothing and leaves the other keys as they
    are. *)
Lemma tc_Set_room (now : Time) (c : ttlCache.t T) (k : string) (v : T) :
  Z.of_nat (length (ttlCache.ll c)) + 1 <= ttlCache.cap c ->
  ∃ l1, ttlCache.Set_ now c k v
        = Some (ttlCache.set_ll c
                  ({| ttlCache.key := k; ttlCache.val := v;
                      ttlCache.expires := Time_Add now (ttlCache.ttl c) |} :: l1))
        ∧ (length l1 <= length (ttlCache.ll c))%nat
        ∧ ∀ k', k' ≠ k ->
            head (filter (fun e => ttlCache.key e = k') l1) = ttlCache.tab c k'.
Proof.
  intros Hroom. unfold ttlCache.Set_. destruct (ttlCache.tab c k) as [it0|].
  - exists (ttlCache.others k (ttlCache.ll c)). split; [done|].
    split; [apply length_filter|].
    intros k' Hne. unfold ttlCache.tab, ttlCache.others. f_equal.
    rewrite list_filter_filter. apply list_filter_iff. intros e.
    split; [tauto|]. intros He. split; [done|congruence].
  - rewrite evictLoop_take by lia. rewrite take_ge by (simpl; lia).
    exists (ttlCache.ll c). by repeat split.
Qed.

(** Stores made one after the other with room for all of them: each key
    ends with the value of its last store. *)
Lemma tc_stores_last (now : Time) (ps : list (string * T)) (c : ttlCache.t T) :
  Z.of_nat (length (ttlCache.ll c)) + Z.of_nat (length ps) <= ttlCache.cap c ->
  ∃ c', foldl (fun acc p => c0 ← acc; ttlCache.Set_ now c0 p.1 p.2) (Some c) ps
        = Some c'
        ∧ ttlCache.ttl c' = ttlCache.ttl c
        ∧ ∀ k, ttlCache.tab c' k
               = match last (filter (fun p => p.1 = k) ps) with
                 | Some p => Some {| ttlCache.key := k; ttlCache.val := p.2;
                                     ttlCache.expires
                                       := Time_Add now (ttlCache.ttl c) |}
                 | None => ttlCache.tab c k
                 end.
Proof.
  revert c. induction ps as [|[k v] ps IH]; intros c Hroom.
  - exists c. by repeat split.
  - simpl in Hroom. simpl foldl.
    destruct (tc_Set_room now c k v) as (l1 & Hset & Hlen & Hother); [lia|].
    change (foldl ?f (Some c ≫= ?g) ps) with (foldl f (ttlCache.Set_ now c k v) ps).
    rewrite Hset.
    set (it := {| ttlCache.key := k; ttlCache.val := v;
                  ttlCache.expires := Time_Add now (ttlCache.ttl c) |}) in *.
    destruct (IH (ttlCache.set_ll c (it :: l1))) as (c' & Hfold & Httl & Htab).
    { simpl. lia. }
    exists c'. split; [done|]. split; [done|].
    intros k'. rewrite Htab. rewrite filter_cons. simpl.
    case_decide as Hk.
    + rewrite last_cons. destruct (last _) as [p'|]; [done|].
      subst k'. apply (tc_tab_cons_same c it l1).
    + destruct (last _) as [p'|]; [done|].
      unfold ttlCache.tab at 1. simpl. rewrite filter_cons. simpl.
      rewrite decide_False by done. apply Hother. congruence.
Qed.
End DnsFacts.

Section LoadFacts.
Context {rt : Runtime}.

Lemma foldl_stores_None (now : Time) (ps : list (string * string)) :
  foldl (fun acc p => c0 ← acc; ttlCache.Set_ now c0 p.1 p.2) None ps = None.
Proof. by induction ps. Qed.

Lemma setTLDs_fold (now : Time) (tlds : list string) (base : string)
    (bc : ttlCache.t string) :
  setTLDs now bc tlds base
  = foldl (fun acc p => c0 ← acc; ttlCache.Set_ now c0 p.1 p.2) (Some bc)
      ((fun tl => (strings_ToLower tl, base)) <$> tlds).
Proof.
  revert bc. induction tlds as [|tl rest IH]; intros bc; [done|].
  simpl. destruct (ttlCache.Set_ now bc (strings_ToLower tl) base) as [bc'|]; simpl.
  - apply IH.
  - by rewrite foldl_stores_None.
Qed.

Lemma loadServices_fold (now : Time) (svcs : list (list any))
    (bc : ttlCache.t string) :
  loadServices now bc svcs
  = foldl (fun acc p => c0 ← acc; ttlCache.Set_ now c0 p.1 p.2) (Some bc)
      (dnsPairs svcs).
Proof.
  revert bc. induction svcs as [|svc rest IH]; intros bc; [done|].
  unfold dnsPairs. simpl flat_map. rewrite foldl_app. fold (dnsPairs rest).
  simpl. destruct svc as [|ks [|us [|x l]]]; try apply IH.
  simpl. destruct (toStringSlice us) as [|u0 urls]; [apply IH|].
  rewrite setTLDs_fold.
  destruct (foldl _ (Some bc) _) as [bc'|]; simpl; [apply IH|].
  by rewrite foldl_stores_None.
Qed.
End LoadFacts.

(** X25.  In the DNS bootstrap file the last entry wins.  When the base
    cache has room for every store the file asks for, loading it never
    panics and evicts nothing: each TLD the file lists, lower-cased, ends
    with the first URL (trailing slashes stripped) of the last entry that
    lists it and expires one TTL after the load; the other keys are left as
    they were. *)
Theorem loadServices_last_entry_wins `{rt : Runtime} (now : Time)
    (bc : ttlCache.t string) (svcs : list (list any))
    (Hroom : Z.of_nat (length (ttlCache.ll bc))
             + Z.of_nat (length (dnsPairs svcs)) <= ttlCache.cap bc) :
  ∃ bc', loadServices now bc svcs = Some bc'
         ∧ ∀ k, ttlCache.tab bc' k
                = match last (filter (fun p => p.1 = k) (dnsPairs svcs)) with
                  | Some p => Some {| ttlCache.key := k; ttlCache.val := p.2;
                                      ttlCache.expires
                                        := Time_Add now (ttlCache.ttl bc) |}
                  | None => ttlCache.tab bc k
                  end.
Proof.
  destruct (tc_stores_last now (dnsPairs svcs) bc Hroom) as (bc' & Hfold & _ & Htab).
  exists bc'. split; [|done]. by rewrite loadServices_fold.
Qed.

(** Witness of X25: [com] is listed by both entries of
    [Scenario.dnsValue]; the second one wins, and [NET] is stored as
    [net]. *)
Lemma loadServices_last_entry_wins_witness :
  ∃ bc', loadServices (rt:=Example.exampleRuntime) Example.noon
           (ttlCache.newTTLCache (6 * 60 * Minute) 64) (Services Scenario.dnsValue)
         = Some bc'
         ∧ ttlCache.val <$> ttlCache.tab bc' "com" = Some "https://new.example/v1"%string
         ∧ ttlCache.val <$> ttlCache.tab bc' "net" = Some "https://old.example"%string
         ∧ ttlCache.tab bc' "NET" = None.
Proof.
  destruct (loadServices_last_entry_wins (rt:=Example.exampleRuntime) Example.noon
              (ttlCache.newTTLCache (6 * 60 * Minute) 64) (Services Scenario.dnsValue))
    as (bc' & Hload & Htab); [vm_compute; discriminate|].
  exists bc'. split; [exact Hload|]. rewrite !Htab.
  split; [vm_compute; reflexivity|]. split; vm_compute; reflexivity.
Defined.

(** X26.  The DNS resolver refuses the empty TLD without a request, and
    with a default base configured it reports no other error: whatever the
    bootstrap server does, the answer for a TLD that is not empty is a
    base. *)
Theorem resolveBaseFromBootstrapDNS_default_base `{rt : Runtime} `{ur : UrlRuntime}
    `{world : World W} (defaultRDAPBase : string) (c : Client) (w : W) :
  resolveBaseFromBootstrapDNS defaultRDAPBase c w EmptyString
  = Some (inl (errors_New "empty TLD"), c, w)
  ∧ (defaultRDAPBase ≠ EmptyString →
     ∀ tld r c' w', tld ≠ EmptyString →
       resolveBaseFromBootstrapDNS defaultRDAPBase c w tld = Some (r, c', w') →
       ∃ base, r = inr base).
Proof.
  split; [done|]. intros Hd tld r c' w' Htld.
  unfold resolveBaseFromBootstrapDNS.
  rewrite bool_decide_false by done. rewrite !bool_decide_true by done.
  destruct (ttlCache.Get _ _ _) as [[base|] bc]; [intros [= <- _ _]; eauto|].
  destruct (fetchBootstrap _ _ _) as [[[e1 c1] w1]|]; [|done]. simpl.
  destruct e1 as [err|]; [intros [= <- _ _]; eauto|].
  destruct (ttlCache.Get _ _ _) as [[base|] bc1]; [intros [= <- _ _]; eauto|].
  destruct (fetchBootstrap _ _ _) as [[[e2 c2] w2]|]; [|done]. simpl.
  destruct e2 as [err|]; [intros [= <- _ _]; eauto|].
  destruct (ttlCache.Get _ _ _) as [[base|] bc2]; intros [= <- _ _]; eauto.
Qed.

(** Witness of X26: offline, with the default base [https://rdap.org]. *)
Lemma resolveBaseFromBootstrapDNS_default_base_witness :
  ∃ base,
    (fst ∘ fst) <$> resolveBaseFromBootstrapDNS (rt:=Example.exampleRuntime)
                      (ur:=Scenario.urlRuntime) (world:=Example.scriptedWorld)
                      "https://rdap.org" (Example.newClient 2) Scenario.offline "com"
    = Some (inr base).
Proof.
  pose (res := resolveBaseFromBootstrapDNS (rt:=Example.exampleRuntime)
                 (ur:=Scenario.urlRuntime) (world:=Example.scriptedWorld)
                 "https://rdap.org" (Example.newClient 2) Scenario.offline "com").
  change (∃ base, (fst ∘ fst) <$> res = Some (inr base)).
  assert (Hres : res = Some (inr "https://rdap.org"%string,
                             from_option (snd ∘ fst) (Example.newClient 2) res,
                             from_option snd Scenario.offline res))
    by (apply result_parts; vm_compute; reflexivity).
  destruct (proj2 (resolveBaseFromBootstrapDNS_default_base
                     (rt:=Example.exampleRuntime) (ur:=Scenario.urlRuntime)
                     (world:=Example.scriptedWorld) "https://rdap.org"
                     (Example.newClient 2) Scenario.offline)
              ltac:(discriminate) "com" _ _ _ ltac:(discriminate) Hres)
    as [base Hbase].
  exists base. rewrite Hres. simpl. by rewrite Hbase.
Defined.

(** ** The endpoints *)

(** What [ParseObject] returns carries the class name of its variant, up
    to case. *)
Lemma ParseObject_inr_class `{rt : Runtime} (m : jsonMap) (o : Object) :
  ParseObject m = inr o -> lower (GetObjectClassName o) = canonicalName o.
Proof.
  unfold ParseObject. destruct m as [mm|]; [|done].
  repeat case_bool_decide; try done; intros Hd;
    apply decodeCase_inr in Hd as (v & -> & Hv);
    by apply bool_decide_eq_true in Hv.
Qed.

(** X27.  An endpoint returns only an object of its own class: the value
    [IP] returns has a class name that is [ip network] up to case, and so
    for [Domain], [Nameserver], [Entity] and [Autnum] with their
    classes. *)
Theorem endpoints_return_own_class `{rt : Runtime} `{ur : UrlRuntime}
    `{world : World W} (defaultRDAPBase : string) (fuel : nat) (c c' : Client)
    (w w' : W) (q hint : string) :
  (∀ v, IP fuel c w q = Some (inr v, c', w') →
        lower (ObjectClassName (IPNetwork_Common v)) = "ip network"%string)
  ∧ (∀ v, Domain_ defaultRDAPBase fuel c w q = Some (inr v, c', w') →
          lower (ObjectClassName (Domain_Common v)) = "domain"%string)
  ∧ (∀ v, Nameserver_ defaultRDAPBase fuel c w q = Some (inr v, c', w') →
          lower (ObjectClassName (Nameserver_Common v)) = "nameserver"%string)
  ∧ (∀ v, Entity_ defaultRDAPBase fuel c w q hint = Some (inr v, c', w') →
          lower (ObjectClassName (Entity_Common v)) = "entity"%string)
  ∧ (∀ v, Autnum_ fuel c w q = Some (inr v, c', w') →
          lower (ObjectClassName (Autnum_Common v)) = "autnum"%string).
Proof.
  split; [|split; [|split; [|split]]]; intros v.
  - unfold IP. destruct (rdapBaseForIP c w q) as [[[rb c1] w1]|]; [|done]. simpl.
    destruct rb as [e|base]; [done|].
    destruct (mustJoin _ _ _) as [u|]; [|done]. simpl.
    destruct (getJSON _ _ _ _) as [[[r c2] w2]|]; [|done]. simpl.
    destruct r as [e|[m h]]; [done|].
    destruct (ParseObject m) as [e|o] eqn:Hp; [done|].
    destruct o; try done. intros [= <- _ _].
    apply (ParseObject_inr_class _ _ Hp).
  - unfold Domain_. destruct (rdapBaseForDomain _ c w q) as [[[rb c1] w1]|]; [|done].
    simpl. destruct rb as [e|base]; [done|].
    destruct (mustJoin _ _ _) as [u|]; [|done]. simpl.
    destruct (getJSON _ _ _ _) as [[[r c2] w2]|]; [|done]. simpl.
    destruct r as [e|[m h]]; [done|].
    destruct (ParseObject m) as [e|o] eqn:Hp; [done|].
    destruct o; try done. intros [= <- _ _].
    apply (ParseObject_inr_class _ _ Hp).
  - unfold Nameserver_.
    destruct (rdapBaseForDomain _ c w q) as [[[rb c1] w1]|]; [|done]. simpl.
    destruct (mustJoin _ _ _) as [u|]; [|done]. simpl.
    destruct (getJSON _ _ _ _) as [[[r c2] w2]|]; [|done]. simpl.
    destruct r as [e|[m h]]; [done|].
    destruct (ParseObject m) as [e|o] eqn:Hp; [done|].
    destruct o; try done. intros [= <- _ _].
    apply (ParseObject_inr_class _ _ Hp).
  - unfold Entity_.
    destruct (if bool_decide _ then _ else _) as [[[rb c1] w1]|]; [|done]. simpl.
    destruct (mustJoin _ _ _) as [u|]; [|done]. simpl.
    destruct (getJSON _ _ _ _) as [[[r c2] w2]|]; [|done]. simpl.
    destruct r as [e|[m h]]; [done|].
    destruct (ParseObject m) as [e|o] eqn:Hp; [done|].
    destruct o; try done. intros [= <- _ _].
    apply (ParseObject_inr_class _ _ Hp).
  - unfold Autnum_. destruct (strconv_ParseUint _); [|done|done].
    destruct (rdapBaseForASN c w _) as [[[rb c1] w1]|]; [|done]. simpl.
    destruct rb as [e|base]; [done|].
    destruct (mustJoin _ _ _) as [u|]; [|done]. simpl.
    destruct (getJSON _ _ _ _) as [[[r c2] w2]|]; [|done]. simpl.
    destruct r as [e|[m h]]; [done|].
    destruct (ParseObject m) as [e|o] eqn:Hp; [done|].
    destruct o; try done. intros [= <- _ _].
    apply (ParseObject_inr_class _ _ Hp).
Qed.

(** Witness of X27: [IP] on [10.1.2.3], served the IP bootstrap document
    and then an object of class [ip network]. *)
Lemma endpoints_return_own_class_witness :
  ∃ v, (fst ∘ fst) <$> IP (rt:=Example.exampleRuntime) (ur:=Scenario.urlRuntime)
                         (world:=Example.scriptedWorld) 1 (Example.newClient 2)
                         (Scenario.world_lookup "ip network") "10.1.2.3"
       = Some (inr v)
       ∧ lower (rt:=Example.exampleRuntime) (ObjectClassName (IPNetwork_Common v))
         = "ip network"%string.
Proof.
  pose (res := IP (rt:=Example.exampleRuntime) (ur:=Scenario.urlRuntime)
                 (world:=Example.scriptedWorld) 1 (Example.newClient 2)
                 (Scenario.world_lookup "ip network") "10.1.2.3").
  pose (v := Build_IPNetwork
               {| ObjectClassName := "ip network"; commonMembers := ∅ |} ∅).
  assert (Hres : res = Some (inr v,
                             from_option (snd ∘ fst) (Example.newClient 2) res,
                             from_option snd (Scenario.world_lookup "ip network") res))
    by (apply result_parts; vm_compute; reflexivity).
  exists v. split; [change ((fst ∘ fst) <$> res = Some (inr v)); by rewrite Hres|].
  apply (proj1 (endpoints_return_own_class (rt:=Example.exampleRuntime)
                  (ur:=Scenario.urlRuntime) (world:=Example.scriptedWorld)
                  EmptyString 1 (Example.newClient 2) _
                  (Scenario.world_lookup "ip network") _ "10.1.2.3" EmptyString)
           v Hres).
Defined.

(** ** Options *)

(** X28.  [WithCacheSizes] never panics.  A size that is not positive
    leaves its cache as it is; a positive size for the response cache trims
    it at once to that many of its most recently used entries, while a
    positive size for the base cache only sets the capacity and drops
    nothing. *)
Theorem WithCacheSizes_never_panics (tldCap entityCap : Z) (c : Client) :
  ∃ c', WithCacheSizes tldCap entityCap c = Some c'
        ∧ ttlCache.ll (rdapBaseCache c') = ttlCache.ll (rdapBaseCache c)
        ∧ (tldCap <= 0 → rdapBaseCache c' = rdapBaseCache c)
        ∧ (entityCap <= 0 → respCache c' = respCache c)
        ∧ (0 < tldCap → ttlCache.cap (rdapBaseCache c') = tldCap)
        ∧ (0 < entityCap →
           respCache.cap (respCache c') = entityCap
           ∧ respCache.ll (respCache c')
             = take (Z.to_nat entityCap) (respCache.ll (respCache c))).
Proof.
  unfold WithCacheSizes.
  destruct (bool_decide (tldCap > 0)) eqn:Et; destruct (bool_decide (entityCap > 0)) eqn:Ee;
    try apply bool_decide_eq_true in Et; try apply bool_decide_eq_false in Et;
    try apply bool_decide_eq_true in Ee; try apply bool_decide_eq_false in Ee.
  - unfold respCache.Resize. rewrite evictLoop_take by lia. simpl.
    eexists. split; [done|]. simpl. repeat split; try done; lia.
  - eexists. split; [done|]. simpl. repeat split; try done; lia.
  - unfold respCache.Resize. rewrite evictLoop_take by lia. simpl.
    eexists. split; [done|]. simpl. repeat split; try done; lia.
  - eexists. split; [done|]. simpl. repeat split; try done; lia.
Qed.

(** Witness of X28: a response cache of two entries resized to one, with
    a size for the base cache that is ignored. *)
Lemma WithCacheSizes_never_panics_witness :
  ∃ c', WithCacheSizes (-1) 1
          (set_respCache (Example.newClient 2)
             (respCache.set_ll Example.negativeCache
                (respCache.ll Example.fullCache ++ respCache.ll Example.negativeCache)))
        = Some c'
        ∧ url <$> respCache.ll (respCache c') = ["x"%string]
        ∧ rdapBaseCache c' = rdapBaseCache (Example.newClient 2).
Proof.
  destruct (WithCacheSizes_never_panics (-1) 1
              (set_respCache (Example.newClient 2)
                 (respCache.set_ll Example.negativeCache
                    (respCache.ll Example.fullCache
                     ++ respCache.ll Example.negativeCache))))
    as (c' & Hsome & _ & Htld & _ & _ & Hent).
  exists c'. split; [exact Hsome|]. split.
  - destruct Hent as [_ ->]; [lia|]. reflexivity.
  - apply Htld. lia.
Defined.

(** ** Cache keys of AS numbers *)

Lemma byte_val_of (z : Z) : 0 <= z < 256 -> byte_val (byte_of z) = z.
Proof.
  intros Hz. unfold byte_val, byte_of.
  rewrite N_ascii_embedding by lia. lia.
Qed.

(** The digits [decimalDigits] puts before [acc] read back as the
    number. *)
Lemma decimalDigits_value (fuel : nat) (n : Z) (acc : string) (v : Z) :
  0 <= n < 10 ^ Z.of_nat fuel ->
  ∃ k, 0 <= k ∧ digitsValue v (decimalDigits fuel n acc)
                = digitsValue (v * 10 ^ k + n) acc.
Proof.
  revert n acc v. induction fuel as [|fuel IH]; intros n acc v Hn.
  - exists 0. split; [done|]. simpl in *. f_equal. lia.
  - cbn [decimalDigits].
    assert (Hmod : 0 <= n mod 10 < 10) by (apply Z.mod_pos_bound; lia).
    case_bool_decide as Hlt.
    + exists 1. split; [done|]. cbn [digitsValue].
      rewrite byte_val_of by lia. f_equal.
      rewrite Z.mod_small by lia. lia.
    + rewrite Nat2Z.inj_succ, Z.pow_succ_r in Hn by lia.
      destruct (IH (n / 10) (String (byte_of (48 + n mod 10)) acc) v)
        as (k & Hk & Heq).
      { split; [apply Z.div_pos; lia|]. apply Z.div_lt_upper_bound; lia. }
      exists (k + 1). split; [lia|]. rewrite Heq. cbn [digitsValue].
      rewrite byte_val_of by lia. f_equal.
      rewrite Z.pow_add_r by lia. pose proof (Z.div_mod n 10). lia.
Qed.

Lemma fmt_d_value (n : Z) : 0 <= n <= uint64_max -> digitsValue 0 (fmt_d n) = n.
Proof.
  intros Hn. unfold fmt_d.
  destruct (decimalDigits_value 20 n EmptyString 0) as (k & _ & Heq).
  { unfold uint64_max in Hn. split; [lia|]. simpl. lia. }
  rewrite Heq. simpl. lia.
Qed.

(** X29.  Distinct AS numbers never share an entry of the base cache: on
    unsigned 64-bit numbers the key [asn:<n>] determines the number. *)
Theorem asnKey_injective (a b : Z)
    (Ha : 0 <= a <= uint64_max) (Hb : 0 <= b <= uint64_max) :
  asnKey a = asnKey b → a = b.
Proof.
  unfold asnKey. intros Hkey.
  apply (f_equal (dropBytes (String.length "asn:"))) in Hkey.
  rewrite !dropBytes_app in Hkey.
  rewrite <- (fmt_d_value a Ha), <- (fmt_d_value b Hb). by rewrite Hkey.
Qed.

(** Witness of X29: AS 1 and AS 10. *)
Lemma asnKey_injective_witness : asnKey 1 ≠ asnKey 10.
Proof.
  intros Hkey. apply (asnKey_injective 1 10) in Hkey.
  - discriminate Hkey.
  - vm_compute. split; discriminate.
  - vm_compute. split; discriminate.
Defined.

(** ** [Autnum] and [rdapBaseForASN] *)

Lemma list_ascii_of_string_app (a b : string) :
  list_ascii_of_string (a +:+ b) = list_ascii_of_string a ++ list_ascii_of_string b.
Proof. induction a as [|ch a IH]; [done|]. rewrite append_cons. simpl. by rewrite IH. Qed.

Lemma string_rev_involutive (s : string) : string_rev (string_rev s) = s.
Proof.
  unfold string_rev. rewrite list_ascii_of_string_of_list_ascii, rev_involutive.
  apply string_of_list_ascii_of_string.
Qed.

Lemma allDigits_forall (s : string) :
  allDigits s = true <-> ∀ ch, ch ∈ list_ascii_of_string s -> isDigit ch = true.
Proof.
  induction s as [|a s IH]; simpl.
  - split; [|done]. intros _ ch Hch. by apply elem_of_nil in Hch.
  - rewrite andb_true_iff, IH. split.
    + intros [Ha Hs] ch Hch. apply elem_of_cons in Hch as [->|Hch]; auto.
    + intros Hall. split; [apply Hall, list_elem_of_here|].
      intros ch Hch. by apply Hall, list_elem_of_further.
Qed.

Lemma allDigits_rev (s : string) : allDigits s = true -> allDigits (string_rev s) = true.
Proof.
  rewrite !allDigits_forall. intros Hall ch Hch. apply Hall.
  unfold string_rev in Hch. rewrite list_ascii_of_string_of_list_ascii in Hch.
  apply list_elem_of_In. apply list_elem_of_In in Hch. by apply in_rev.
Qed.

Lemma scanSpace_digits (s : string) : allDigits s = true -> scanSpace s = ScanStop s.
Proof.
  destruct s as [|a s]; [done|]. simpl. intros Hd.
  apply andb_true_iff in Hd as [Ha _]. unfold isDigit in Ha.
  apply bool_decide_eq_true in Ha.
  rewrite bool_decide_false by lia. unfold asciiSpace.
  by rewrite !bool_decide_false by lia.
Qed.

Section DigitsFacts.
Context {rt : Runtime} {ur : UrlRuntime}.

Lemma TrimSpace_digits (s : string) : allDigits s = true -> strings_TrimSpace s = s.
Proof.
  intros Hd. unfold strings_TrimSpace.
  rewrite scanSpace_digits by done.
  rewrite scanSpace_digits by by apply allDigits_rev.
  apply string_rev_involutive.
Qed.

Lemma ToUpper_digits (s : string) : allDigits s = true -> strings_ToUpper s = s.
Proof.
  intros Hd. unfold strings_ToUpper.
  assert (Hboth : isASCII s = true ∧ mapBytes upperByte s = s).
  { induction s as [|a s IH]; [done|]. simpl in *.
    apply andb_true_iff in Hd as [Ha Hs]. destruct (IH Hs) as [-> ->].
    unfold isDigit in Ha. apply bool_decide_eq_true in Ha.
    rewrite bool_decide_true by lia. unfold upperByte, isLower.
    by rewrite bool_decide_false by lia. }
  destruct Hboth as [-> ->]. done.
Qed.

Lemma TrimPrefix_AS_digits (s : string) :
  allDigits s = true -> strings_TrimPrefix s "AS" = s.
Proof.
  intros Hd. unfold strings_TrimPrefix.
  destruct s as [|a s]; [done|]. simpl in *.
  apply andb_true_iff in Hd as [Ha _]. unfold isDigit in Ha.
  apply bool_decide_eq_true in Ha.
  rewrite bool_decide_false; [done|]. intros <-. change (48 <= 65 <= 57) in Ha. lia.
Qed.

Lemma ParseUint_ok_digits (s : string) (n : Z) :
  strconv_ParseUint s = UintOk n -> allDigits s = true.
Proof.
  unfold strconv_ParseUint. case_bool_decide; [done|].
  intros Hloop. apply parseUintLoop_ok in Hloop; [tauto|].
  unfold uint64_max. lia.
Qed.
End DigitsFacts.

(** X30.  [Autnum] resolves the number it has checked.  When the text
    left after upper-casing and removing a leading [AS] is a number,
    [rdapBaseForASN], which normalises the text again, neither changes it
    nor reports an error: it asks the bootstrap resolver for that number.
    When it is not a number, [Autnum] returns the error of
    [strconv.ParseUint] without a request. *)
Theorem Autnum_resolves_checked_number `{rt : Runtime} `{ur : UrlRuntime}
    `{world : World W} (fuel : nat) (c : Client) (w : W) (asn : string) :
  let trimmed := strings_TrimPrefix (strings_ToUpper asn) "AS" in
  (∀ n, strconv_ParseUint trimmed = UintOk n →
        rdapBaseForASN c w trimmed = resolveBaseFromBootstrapASN c w n)
  ∧ (strconv_ParseUint trimmed = UintSyntax →
     Autnum_ fuel c w asn = Some (inl (numError trimmed false), c, w))
  ∧ (strconv_ParseUint trimmed = UintRange →
     Autnum_ fuel c w asn = Some (inl (numError trimmed true), c, w)).
Proof.
  intros trimmed. split; [|split].
  - intros n Hn. pose proof (ParseUint_ok_digits _ _ Hn) as Hd.
    unfold rdapBaseForASN.
    rewrite (ToUpper_digits trimmed Hd), (TrimPrefix_AS_digits trimmed Hd),
            (TrimSpace_digits trimmed Hd).
    by rewrite Hn.
  - intros Hs. unfold Autnum_. fold trimmed. by rewrite Hs.
  - intros Hr. unfold Autnum_. fold trimmed. by rewrite Hr.
Qed.

(** Witness of X30: [as15169] is resolved as 15169; [AS 15169], which
    [rdapBaseForASN] alone would accept, is refused by [Autnum] as a
    syntax error; and digits that overflow before a bad byte is met are
    refused as out of range. *)
Lemma Autnum_resolves_checked_number_witness :
  rdapBaseForASN (rt:=Example.exampleRuntime) (ur:=Scenario.urlRuntime)
    (world:=Example.scriptedWorld) (Example.newClient 2) Scenario.offline
    (strings_TrimPrefix (strings_ToUpper (ur:=Scenario.urlRuntime) "as15169") "AS")
  = resolveBaseFromBootstrapASN (rt:=Example.exampleRuntime)
      (world:=Example.scriptedWorld) (Example.newClient 2) Scenario.offline 15169
  ∧ Autnum_ (rt:=Example.exampleRuntime) (ur:=Scenario.urlRuntime)
      (world:=Example.scriptedWorld) 1 (Example.newClient 2) Scenario.offline
      "AS 15169"
    = Some (inl (numError (ur:=Scenario.urlRuntime) " 15169" false),
            Example.newClient 2, Scenario.offline)
  ∧ Autnum_ (rt:=Example.exampleRuntime) (ur:=Scenario.urlRuntime)
      (world:=Example.scriptedWorld) 1 (Example.newClient 2) Scenario.offline
      "as99999999999999999999999x"
    = Some (inl (numError (ur:=Scenario.urlRuntime) "99999999999999999999999X" true),
            Example.newClient 2, Scenario.offline).
Proof.
  pose proof (Autnum_resolves_checked_number (rt:=Example.exampleRuntime)
                (ur:=Scenario.urlRuntime) (world:=Example.scriptedWorld) 1
                (Example.newClient 2) Scenario.offline "as15169") as H1.
  pose proof (Autnum_resolves_checked_number (rt:=Example.exampleRuntime)
                (ur:=Scenario.urlRuntime) (world:=Example.scriptedWorld) 1
                (Example.newClient 2) Scenario.offline "AS 15169") as H2.
  pose proof (Autnum_resolves_checked_number (rt:=Example.exampleRuntime)
                (ur:=Scenario.urlRuntime) (world:=Example.scriptedWorld) 1
                (Example.newClient 2) Scenario.offline
                "as99999999999999999999999x") as H3.
  cbv zeta in H1, H2, H3.
  destruct H1 as (H1 & _). destruct H2 as (_ & H2 & _). destruct H3 as (_ & _ & H3).
  split; [|split].
  - apply H1. vm_compute. reflexivity.
  - apply H2. vm_compute. reflexivity.
  - apply H3. vm_compute. reflexivity.
Defined.
